(** * AS/400 output modernizer: ingestion and column-name resolution

    A shallow embedding of [backend/services/ai_service.py] and
    [backend/services/file_service.py], with the service recommendation of
    [backend/services/data_analysis_service.py] and the column mapping of
    [backend/routers/modernization.py].

    Conventions of the embedding.
    - A Python [str] is a [list ascii] ([pystr]).  The embedding is faithful
      on 7-bit text: the character classes of Python ([str.isspace], [\w],
      [\s], [str.lower]) are given here for code points 0..127, and theorems
      that depend on them carry an [ascii7] hypothesis on the text.
    - A Python exception is a value of [exn]; code that can raise returns
      [result A].  [try ... except Exception] is [try_except].
    - External libraries (chardet, the codecs, csv.Sniffer, pandas readers,
      the transformers pipeline) are Section variables: the code is modelled
      around them and nothing is assumed about them beyond what a theorem
      states as a hypothesis.
    - [functools.lru_cache] is modelled as explicit state (recency list,
      hit and miss counters) threaded through the calls. *)

From Stdlib Require Import String Ascii Bool Arith Lia DecimalString DecimalNat List.
Import ListNotations.

Set Implicit Arguments.

(** ** Python strings *)

Definition pystr := list ascii.

Definition py (s : string) : pystr := list_ascii_of_string s.

Definition code (c : ascii) : nat := nat_of_ascii c.

Definition in_range (lo hi : nat) (c : ascii) : bool :=
  (lo <=? code c) && (code c <=? hi).

Definition is_upper (c : ascii) : bool := in_range 65 90 c.
Definition is_lower (c : ascii) : bool := in_range 97 122 c.
Definition is_digit (c : ascii) : bool := in_range 48 57 c.
Definition is_alpha (c : ascii) : bool := is_upper c || is_lower c.
Definition is_us (c : ascii) : bool := Ascii.eqb c "_"%char.

(** [str.isspace], [str.strip()] and the regex class [\s] agree on
    code points below 128: TAB, LF, VT, FF, CR, FS, GS, RS, US and SPACE. *)
Definition is_space (c : ascii) : bool :=
  in_range 9 13 c || in_range 28 32 c.

(** The regex class [\w] on code points below 128. *)
Definition is_word (c : ascii) : bool :=
  is_upper c || is_lower c || is_digit c || is_us c.

Definition ascii7_char (c : ascii) : bool := code c <? 128.
Definition ascii7 (s : pystr) : bool := forallb ascii7_char s.

Definition to_lower (c : ascii) : ascii :=
  if is_upper c then ascii_of_nat (code c + 32) else c.
Definition to_upper (c : ascii) : ascii :=
  if is_lower c then ascii_of_nat (code c - 32) else c.

Definition lower (s : pystr) : pystr := map to_lower s.
Definition upper (s : pystr) : pystr := map to_upper s.

Fixpoint dropwhile (p : ascii -> bool) (s : pystr) : pystr :=
  match s with
  | [] => []
  | c :: t => if p c then dropwhile p t else s
  end.

Definition lstrip (p : ascii -> bool) (s : pystr) : pystr := dropwhile p s.
Definition rstrip (p : ascii -> bool) (s : pystr) : pystr :=
  rev (dropwhile p (rev s)).
Definition strip_by (p : ascii -> bool) (s : pystr) : pystr :=
  rstrip p (lstrip p s).

(** [s.strip()] and [s.strip('_')]. *)
Definition strip (s : pystr) : pystr := strip_by is_space s.
Definition strip_us (s : pystr) : pystr := strip_by is_us s.

Definition is_empty (s : pystr) : bool :=
  match s with [] => true | _ => false end.

Fixpoint str_eqb (a b : pystr) : bool :=
  match a, b with
  | [], [] => true
  | x :: a', y :: b' => Ascii.eqb x y && str_eqb a' b'
  | _, _ => false
  end.

(** [s.startswith(p)]. *)
Fixpoint startswith (p s : pystr) : bool :=
  match p, s with
  | [], _ => true
  | x :: p', y :: s' => Ascii.eqb x y && startswith p' s'
  | _ :: _, [] => false
  end.

(** [p in s]. *)
Fixpoint contains (p s : pystr) : bool :=
  startswith p s ||
  match s with
  | [] => false
  | _ :: t => contains p t
  end.

(** [s[a:b]] for [0 <= a], [0 <= b]. *)
Definition slice (a b : nat) (s : pystr) : pystr :=
  firstn (b - a) (skipn a s).

(** [f"{i}"] for a non-negative [int]. *)
Definition str_of_nat (n : nat) : pystr :=
  py (NilEmpty.string_of_uint (Nat.to_uint n)).

(** ** Exceptions *)

Inductive exn : Type :=
| ReError (msg : string)
| ValueError (msg : string)
| LookupError (msg : string)
| RuntimeError (msg : string)
| HTTPException (status : nat) (detail : string).

Inductive result (A : Type) : Type :=
| Ok (a : A)
| Raise (e : exn).
Arguments Ok {A} a.
Arguments Raise {A} e.

Definition bind {A B} (m : result A) (k : A -> result B) : result B :=
  match m with
  | Ok a => k a
  | Raise e => Raise e
  end.

Notation "x <- m ;; k" := (bind m (fun x => k))
  (at level 61, m at next level, right associativity).

(** [try: m  except Exception: h]. *)
Definition try_except {A} (m : result A) (h : exn -> result A) : result A :=
  match m with
  | Ok a => Ok a
  | Raise e => h e
  end.

(** ** [AIService._to_snake_case] *)

(** [re.sub(r'([a-z])([A-Z])', r'\1_\2', s)]: an underscore between a lower
    case letter and the upper case letter that follows it.  Matches cannot
    overlap (the second character of a match is upper case), so one
    left-to-right pass inserts all of them. *)
Fixpoint camel_split (s : pystr) : pystr :=
  match s with
  | [] => []
  | a :: t =>
      match t with
      | b :: _ =>
          if is_lower a && is_upper b
          then a :: "_"%char :: camel_split t
          else a :: camel_split t
      | [] => [a]
      end
  end.

(** [re.sub(r'[^\w\s]', '_', s)]. *)
Definition punct_to_us (s : pystr) : pystr :=
  map (fun c => if negb (is_word c) && negb (is_space c) then "_"%char else c) s.

(** [re.sub(p+, '_', s)] for a character class [p]: every maximal run of
    [p]-characters becomes one underscore. *)
Fixpoint runs_to_us (p : ascii -> bool) (in_run : bool) (s : pystr) : pystr :=
  match s with
  | [] => []
  | c :: t =>
      if p c
      then if in_run then runs_to_us p true t
           else "_"%char :: runs_to_us p true t
      else c :: runs_to_us p false t
  end.

(** The steps of [_to_snake_case], in the order of the source.  The classes
    [\w] and [\s], [str.strip] and [str.lower] are those of 7-bit text: Python
    keeps a letter above code point 127 where this definition sees
    punctuation, so what is stated about the function is stated for 7-bit
    text. *)
Definition _to_snake_case (s : pystr) : pystr :=
  if is_empty s || is_empty (strip s) then py "column"
  else
    let s := strip s in
    let s := camel_split s in
    let s := punct_to_us s in
    let s := runs_to_us is_space false s in
    let s := runs_to_us is_us false s in
    let r := strip_us (lower s) in
    if is_empty r then py "column" else r.

(** ** [AIService._validate_column_name] *)

Definition LF : ascii := ascii_of_nat 10.
Definition TAB : ascii := ascii_of_nat 9.

(** The text without one trailing line feed: a regex [$] also matches just
    before a line feed that ends the text. *)
Definition chomp_nl (s : pystr) : pystr :=
  match rev s with
  | c :: r => if Ascii.eqb c LF then rev r else s
  | [] => s
  end.

Definition snake_tail (c : ascii) : bool := is_lower c || is_digit c || is_us c.

(** [re.match(r'^[a-z][a-z0-9_]*$', name)]. *)
Definition snake_re_match (name : pystr) : bool :=
  match name with
  | [] => false
  | c :: t => is_lower c && forallb snake_tail (chomp_nl t)
  end.

(** The whole of [name] is in the language [[a-z][a-z0-9_]*]. *)
Definition is_snake (name : pystr) : bool :=
  match name with
  | [] => false
  | c :: t => is_lower c && forallb snake_tail t
  end.

(** The words of [invalid_patterns]; each pattern is [.*w.*]. *)
Definition invalid_patterns : list pystr :=
  map py ["customeromer"; "identifierifier"; "addressess"; "numberber";
          "the"; "a"; "an"; "column"; "field"; "value"; "name";
          "legacy"; "original"; "old"]%string.

(** [re.search(r'.*w.*', name, re.IGNORECASE)] for a lower case word [w]:
    [w] occurs in [name], letter case ignored. *)
Definition search_ci (w name : pystr) : bool := contains w (lower name).

Definition _validate_column_name (name original : pystr) : bool :=
  if is_empty name || (length name <? 2) || (40 <? length name) then false
  else if existsb (fun w => search_ci w name) invalid_patterns then false
  else if negb (snake_re_match name) then false
  else if str_eqb (lower name) (lower original) then false
  else true.

(** ** [AIService._analyze_as400_patterns] *)

Definition as400_mappings : list (pystr * pystr) :=
  map (fun kv => (py (fst kv), py (snd kv)))
  [ ("CUS_ID", "customer_id"); ("CUSTID", "customer_id"); ("CUSTNO", "customer_number");
    ("CUSTNUM", "customer_number"); ("CUST#", "customer_id"); ("CUSTNAME", "customer_name");
    ("CUSTNAM", "customer_name"); ("CUSTNM", "customer_name"); ("NME", "name");
    ("EMPNO", "employee_number"); ("EMPNUM", "employee_number"); ("EMP#", "employee_id");
    ("EMPNAME", "employee_name"); ("EMPNAM", "employee_name"); ("EMPNM", "employee_name");
    ("ADDR1", "address_line_1"); ("ADDR2", "address_line_2"); ("STREET", "street_address");
    ("CITY", "city"); ("STATE", "state"); ("ZIP", "zip_code"); ("ZIPCODE", "zip_code");
    ("POSTAL", "postal_code"); ("COUNTRY", "country"); ("CREDITLMT", "credit_limit");
    ("BALANCE", "account_balance"); ("AMT", "amount"); ("AMOUNT", "amount"); ("PRICE", "price");
    ("HIREDATE", "hire_date"); ("CREATEDT", "create_date"); ("MODDT", "modify_date");
    ("SHIPDT", "ship_date"); ("ORDERDT", "order_date"); ("PARTNO", "part_number");
    ("ITEMNO", "item_number"); ("PRODCD", "product_code"); ("SKU", "sku"); ("QTY", "quantity");
    ("DESC", "description"); ("DESCR", "description"); ("E-MAIL", "email");
    ("EMAIL", "email"); ("PHONE", "phone_number"); ("DEPT", "department");
    ("STATUS", "status"); ("TYPE", "type"); ("CODE", "code"); ("FLAG", "flag");
    ("ACTIVE", "is_active"); ("INACTIVE", "is_inactive") ]%string.

(** [d.get(k, default)] on a dict literal with distinct keys. *)
Fixpoint dict_get (d : list (pystr * pystr)) (k default : pystr) : pystr :=
  match d with
  | [] => default
  | (k', v) :: d' => if str_eqb k' k then v else dict_get d' k default
  end.

Definition _analyze_as400_patterns (col : pystr) : pystr :=
  dict_get as400_mappings (upper col) (_to_snake_case col).

(** ** [AIService._clean_column_name] *)

Definition is_quote (c : ascii) : bool :=
  (code c =? 39) || (code c =? 34) || (code c =? 96).

Definition endswith (w s : pystr) : bool := startswith (rev w) (rev s).

(** [re.sub(r'^(w1|w2|...)\s*', '', s)]: the first alternative that is a
    prefix of [s] is removed together with the white space after it. *)
Fixpoint drop_leading_word (ws : list pystr) (s : pystr) : pystr :=
  match ws with
  | [] => s
  | w :: ws' =>
      if startswith w s then dropwhile is_space (skipn (length w) s)
      else drop_leading_word ws' s
  end.

(** [re.sub(r'\s*(w1|w2|...)$', '', s)]: a word that ends the text (or ends
    just before its final line feed) is removed together with the white space
    before it. *)
Fixpoint drop_trailing_word_of (ws : list pystr) (body : pystr) : option pystr :=
  match ws with
  | [] => None
  | w :: ws' =>
      if endswith w body
      then Some (rstrip is_space (firstn (length body - length w) body))
      else drop_trailing_word_of ws' body
  end.

Definition drop_trailing_word (ws : list pystr) (s : pystr) : pystr :=
  let body := chomp_nl s in
  let tail := skipn (length body) s in
  match drop_trailing_word_of ws body with
  | Some r => r ++ tail
  | None => s
  end.

(** The steps of [_clean_column_name]; like [_to_snake_case], which it
    calls, it is given here for 7-bit text. *)
Definition _clean_column_name (name : pystr) : pystr :=
  if is_empty name then []
  else
    let clean := filter (fun c => negb (is_quote c)) (lower (strip name)) in
    let clean := drop_leading_word
                   (map py ["the"; "a"; "an"; "column"; "field"; "name";
                            "value"; "result"; "output"]%string) clean in
    let clean := drop_trailing_word
                   (map py ["column"; "field"; "name"; "value"; "result";
                            "output"]%string) clean in
    let clean := _to_snake_case clean in
    let clean := strip_us (runs_to_us is_us false clean) in
    if is_empty clean then py "column" else clean.

(** ** [AIService._heuristic_transformation] *)

Definition abbreviations : list (pystr * pystr) :=
  map (fun kv => (py (fst kv), py (snd kv)))
  [ ("cust", "customer"); ("emp", "employee"); ("addr", "address");
    ("dept", "department"); ("prod", "product"); ("qty", "quantity");
    ("amt", "amount"); ("desc", "description"); ("num", "number");
    ("id", "id"); ("no", "number"); ("dt", "date");
    ("cd", "code"); ("nm", "name"); ("stat", "status");
    ("typ", "type"); ("flg", "flag"); ("act", "active") ]%string.

Definition edge_ok (cls : ascii -> bool) (c : option ascii) : bool :=
  match c with
  | None => true
  | Some x => negb (cls x)
  end.

(** [re.search(rf'^{abbr}[^a-z]|^{abbr}$|[^a-z]{abbr}[^a-z]|[^a-z]{abbr}$', s)]:
    [abbr] occurs with no lower case letter next to it on either side. *)
Fixpoint abbr_standalone (abbr : pystr) (prev : option ascii) (s : pystr) : bool :=
  (startswith abbr s && edge_ok is_lower prev
     && edge_ok is_lower (nth_error s (length abbr)))
  || match s with
     | [] => false
     | c :: t => abbr_standalone abbr (Some c) t
     end.

(** [re.sub(rf'\b{abbr}\b', full, s)]: every occurrence of [abbr] between
    two word boundaries is replaced, left to right, the search resuming after
    each replaced occurrence ([skip] counts the characters of a matched
    occurrence still to be passed over). *)
Fixpoint sub_word (abbr full : pystr) (prev : option ascii) (skip : nat)
         (s : pystr) : pystr :=
  match s with
  | [] => []
  | c :: t =>
      match skip with
      | S k => sub_word abbr full (Some c) k t
      | O =>
          if negb (is_empty abbr) && startswith abbr s
             && edge_ok is_word prev
             && edge_ok is_word (nth_error s (length abbr))
          then full ++ sub_word abbr full (Some c) (length abbr - 1) t
          else c :: sub_word abbr full (Some c) 0 t
      end
  end.

Definition expand_abbr (result : pystr) (kv : pystr * pystr) : pystr :=
  let (abbr, full) := kv in
  if abbr_standalone abbr None result
  then sub_word abbr full None 0 result
  else result.

Definition _heuristic_transformation (col : pystr) : pystr :=
  _to_snake_case (fold_left expand_abbr abbreviations (lower col)).

(** ** [re.compile]: the character-set rule of the pattern parser

    CPython's pattern parser reads a set [[...]] item by item; an item that
    is followed by [-] and then by something other than the closing bracket
    starts a range, and a range whose end points are not both single
    characters, or are in the wrong order, is rejected with
    [re.error: bad character range this-that at position p], where [p] is
    the position of the first end point in the pattern.  A class escape
    ([\d], [\s], [\w] and their complements) is not a single character.  A
    pattern that ends inside a set is rejected with
    [unterminated character set at position p], [p] the position of the
    opening bracket.  These are the only rules of the parser that the
    patterns of this program exercise, and the only ones modelled. *)

Inductive tok : Type :=
| Chr (c : ascii)
| Esc (c : ascii).

Fixpoint tokens (s : pystr) : list tok :=
  match s with
  | [] => []
  | c :: t =>
      if Ascii.eqb c "\"%char then
        match t with
        | d :: t' => Esc d :: tokens t'
        | [] => [Chr c]
        end
      else Chr c :: tokens t
  end.

Definition tok_is (c : ascii) (t : tok) : bool :=
  match t with
  | Chr d => Ascii.eqb c d
  | Esc _ => false
  end.

Definition is_category (c : ascii) : bool :=
  existsb (Ascii.eqb c) (py "dDsSwW").

(** The single character an item stands for, when it stands for one. *)
Definition tok_literal (t : tok) : option nat :=
  match t with
  | Chr c => Some (code c)
  | Esc c => if is_category c then None else Some (code c)
  end.

Inductive set_state : Type :=
| Outside
| SetStart
| SetFirst
| SetNext
| Item (code1 : tok)
| Dash (code1 : tok).

Definition set_step (st : set_state) (t : tok) : option set_state :=
  match st with
  | Outside => Some (if tok_is "["%char t then SetStart else Outside)
  | SetStart => Some (if tok_is "^"%char t then SetFirst else Item t)
  | SetFirst => Some (Item t)
  | SetNext => Some (if tok_is "]"%char t then Outside else Item t)
  | Item code1 =>
      Some (if tok_is "-"%char t then Dash code1
            else if tok_is "]"%char t then Outside
            else Item t)
  | Dash code1 =>
      if tok_is "]"%char t then Some Outside
      else match tok_literal code1, tok_literal t with
           | Some lo, Some hi => if lo <=? hi then Some SetNext else None
           | _, _ => None
           end
  end.

(** The text of an item in the pattern. *)
Definition tok_text (t : tok) : pystr :=
  match t with
  | Chr c => [c]
  | Esc c => ["\"%char; c]
  end.

(** [re.error(msg, pattern, pos)]: its text is [msg at position pos]. *)
Definition re_error (msg : pystr) (pos : nat) : exn :=
  ReError (string_of_list_ascii (msg ++ py " at position " ++ str_of_nat pos)).

(** The first end point of the range that is being read. *)
Definition range_first (st : set_state) : pystr :=
  match st with
  | Item code1 | Dash code1 => tok_text code1
  | _ => []
  end.

(** The pass over the items of the pattern: [pos] is the position of the
    next item, [item_pos] the position of the last item that can start a
    range, [set_pos] the position of the last opening bracket.  The result
    is the error of the first rejected range, if there is one. *)
Fixpoint sets_error (st : set_state) (pos item_pos set_pos : nat) (ts : list tok)
  : option exn :=
  match ts with
  | [] =>
      match st with
      | Outside => None
      | _ => Some (re_error (py "unterminated character set") set_pos)
      end
  | t :: r =>
      match set_step st t with
      | Some st' =>
          sets_error st' (pos + length (tok_text t))
                     (match st' with Item _ => pos | _ => item_pos end)
                     (match st with Outside => pos | _ => set_pos end) r
      | None =>
          Some (re_error (py "bad character range " ++ range_first st ++ py "-" ++ tok_text t)
                         item_pos)
      end
  end.

(** A compiled pattern object: its source and whether [re.IGNORECASE] is set. *)
Record pattern : Type := { source : pystr; ignorecase : bool }.

Definition re_compile (src : pystr) (icase : bool) : result pattern :=
  match sets_error Outside 0 0 0 (tokens src) with
  | None => Ok {| source := src; ignorecase := icase |}
  | Some e => Raise e
  end.

(** The value-shape patterns of [_pattern_based_prediction], in declaration
    order, each with its flag. *)
Definition pattern_sources : list (pystr * (pystr * bool)) :=
  map (fun e => (py (fst e), (py (fst (snd e)), snd (snd e))))
  [ ("email", ("\b[A-Za-z0-9._%+-]+@[A-Za-z0-9.-]+\.[A-Z|a-z]{2,}\b", false));
    ("phone_number", ("^\+?[\d\s-()]{7,20}$", false));
    ("date", ("^\d{4}-\d{2}-\d{2}$|^\d{2}/\d{2}/\d{4}$|^\d{2}-\d{2}-\d{4}$", false));
    ("zip_code", ("^\d{5}(-\d{4})?$", false));
    ("amount", ("^\$?\d+(?:\.\d{2})?$", false));
    ("price", ("^\$?\d+(?:\.\d{2})?$", false));
    ("quantity", ("^\d+$", false));
    ("id", ("^[A-Z0-9_-]+$", false));
    ("percentage", ("^\d+(?:\.\d+)?%$", false));
    ("status", ("^(active|inactive|pending|approved|rejected)$", true)) ]%string.

(** The list display [patterns = [(name, re.compile(...)), ...]]: the
    elements are evaluated in order and the first exception ends it. *)
Fixpoint compile_all (l : list (pystr * (pystr * bool)))
  : result (list (pystr * pattern)) :=
  match l with
  | [] => Ok []
  | (name, (src, icase)) :: l' =>
      p <- re_compile src icase ;;
      ps <- compile_all l' ;;
      Ok ((name, p) :: ps)
  end.

(** ** [collections.Counter] *)

(** A counter keeps its keys in the order of their first increment. *)
Definition counter := list (pystr * nat).

Fixpoint incr (k : pystr) (c : counter) : counter :=
  match c with
  | [] => [(k, 1)]
  | (k', n) :: c' => if str_eqb k' k then (k', S n) :: c' else (k', n) :: incr k c'
  end.

(** [c.most_common(1)[0]] for a counter that is not empty: [max] over the
    items by count, the first maximal item in iteration order. *)
Fixpoint most_common1 (best : pystr * nat) (c : counter) : pystr * nat :=
  match c with
  | [] => best
  | (k, n) :: c' => most_common1 (if snd best <? n then (k, n) else best) c'
  end.

Definition isdigit (s : pystr) : bool := negb (is_empty s) && forallb is_digit s.

Definition remove_chars (p : ascii -> bool) (s : pystr) : pystr :=
  filter (fun c => negb (p c)) s.

Definition fmt (prefix : string) (i : nat) : pystr := py prefix ++ str_of_nat i.

(** ** The AI service *)

Section AIService.

(** [self.modernizer]: the text-generation pipeline, [None] when AI
    processing is disabled or the model failed to load (and then
    [has_transformers] is [False]).  A call takes the prompt and returns
    the generated text, or raises. *)
Variable modernizer : option (pystr -> result pystr).

(** [pattern.match(value)] of the regex engine. *)
Variable re_match : pattern -> pystr -> bool.

(** [repr] of a list of [str], as an f-string renders it. *)
Variable repr_list : list pystr -> pystr.

(** The loop over the sample: each value counts for the first pattern, in
    declaration order, that matches it. *)
Fixpoint first_match (patterns : list (pystr * pattern)) (value : pystr)
  : option pystr :=
  match patterns with
  | [] => None
  | (name, p) :: ps => if re_match p value then Some name else first_match ps value
  end.

Definition count_matches (patterns : list (pystr * pattern)) (sample : list pystr)
  : counter :=
  fold_left (fun c value =>
               match first_match patterns value with
               | Some name => incr name c
               | None => c
               end) sample [].

(** [count / len(sample) > 0.3].  The sample has at most 100 values, so the
    quotient and the constant are far enough apart (or equal) for the
    floating-point test to agree with [3 * len(sample) < 10 * count]. *)
Definition over_threshold (count len : nat) : bool := 3 * len <? 10 * count.

Definition _pattern_based_prediction (sample : list pystr) (col_index : nat)
  : result pystr :=
  patterns <- compile_all pattern_sources ;;
  let match_counts := count_matches patterns sample in
  let dominant :=
    match match_counts with
    | [] => None
    | first :: rest =>
        let (most_common, count) := most_common1 first rest in
        if over_threshold count (length sample) then Some most_common else None
    end in
  match dominant with
  | Some name => Ok name
  | None =>
      if forallb (fun v => isdigit (remove_chars (Ascii.eqb "-"%char)
                                      (remove_chars (Ascii.eqb "."%char) v)))
                 (firstn 10 sample)
      then Ok (fmt "numeric_" col_index)
      else Ok (fmt "text_" col_index)
  end.

Definition infer_prompt (sample_preview : list pystr) : pystr :=
  py "Based on these sample values: " ++ repr_list sample_preview ++
  py ", generate a concise snake_case column name. Return only the column name, no explanations. Examples: ['john@email.com'] -> 'email', ['555-1234'] -> 'phone_number', ['100.00'] -> 'amount'".

Definition predict_column_name_from_data
           (column_data : list (option pystr)) (col_index : nat) : result pystr :=
  if match column_data with [] => true | _ => false end
  then Ok (fmt "column_" col_index)
  else
    let sample :=
      flat_map (fun d => match d with
                         | Some v => if is_empty (strip v) then [] else [strip v]
                         | None => []
                         end) (firstn 100 column_data) in
    if match sample with [] => true | _ => false end
    then Ok (fmt "data_column_" col_index)
    else
      pattern_result <- _pattern_based_prediction sample col_index ;;
      if negb (is_empty pattern_result)
         && negb (startswith (py "text_data_") pattern_result
                  || startswith (py "numeric_data_") pattern_result)
      then Ok pattern_result
      else
        let ai_result :=
          match modernizer with
          | Some generate =>
              try_except
                (generated <- generate (infer_prompt (firstn 3 sample)) ;;
                 let generated_name := lower (strip generated) in
                 let clean_name := _clean_column_name generated_name in
                 if negb (is_empty clean_name) && _validate_column_name clean_name []
                 then Ok (Some clean_name) else Ok None)
                (fun _ => Ok None)
          | None => Ok None
          end in
        r <- ai_result ;;
        match r with
        | Some clean_name => Ok clean_name
        | None => Ok pattern_result
        end.

Definition rename_prompt (original_col : pystr) : pystr :=
  py "Convert this database column name to modern snake_case: '" ++ original_col ++
  py "'. Return only the clean column name. Examples: CUS_ID -> customer_id, EMPNO -> employee_number, ADDR1 -> address_line_1, CUSTNAME -> customer_name".

(** The generative stage of [modernize_column_name]: the validated name,
    or [None] when the capability is absent, raises, or its output is
    rejected. *)
Definition generative_stage (original_col : pystr) : option pystr :=
  match modernizer with
  | Some generate =>
      match generate (rename_prompt original_col) with
      | Ok generated_text =>
          let clean_name := _clean_column_name generated_text in
          if negb (is_empty clean_name) && _validate_column_name clean_name original_col
          then Some clean_name else None
      | Raise _ => None
      end
  | None => None
  end.

(** The body of [modernize_column_name], without its cache. *)
Definition modernize_column_name (col : pystr) : pystr :=
  if is_empty col || is_empty (strip col) then py "unknown_column"
  else
    let original_col := strip col in
    let as400_result := _analyze_as400_patterns original_col in
    if negb (str_eqb as400_result (_to_snake_case original_col))
       && _validate_column_name as400_result original_col
    then as400_result
    else
      match generative_stage original_col with
      | Some clean_name => clean_name
      | None =>
          let heuristic_result := _heuristic_transformation original_col in
          if _validate_column_name heuristic_result original_col
          then heuristic_result
          else _to_snake_case original_col
      end.

End AIService.

(** ** [functools.lru_cache(maxsize=1024)] around [modernize_column_name] *)

Definition maxsize : nat := 1024.

(** The cache: its entries from the most to the least recently used, and the
    counters that [cache_info()] reports. *)
Record lru_state : Type :=
  { entries : list (pystr * pystr); hits : nat; misses : nat }.

Definition empty_cache : lru_state := {| entries := []; hits := 0; misses := 0 |}.

Fixpoint cache_find (k : pystr) (l : list (pystr * pystr)) : option pystr :=
  match l with
  | [] => None
  | (k', v) :: l' => if str_eqb k' k then Some v else cache_find k l'
  end.

Fixpoint cache_remove (k : pystr) (l : list (pystr * pystr)) : list (pystr * pystr) :=
  match l with
  | [] => []
  | (k', v) :: l' => if str_eqb k' k then cache_remove k l' else (k', v) :: cache_remove k l'
  end.

(** One call of the wrapped function [f] through the cache.  A hit moves the
    entry to the front and leaves [f] alone; a miss runs [f], stores the
    result in front and, when the cache is full, drops the least recently
    used entry. *)
Definition lru_call (f : pystr -> pystr) (k : pystr) (c : lru_state)
  : pystr * lru_state :=
  match cache_find k (entries c) with
  | Some v =>
      (v, {| entries := (k, v) :: cache_remove k (entries c);
             hits := S (hits c); misses := misses c |})
  | None =>
      let v := f k in
      (v, {| entries := firstn maxsize ((k, v) :: entries c);
             hits := hits c; misses := S (misses c) |})
  end.

(** [ai_service.modernize_column_name(col)] as callers see it. *)
Definition modernize_column_name_cached
           (modernizer : option (pystr -> result pystr))
           (col : pystr) (c : lru_state) : pystr * lru_state :=
  lru_call (modernize_column_name modernizer) col c.

(** The cache after a sequence of resolutions. *)
Definition resolve_all (modernizer : option (pystr -> result pystr))
           (cols : list pystr) (c : lru_state) : lru_state :=
  fold_left (fun c col => snd (modernize_column_name_cached modernizer col c)) cols c.

(** ** Tables *)

(** A cell is [None] for a missing value (NaN). *)
Definition cell := option pystr.

Record dataframe : Type := { columns : list pystr; rows : list (list cell) }.

Definition ncols (df : dataframe) : nat := length (columns df).
Definition nrows (df : dataframe) : nat := length (rows df).

(** [df.empty]: some axis has length 0. *)
Definition df_empty (df : dataframe) : bool := (ncols df =? 0) || (nrows df =? 0).

(** [df.shape[1] > 1 and len(df) > 0]. *)
Definition usable (df : dataframe) : bool := (1 <? ncols df) && (0 <? nrows df).

(** [df.dropna(how='all')]. *)
Definition dropna_all (df : dataframe) : dataframe :=
  {| columns := columns df;
     rows := filter (existsb (fun c : cell => match c with Some _ => true | None => false end))
                    (rows df) |}.

(** [df.iloc[:, i].dropna().astype(str).tolist()]. *)
Definition column_data (df : dataframe) (i : nat) : list (option pystr) :=
  flat_map (fun row : list cell =>
              match nth i row None with
              | Some v => [Some v]
              | None => []
              end) (rows df).

(** ** [FileProcessingService._modernize_column_names] *)

Section ModernizeColumns.

Variable modernizer : option (pystr -> result pystr).
Variable re_match : pattern -> pystr -> bool.
Variable repr_list : list pystr -> pystr.

Definition is_placeholder (original_col : pystr) : bool :=
  is_empty original_col
  || existsb (fun p => startswith (py p) (lower original_col))
             ["unnamed"; "col_"; "empty"]%string.

(** "Final validation": a name that is empty or shorter than two
    characters gives way to [column_i]. *)
Definition final_validation (i : nat) (new_name : pystr) : pystr :=
  if is_empty new_name || (length new_name <? 2) then fmt "column_" i else new_name.

(** The body of the loop for column [i]. *)
Definition resolve_column (df : dataframe) (i : nat) (col_name : pystr)
           (c : lru_state) : result pystr * lru_state :=
  let original_col := strip col_name in
  let (r, c') :=
    if is_placeholder original_col
    then (predict_column_name_from_data modernizer re_match repr_list
            (column_data df i) i, c)
    else let (n, c') := modernize_column_name_cached modernizer original_col c in
         (Ok n, c') in
  (new_name <- r ;; Ok (final_validation i new_name), c').

Fixpoint resolve_columns (df : dataframe) (i : nat) (cols : list pystr)
         (c : lru_state) : result (list pystr) * lru_state :=
  match cols with
  | [] => (Ok [], c)
  | col_name :: cols' =>
      match resolve_column df i col_name c with
      | (Ok new_name, c') =>
          match resolve_columns df (S i) cols' c' with
          | (Ok names, c'') => (Ok (new_name :: names), c'')
          | (Raise e, c'') => (Raise e, c'')
          end
      | (Raise e, c') => (Raise e, c')
      end
  end.

Definition _modernize_column_names (df : dataframe) (c : lru_state)
  : result dataframe * lru_state :=
  match resolve_columns df 0 (columns df) c with
  | (Ok modernized_columns, c') =>
      (Ok {| columns := modernized_columns; rows := rows df |}, c')
  | (Raise e, c') => (Raise e, c')
  end.

End ModernizeColumns.

(** ** [FileProcessingService.safe_decode] *)

Definition bytes := list Byte.byte.

Section Decoder.

(** [chardet.detect(raw)["encoding"]]: a label, [None], or an exception. *)
Variable chardet_detect : bytes -> result (option pystr).

(** [raw.decode(enc, errors="ignore")]: raises for an encoding that the
    codec registry does not know. *)
Variable decode_ignore : pystr -> bytes -> result pystr.

Definition safe_decode (raw_bytes : bytes) : result pystr :=
  try_except
    (detect <- chardet_detect raw_bytes ;;
     let enc := match detect with
                | Some e => if is_empty e then py "utf-8" else e
                | None => py "utf-8"
                end in
     decode_ignore enc raw_bytes)
    (fun _ => decode_ignore (py "utf-8") raw_bytes).

End Decoder.

(** ** Fixed-width reports *)

Definition is_sep_char (c : ascii) : bool :=
  Ascii.eqb c "-"%char || Ascii.eqb c "="%char || is_space c.

(** [re.match(r'^[-=\s]+$', s)] and [re.match(r'^[-=\s]*$', s)]. *)
Definition separator_plus (s : pystr) : bool := negb (is_empty s) && forallb is_sep_char s.
Definition separator_star (s : pystr) : bool := forallb is_sep_char s.

(** [re.search(r'^[A-Z][A-Z0-9\s]*$', s)]. *)
Definition upper_header (s : pystr) : bool :=
  match s with
  | [] => false
  | c :: t => is_upper c && forallb (fun x => is_upper x || is_digit x || is_space x) t
  end.

Definition blank (s : pystr) : bool := is_empty (strip s).

(** The condition under which the header scan takes a line. *)
Definition header_candidate (line : pystr) : bool :=
  negb (blank line || separator_plus (strip line))
  && existsb is_alpha line
  && negb (existsb (fun p => startswith (py p) (strip line)) ["Page"; "Date"; "Time"]%string).

(** A column span: [(start_pos, end_pos, column_name)]. *)
Definition span : Type := nat * nat * pystr.

(** The loop over the characters of the header line, from position [pos]
    with the loop variables [start_pos] and [current_word]. *)
Fixpoint header_words (s : pystr) (pos start_pos : nat) (current_word : pystr)
  : list span :=
  match s with
  | [] =>
      if is_empty current_word then []
      else [(start_pos, pos, strip current_word)]
  | char :: t =>
      if is_space char then
        if is_empty current_word
        then header_words t (S pos) (S pos) []
        else (start_pos, pos, strip current_word) :: header_words t (S pos) (S pos) []
      else header_words t (S pos) start_pos (current_word ++ [char])
  end.

Definition detect_fixed_width_structure (lines : list pystr) : option (list span) :=
  if length lines <? 3 then None
  else
    match find header_candidate (firstn 5 lines) with
    | None => None
    | Some header_line =>
        let words := header_words header_line 0 0 [] in
        if 1 <? length words then Some words else None
    end.

(** [s.split(sep)] for a one-character separator. *)
Fixpoint split_on (sep : ascii) (s cur : pystr) : list pystr :=
  match s with
  | [] => [cur]
  | c :: t => if Ascii.eqb c sep then cur :: split_on sep t [] else split_on sep t (cur ++ [c])
  end.

(** The first [for] loop of [parse_fixed_width_data]: where the data start. *)
Fixpoint find_data_start (i : nat) (lines : list pystr) : nat :=
  match lines with
  | [] => 0
  | line :: rest =>
      if separator_plus (strip line) then S i
      else if (0 <? i) && negb (upper_header (strip line)) then i
      else find_data_start (S i) rest
  end.

(** One cell: [line[start:min(end, len(line))].strip()], or [""] when the
    span starts beyond the line. *)
Definition extract_cell (line : pystr) (sp : span) : pystr :=
  let '(start, end_, _) := sp in
  if start <? length line
  then strip (slice start (Nat.min end_ (length line)) line)
  else [].

Definition extract_row (structure : list span) (line : pystr) : list pystr :=
  map (extract_cell line) structure.

(** The second loop: separator lines are passed over, a row with no
    non-empty cell is not kept. *)
Definition extract_rows (structure : list span) (lines : list pystr) : list (list pystr) :=
  flat_map (fun line =>
              if blank line || separator_star (strip line) then []
              else let row := extract_row structure line in
                   if existsb (fun cell => negb (is_empty cell)) row then [row] else [])
           lines.

Definition span_name (sp : span) : pystr := snd sp.

Definition frame_of (cols : list pystr) (data_rows : list (list pystr)) : dataframe :=
  {| columns := cols; rows := map (map (@Some pystr)) data_rows |}.

Section Parsers.

(** [pd.read_fwf(io.StringIO(text))]. *)
Variable read_fwf : pystr -> result dataframe.
(** [csv.Sniffer().sniff(sample, delimiters=",;\t|").delimiter]. *)
Variable sniff : pystr -> result pystr.
(** [pd.read_csv(io.StringIO(text), sep=delim, engine="python")]. *)
Variable read_csv : pystr -> pystr -> result dataframe.

(** The structural branch of [parse_fixed_width_data]: the table when the
    column structure is detected and some data row is kept. *)
Definition structural_parse (lines : list pystr) : option dataframe :=
  match detect_fixed_width_structure lines with
  | Some ((_ :: _) as column_structure) =>
      let data_start := find_data_start 0 lines in
      let data_rows :=
        extract_rows column_structure (skipn (Nat.max data_start 1) lines) in
      match data_rows with
      | [] => None
      | _ => Some (frame_of (map span_name column_structure) data_rows)
      end
  | _ => None
  end.

Definition content_lines (content_str : pystr) : list pystr :=
  filter (fun line => negb (blank line)) (split_on LF (strip content_str) []).

Definition parse_fixed_width_data (content_str : pystr) : result dataframe :=
  let lines := content_lines content_str in
  if length lines <? 2
  then Raise (ValueError "Insufficient data for fixed-width parsing")
  else
    match structural_parse lines with
    | Some df => Ok df
    | None =>
        match read_fwf content_str with
        | Ok df =>
            if usable df then Ok df
            else Raise (ValueError "Could not parse as fixed-width format")
        | Raise _ => Raise (ValueError "Could not parse as fixed-width format")
        end
    end.

End Parsers.

(** ** Delimited text *)

Definition is_linebreak (c : ascii) : bool := in_range 10 13 c || in_range 28 30 c.

(** [s.splitlines()]: CR LF counts as one line break. *)
Fixpoint splitlines_from (after_cr : bool) (cur s : pystr) : list pystr :=
  match s with
  | [] => if is_empty cur then [] else [cur]
  | c :: t =>
      if after_cr && Ascii.eqb c LF then splitlines_from false [] t
      else if is_linebreak c then cur :: splitlines_from (code c =? 13) [] t
      else splitlines_from false (cur ++ [c]) t
  end.

Definition splitlines (s : pystr) : list pystr := splitlines_from false [] s.

(** [s.split()]: the maximal runs of characters that are not white space. *)
Fixpoint split_ws (s cur : pystr) : list pystr :=
  match s with
  | [] => if is_empty cur then [] else [cur]
  | c :: t =>
      if is_space c
      then if is_empty cur then split_ws t [] else cur :: split_ws t []
      else split_ws t (cur ++ [c])
  end.

(** [re.search(r'^[A-Z][A-Z0-9\s]{10,}', line)]. *)
Definition header_pattern (line : pystr) : bool :=
  match line with
  | [] => false
  | c :: t =>
      is_upper c && (10 <=? length t)
      && forallb (fun x => is_upper x || is_digit x || is_space x) (firstn 10 t)
  end.

(** The three signals that send a text to the fixed-width parser. *)
Definition fixed_width_signals (lines : list pystr) : bool :=
  let has_uniform_width :=
    length (nodup Nat.eq_dec (map (@length ascii) (firstn 10 lines))) <=? 2 in
  let has_header_pattern := existsb header_pattern (firstn 3 lines) in
  let has_separator_line :=
    existsb (fun line => separator_plus (strip line)) (firstn 5 lines) in
  has_uniform_width || has_header_pattern || has_separator_line.

Definition delimiters_to_try : list pystr :=
  [py ","; [TAB]; py "|"; py ";"; py " "].

Definition numeric_token (token : pystr) : bool :=
  isdigit (remove_chars (Ascii.eqb "-"%char) (remove_chars (Ascii.eqb "."%char) token)).

Section DelimitedText.

Variable read_fwf : pystr -> result dataframe.
Variable sniff : pystr -> result pystr.
Variable read_csv : pystr -> pystr -> result dataframe.

(** One [try: df = pd.read_csv(...); if usable: return df  except: ...]. *)
Definition try_delimiter (content_str delim : pystr) : option dataframe :=
  match read_csv content_str delim with
  | Ok df => if usable df then Some df else None
  | Raise _ => None
  end.

(** The loop over [delimiters_to_try]. *)
Fixpoint try_delimiters (content_str : pystr) (delims : list pystr) : option dataframe :=
  match delims with
  | [] => None
  | delim :: rest =>
      match try_delimiter content_str delim with
      | Some df => Some df
      | None => try_delimiters content_str rest
      end
  end.

(** The last resort: the first line gives the headers, the others are
    split on white space, padded and cut to the header count. *)
Definition manual_parse (lines : list pystr) : result dataframe :=
  match lines with
  | [] => Raise (ValueError "No data found in file")
  | header_line :: data_lines =>
      let header_tokens := split_ws header_line [] in
      let is_header := existsb (fun token => negb (numeric_token token)) header_tokens in
      match is_header, data_lines with
      | true, _ :: _ =>
          let n := length header_tokens in
          let data_rows :=
            map (fun line =>
                   let tokens := split_ws line [] in
                   firstn n (tokens ++ repeat [] (n - length tokens))) data_lines in
          Ok (frame_of header_tokens data_rows)
      | _, _ => Raise (ValueError "Unable to parse text file into tabular structure")
      end
  end.

(** What is left of [detect_delimiter_and_read_text] once the fixed-width
    attempt is over: sniffed delimiter, candidate list, manual parsing. *)
Definition read_delimited (content_str : pystr) (lines : list pystr) : result dataframe :=
  let sample := firstn (8 * 1024) content_str in
  let delimiter := match sniff sample with
                   | Ok d => if is_empty d then None else Some d
                   | Raise _ => None
                   end in
  let sniffed := match delimiter with
                 | Some d => try_delimiter content_str d
                 | None => None
                 end in
  match sniffed with
  | Some df => Ok df
  | None =>
      match try_delimiters content_str delimiters_to_try with
      | Some df => Ok df
      | None => manual_parse lines
      end
  end.

Definition detect_delimiter_and_read_text (content_str : pystr) : result dataframe :=
  let lines := filter (fun line => negb (blank line)) (splitlines content_str) in
  let fixed :=
    if (3 <=? length lines) && fixed_width_signals lines
    then match parse_fixed_width_data read_fwf content_str with
         | Ok df => Some df
         | Raise _ => None
         end
    else None in
  match fixed with
  | Some df => Ok df
  | None => read_delimited content_str lines
  end.

End DelimitedText.

(** ** [FileProcessingService.process_file] *)

Definition exn_text (e : exn) : string :=
  match e with
  | ReError m | ValueError m | LookupError m | RuntimeError m => m
  | HTTPException _ d => d
  end.

Definition http (status : nat) (prefix : string) (e : exn) : exn :=
  HTTPException status (prefix ++ exn_text e).

(** [filename.split(".")[-1] if "." in filename else ""]. *)
Definition extension (filename : pystr) : pystr :=
  if existsb (Ascii.eqb "."%char) filename
  then last (split_on "."%char filename []) []
  else [].

(** [[str(c) if str(c).strip() != "" else f"col_{i}" for i, c in enumerate(df.columns)]]. *)
Fixpoint placeholder_columns (i : nat) (cols : list pystr) : list pystr :=
  match cols with
  | [] => []
  | c :: cols' => (if blank c then fmt "col_" i else c) :: placeholder_columns (S i) cols'
  end.

(** What [process_file] hands back: the table and [file_info]. *)
Record file_info : Type :=
  { original_columns : list pystr;
    modernized_columns : list pystr;
    rows_processed : nat;
    columns_processed : nat }.

Section ProcessFile.

Variable chardet_detect : bytes -> result (option pystr).
Variable decode_ignore : pystr -> bytes -> result pystr.
(** [pd.read_excel(io.BytesIO(raw), engine='openpyxl')]. *)
Variable read_excel : bytes -> result dataframe.
Variable read_fwf : pystr -> result dataframe.
Variable sniff : pystr -> result pystr.
Variable read_csv : pystr -> pystr -> result dataframe.
Variable modernizer : option (pystr -> result pystr).
Variable re_match : pattern -> pystr -> bool.
Variable repr_list : list pystr -> pystr.

(** The parsing step, chosen by the file extension. *)
Definition parse_by_extension (raw : bytes) (text ext : pystr) : result dataframe :=
  if str_eqb ext (py "xls") || str_eqb ext (py "xlsx") then
    try_except (read_excel raw)
               (fun e => Raise (http 400 "Could not read Excel file: " e))
  else if str_eqb ext (py "csv") then
    try_except (read_csv text (py ","))
               (fun _ => detect_delimiter_and_read_text read_fwf sniff read_csv text)
  else
    try_except (detect_delimiter_and_read_text read_fwf sniff read_csv text)
               (fun e => Raise (http 400 "Could not parse file: " e)).

(** "Data validation and cleanup" and what follows it, for a parsed table. *)
Definition assemble (df : dataframe) (c : lru_state)
  : result (dataframe * file_info) * lru_state :=
  if df_empty df then (Raise (HTTPException 400 "No data found in file"), c)
  else
    let originals := columns df in
    let df := {| columns := placeholder_columns 0 (columns df); rows := rows df |} in
    let df := dropna_all df in
    if df_empty df then (Raise (HTTPException 400 "No valid data rows found"), c)
    else
      match _modernize_column_names modernizer re_match repr_list df c with
      | (Ok df', c') =>
          (Ok (df', {| original_columns := originals;
                       modernized_columns := columns df';
                       rows_processed := nrows df';
                       columns_processed := ncols df' |}), c')
      | (Raise e, c') => (Raise e, c')
      end.

(** The body of the outer [try]. *)
Definition process_file_body (raw : bytes) (filename : pystr) (c : lru_state)
  : result (dataframe * file_info) * lru_state :=
  match safe_decode chardet_detect decode_ignore raw with
  | Raise e => (Raise e, c)
  | Ok text =>
      match parse_by_extension raw text (extension (lower filename)) with
      | Raise e => (Raise e, c)
      | Ok df => assemble df c
      end
  end.

(** [except HTTPException: raise] and
    [except Exception as e: raise HTTPException(status_code=500, ...)]. *)
Definition process_file (raw : bytes) (filename : pystr) (c : lru_state)
  : result (dataframe * file_info) * lru_state :=
  match process_file_body raw filename c with
  | (Raise (HTTPException s d), c') => (Raise (HTTPException s d), c')
  | (Raise e, c') => (Raise (http 500 "File processing error: " e), c')
  | ok => ok
  end.

End ProcessFile.

(** ** Predicates of the specification *)

(** [n] is in the language [[a-z0-9][a-z0-9_]*]. *)
Definition is_slug (n : pystr) : bool :=
  match n with
  | [] => false
  | c :: t => (is_lower c || is_digit c) && forallb snake_tail t
  end.

(** Every name of the list is 7-bit text. *)
Definition all_ascii7 (l : list pystr) : bool := forallb ascii7 l.

(** The capability returns 7-bit text. *)
Definition ascii7_modernizer (modernizer : option (pystr -> result pystr)) : Prop :=
  forall generate prompt text,
    modernizer = Some generate -> generate prompt = Ok text -> ascii7 text = true.

(** What the renaming step gives column [i], named [o], when it succeeds:
    a label of the content-inference stage for a placeholder name, the
    resolution of the name (after "final validation") otherwise. *)
Definition resolved_as (modernizer : option (pystr -> result pystr))
           (i : nat) (o n : pystr) : Prop :=
  (is_placeholder (strip o) = true
   /\ (n = fmt "column_" i \/ n = fmt "data_column_" i))
  \/ (is_placeholder (strip o) = false
      /\ n = final_validation i (modernize_column_name modernizer (strip o))).

(** The name that one pass of the loop of [_modernize_column_names] computes
    for a column, read off the loop body with the resolver called directly:
    it takes the column's own name [o], its position [i] and its own values,
    and nothing of the other columns. *)
Definition column_name (modernizer : option (pystr -> result pystr))
           (re_match : pattern -> pystr -> bool) (repr_list : list pystr -> pystr)
           (o : pystr) (i : nat) (values : list (option pystr)) : result pystr :=
  let original_col := strip o in
  new_name <- (if is_placeholder original_col
               then predict_column_name_from_data modernizer re_match repr_list values i
               else Ok (modernize_column_name modernizer original_col)) ;;
  Ok (final_validation i new_name).

(** A cache that holds nothing but results of [f]. *)
Definition cache_of (f : pystr -> pystr) (c : lru_state) : Prop :=
  forall k v, cache_find k (entries c) = Some v -> v = f k.



Definition not_space (c : ascii) : bool := negb (is_space c).

(** A span of a header line [h]: it lies inside the line and its name is the
    text of the line between its two positions, which has no white space. *)
Definition span_of (h : pystr) (sp : span) : Prop :=
  let '(start, end_, name) := sp in
  start < end_ <= length h
  /\ name = slice start end_ h
  /\ forallb not_space name = true.

(** The characters of a text whose only separator besides the line feed is
    the pipe. *)
Definition pipe_blob_char (c : ascii) : bool :=
  is_alpha c || is_digit c || Ascii.eqb c "|"%char || Ascii.eqb c LF.
Definition pipe_blob (content : pystr) : bool := forallb pipe_blob_char content.

(** ** Sample inputs and stand-ins for the external libraries *)

(** A regex engine that matches nothing and a [repr] that prints nothing:
    the runs below never reach them. *)
Definition no_match : pattern -> pystr -> bool := fun _ _ => false.
Definition no_repr : list pystr -> pystr := fun _ => [].

Definition stub_fail {A B : Type} (_ : A) : result B := Raise (RuntimeError "unavailable").

(** A stand-in for chardet: no label for the empty input, [ascii] otherwise. *)
Definition stub_detect (raw : bytes) : result (option pystr) :=
  match raw with
  | [] => Ok None
  | _ => Ok (Some (py "ascii"))
  end.

(** A stand-in for the codec registry: it knows two labels, keeps the 7-bit
    bytes and drops the others. *)
Definition stub_decode (enc : pystr) (raw : bytes) : result pystr :=
  if str_eqb enc (py "utf-8") || str_eqb enc (py "ascii")
  then Ok (map ascii_of_byte (filter (fun b => Byte.to_nat b <? 128) raw))
  else Raise (LookupError "unknown encoding").

(** A stand-in for the delimited reader: the first line gives the columns,
    every line is split at each occurrence of the one-character delimiter. *)
Definition stub_read_csv (text delim : pystr) : result dataframe :=
  match delim, split_on LF text [] with
  | [d], header :: data =>
      Ok (frame_of (split_on d header []) (map (fun line => split_on d line []) data))
  | _, _ => Raise (ValueError "stub_read_csv")
  end.

(** A reader that finds one column of missing values. *)
Definition null_table : dataframe := {| columns := [py "A"]; rows := [[None]; [None]] |}.
Definition stub_read_null (text delim : pystr) : result dataframe := Ok null_table.

Definition long_name : pystr := py "TOTAL_OUTSTANDING_BALANCE_FOR_CUSTOMER_ACCOUNT".

Definition digits_table : dataframe :=
  {| columns := [py "123"; long_name];
     rows := [[Some (py "7"); Some (py "12.50")]] |}.

Definition customers_table : dataframe :=
  {| columns := [py "CUSTNO"; py "CUSTNUM"];
     rows := [[Some (py "1001"); Some (py "1001")]] |}.

(** A table with an unnamed column that holds one blank value. *)
Definition blank_column_table : dataframe :=
  {| columns := [py "Unnamed: 0"]; rows := [[Some (py " ")]] |}.

(** A table with an unnamed column that holds one value. *)
Definition zip_column_table : dataframe :=
  {| columns := [py "Unnamed: 0"]; rows := [[Some (py "12345")]] |}.


(** A fixed-width report: a header line and two lines of data under it. *)
Definition demo_report : pystr :=
  py "NAME   AGE  CITY" ++ [LF] ++ py "Bob    25   Pune" ++ [LF] ++ py "Amy    31   Rome".

Definition pipe_text : pystr := py "id|qty" ++ [LF] ++ py "7|12" ++ [LF] ++ py "8|30".

(** ** Further predicates *)

(** No two underscores stand next to each other in [s]; [prev_us] tells
    whether an underscore stands just before [s]. *)
Fixpoint single_us (prev_us : bool) (s : pystr) : bool :=
  match s with
  | [] => true
  | c :: t => if is_us c then negb prev_us && single_us true t else single_us false t
  end.

(** The shape of a slug: characters of [a-z0-9_] only, a letter or a digit
    at both ends, underscores one at a time. *)
Definition slug_shape (s : pystr) : bool :=
  is_slug s && negb (endswith (py "_") s) && negb (contains (py "__") s).

(** The step of [_heuristic_transformation] on a name that is one word. *)
Definition whole_abbreviation (s : pystr) : pystr :=
  match find (fun kv => str_eqb s (fst kv)) abbreviations with
  | Some kv => snd kv
  | None => s
  end.

(** [as400_mappings[k]] for a key [k] of the dictionary. *)
Definition dictionary_value (k : pystr) : pystr := dict_get as400_mappings k [].

(** The test of the dictionary stage in [modernize_column_name]. *)
Definition dictionary_decides (original_col : pystr) : bool :=
  negb (str_eqb (_analyze_as400_patterns original_col) (_to_snake_case original_col))
  && _validate_column_name (_analyze_as400_patterns original_col) original_col.

(** The keys of the dictionary whose value passes the validator. *)
Definition effective_keys : list pystr :=
  map py ["CUS_ID"; "CUSTID"; "CUSTNO"; "CUSTNUM"; "CUST#"; "EMPNO"; "EMPNUM"; "EMP#";
          "ZIP"; "ZIPCODE"; "CREDITLMT"; "ITEMNO"; "PRODCD"; "DESC"; "DESCR";
          "PHONE"]%string.

(** Replacing a name that is an abbreviation by its full word. *)
Definition abbr_step (s : pystr) (kv : pystr * pystr) : pystr :=
  if str_eqb s (fst kv) then snd kv else s.

(** No full word of the table is an abbreviation further down the table
    (unless with the same full word). *)
Fixpoint chain_free (l : list (pystr * pystr)) : bool :=
  match l with
  | [] => true
  | kv :: r =>
      forallb (fun kv' => negb (str_eqb (snd kv) (fst kv')) || str_eqb (snd kv') (snd kv)) r
      && chain_free r
  end.

(** What holds of the cache after [n] calls with arguments among [seen]. *)
Definition cache_invariant (f : pystr -> pystr) (seen : list pystr) (n : nat)
           (c : lru_state) : Prop :=
  hits c + misses c = n
  /\ length (entries c) <= misses c
  /\ length (entries c) <= maxsize
  /\ NoDup (map fst (entries c))
  /\ forall k v, In (k, v) (entries c) -> In k seen /\ v = f k.


(** The spans lie left to right from column [lo] on, none is empty, and at
    least one column separates two of them. *)
Fixpoint spans_ordered (lo : nat) (l : list span) : bool :=
  match l with
  | [] => true
  | (start, end_, _) :: rest =>
      (lo <=? start) && (start <? end_) && spans_ordered (S end_) rest
  end.

(** Every row has one cell per column. *)
Definition rectangular (df : dataframe) : Prop :=
  Forall (fun row : list cell => length row = ncols df) (rows df).

(** A cell that holds a text without white space around it. *)
Definition clean_cell (c : cell) : Prop := exists v, c = Some v /\ strip v = v.

(** The two errors of the text parser. *)
Definition text_error (e : exn) : Prop :=
  e = ValueError "No data found in file"
  \/ e = ValueError "Unable to parse text file into tabular structure".

(** The errors of [process_file] for an upload whose bytes were decoded:
    which error, with which status, for which extension. *)
Inductive upload_error (read_excel : bytes -> result dataframe) (raw : bytes) (ext : pystr)
  : exn -> Prop :=
| excel_unreadable : forall e,
    str_eqb ext (py "xls") || str_eqb ext (py "xlsx") = true ->
    read_excel raw = Raise e ->
    upload_error read_excel raw ext (http 400 "Could not read Excel file: " e)
| text_unparsed : forall e,
    str_eqb ext (py "xls") || str_eqb ext (py "xlsx") = false ->
    str_eqb ext (py "csv") = false ->
    text_error e ->
    upload_error read_excel raw ext (http 400 "Could not parse file: " e)
| csv_unparsed : forall e,
    str_eqb ext (py "csv") = true ->
    text_error e ->
    upload_error read_excel raw ext (http 500 "File processing error: " e)
| no_data :
    str_eqb ext (py "xls") || str_eqb ext (py "xlsx") || str_eqb ext (py "csv") = true ->
    upload_error read_excel raw ext (HTTPException 400 "No data found in file")
| no_valid_rows :
    upload_error read_excel raw ext (HTTPException 400 "No valid data rows found")
| naming_failed :
    upload_error read_excel raw ext
      (http 500 "File processing error: " (ReError "bad character range \s-( at position 7")).

(** A row with a value in some cell. *)
Definition has_value (row : list cell) : bool :=
  existsb (fun c : cell => match c with Some _ => true | None => false end) row.

(** The bytes of a 7-bit text. *)
Definition bytes_of (s : pystr) : bytes := map byte_of_ascii s.

Definition orders_csv : pystr := py "ID,QTY" ++ [LF] ++ py "7,12".

Definition has_dot (s : pystr) : bool := existsb (Ascii.eqb "."%char) s.

(** A line that the scan for the start of the data passes over after the
    first line: no separator line, and upper-case letters, digits and white
    space only, the first character a letter. *)
Definition passed_over (line : pystr) : bool :=
  negb (separator_plus (strip line)) && upper_header (strip line).

Definition upper_report : list pystr :=
  [py "NAME   AGE  CITY"; py "BOB    25   PUNE"; py "Amy    31   Rome"].

(** ** [DataAnalysisService.generate_microservices_architecture] *)

Definition service_patterns : list (pystr * list pystr) :=
  [ (py "Customer Service", map py ["customer"; "cust"; "client"]%string);
    (py "Employee Service", map py ["employee"; "emp"; "staff"; "worker"]%string);
    (py "Product Service", map py ["product"; "item"; "part"; "inventory"]%string);
    (py "Order Service", map py ["order"; "transaction"; "sale"; "purchase"]%string);
    (py "Payment Service", map py ["payment"; "billing"; "invoice"; "amount"]%string);
    (py "Address Service", map py ["address"; "location"; "city"; "state"; "zip"]%string);
    (py "User Service", map py ["user"; "login"; "auth"; "account"]%string) ].

Definition default_service : pystr := py "Data Management Service".

Record architecture : Type :=
  { recommended_services : list pystr;
    total_services : nat;
    architecture_pattern : pystr }.

(** [any(pattern in col for col in columns for pattern in patterns)]. *)
Definition any_pattern (cols patterns : list pystr) : bool :=
  existsb (fun col => existsb (fun pattern => contains pattern col) patterns) cols.

(** [None] stands for the empty dict that an empty table gives. *)
Definition generate_microservices_architecture (df : dataframe) : option architecture :=
  if df_empty df then None
  else
    let cols := map lower (columns df) in
    let services :=
      map fst (filter (fun sp => any_pattern cols (snd sp)) service_patterns) in
    let services := match services with
                    | [] => [default_service]
                    | _ => services
                    end in
    Some {| recommended_services := services;
            total_services := length services;
            architecture_pattern := py "Microservices with API Gateway" |}.

(** The services recommended for a table, none for an empty table. *)
Definition services_of (df : dataframe) : list pystr :=
  match generate_microservices_architecture df with
  | Some a => recommended_services a
  | None => []
  end.

(** ** The column mapping of the [modernize_file] endpoint *)

(** [d[k] = v] on a dict, which keeps its keys in insertion order. *)
Fixpoint dict_set (d : list (pystr * pystr)) (k v : pystr) : list (pystr * pystr) :=
  match d with
  | [] => [(k, v)]
  | (k', v') :: d' =>
      if str_eqb k' k then (k', v) :: d' else (k', v') :: dict_set d' k v
  end.

(** [{k: v for k, v in items}]. *)
Definition dict_of (items : list (pystr * pystr)) : list (pystr * pystr) :=
  fold_left (fun d kv => dict_set d (fst kv) (snd kv)) items [].

(** The mapping that the endpoint builds from the two lists of [file_info]. *)
Definition column_mapping (original_columns modernized_columns : list pystr)
  : list (pystr * pystr) :=
  if length original_columns =? length modernized_columns
  then dict_of (combine original_columns modernized_columns)
  else dict_of (combine (map (fmt "col_") (seq 0 (length modernized_columns)))
                        modernized_columns).

(** ** The rows of a fixed-width report *)

(** The lines that follow the header lines: the scan passes over lines of
    upper-case letters, digits and white space that start with a letter,
    and stops after a separator line or at a line of another kind. *)
Fixpoint skip_header_lines (rest : list pystr) : option (list pystr) :=
  match rest with
  | [] => None
  | l :: rest' =>
      if separator_plus (strip l) then Some rest'
      else if upper_header (strip l) then skip_header_lines rest'
      else Some (l :: rest')
  end.

(** The lines from which the rows are cut: those after a first line that is
    a separator; otherwise those that follow the header lines after the
    first line; and every line but the first when nothing ends the scan. *)
Definition data_lines (lines : list pystr) : list pystr :=
  match lines with
  | [] => []
  | h :: rest =>
      if separator_plus (strip h) then rest
      else match skip_header_lines rest with
           | Some d => d
           | None => rest
           end
  end.








(** * Properties *)

(** ** The functions on sample inputs *)

Example snake_custno : _to_snake_case (py "CUSTNO") = py "custno".
Proof. reflexivity. Qed.

Example snake_camel : _to_snake_case (py " orderDate  (UTC) ") = py "order_date_utc".
Proof. reflexivity. Qed.

Example snake_symbols : _to_snake_case (py "#$%") = py "column".
Proof. reflexivity. Qed.

Example heuristic_dash : _heuristic_transformation (py "CUST-NO") = py "customer_number".
Proof. reflexivity. Qed.

Example heuristic_snake : _heuristic_transformation (py "cust_no") = py "cust_no".
Proof. reflexivity. Qed.

Example clean_quotes :
  _clean_column_name (py "The 'customer id' column") = py "customer_id".
Proof. reflexivity. Qed.

Example custno_no_ai : modernize_column_name None (py "CUSTNO") = py "customer_number".
Proof. reflexivity. Qed.

Example addr1_no_ai : modernize_column_name None (py "ADDR1") = py "addr1".
Proof. reflexivity. Qed.

Example digits_no_ai : modernize_column_name None (py "123") = py "123".
Proof. reflexivity. Qed.

Example demo_header_words :
  header_words (py "NAME   AGE  CITY") 0 0 []
  = [(0, 4, py "NAME"); (7, 10, py "AGE"); (12, 16, py "CITY")].
Proof. reflexivity. Qed.

Example demo_parse :
  forall read_fwf,
    parse_fixed_width_data read_fwf demo_report
    = Ok (frame_of [py "NAME"; py "AGE"; py "CITY"]
            [[py "Bob"; py "25"; py "Pune"]; [py "Amy"; py "31"; py "Rome"]]).
Proof. reflexivity. Qed.

(** ** Characters and strings *)

Ltac ascii_cases c :=
  destruct c as [[] [] [] [] [] [] [] []]; vm_compute; try reflexivity; try congruence.

Lemma str_eqb_eq : forall a b, str_eqb a b = true <-> a = b.
Proof.
  induction a as [|x a IH]; destruct b as [|y b]; simpl; split; try congruence; try reflexivity.
  - rewrite andb_true_iff, Ascii.eqb_eq, IH. intros [-> ->]; reflexivity.
  - intros H; injection H as -> ->. rewrite Ascii.eqb_refl.
    apply (proj2 (IH b)); reflexivity.
Qed.

Lemma str_eqb_refl : forall a, str_eqb a a = true.
Proof. intros a; apply str_eqb_eq; reflexivity. Qed.

Lemma str_eqb_neq : forall a b, str_eqb a b = false <-> a <> b.
Proof.
  intros a b; split; intros H.
  - intros ->. rewrite str_eqb_refl in H; discriminate.
  - destruct (str_eqb a b) eqn:E; [apply str_eqb_eq in E; contradiction | reflexivity].
Qed.

Lemma word_lower_tail : forall c, is_word c = true -> snake_tail (to_lower c) = true.
Proof. intros c; ascii_cases c. Qed.

Lemma snake_tail_us_or_head :
  forall c, snake_tail c = true -> is_us c = false -> (is_lower c || is_digit c) = true.
Proof. intros c; ascii_cases c. Qed.

Section Stripping.

Variable p : ascii -> bool.
Variable q : ascii -> bool.

Lemma dropwhile_decompose :
  forall s, exists pre, s = pre ++ dropwhile p s /\ forallb p pre = true.
Proof.
  induction s as [|c t [pre [E F]]]; simpl.
  - exists []; split; reflexivity.
  - destruct (p c) eqn:Pc.
    + exists (c :: pre); simpl; rewrite Pc, F; split; [f_equal; exact E | reflexivity].
    + exists []; split; reflexivity.
Qed.

Lemma dropwhile_head :
  forall s c t, dropwhile p s = c :: t -> p c = false.
Proof.
  induction s as [|a s IH]; simpl; intros c t H; [discriminate|].
  destruct (p a) eqn:Pa; [eauto | injection H as <- _; exact Pa].
Qed.

Lemma forallb_dropwhile :
  forall s, forallb q s = true -> forallb q (dropwhile p s) = true.
Proof.
  intros s H. destruct (dropwhile_decompose s) as [pre [E _]].
  rewrite E in H. rewrite forallb_app in H. apply andb_true_iff in H; tauto.
Qed.

Lemma rstrip_prefix : forall s, exists suf, s = rstrip p s ++ suf.
Proof.
  intros s. unfold rstrip.
  destruct (dropwhile_decompose (rev s)) as [pre [E _]].
  exists (rev pre).
  rewrite <- rev_app_distr, <- E, rev_involutive. reflexivity.
Qed.

Lemma forallb_rstrip :
  forall s, forallb q s = true -> forallb q (rstrip p s) = true.
Proof.
  intros s H. destruct (rstrip_prefix s) as [suf E].
  rewrite E in H. rewrite forallb_app in H. apply andb_true_iff in H; tauto.
Qed.

Lemma forallb_strip_by :
  forall s, forallb q s = true -> forallb q (strip_by p s) = true.
Proof. intros s H. apply forallb_rstrip, forallb_dropwhile, H. Qed.

Lemma strip_by_head :
  forall s c t, strip_by p s = c :: t -> p c = false.
Proof.
  intros s c t H. unfold strip_by, lstrip in H.
  destruct (rstrip_prefix (dropwhile p s)) as [suf E].
  rewrite H in E. simpl in E. eapply dropwhile_head; exact E.
Qed.

End Stripping.

(** ** The slug of [_to_snake_case] *)

Lemma forallb_camel_split :
  forall q s, q "_"%char = true -> forallb q s = true -> forallb q (camel_split s) = true.
Proof.
  intros q s Hus. induction s as [|a t IH]; [reflexivity|].
  intros H. simpl in H. apply andb_true_iff in H as [Ha Ht].
  specialize (IH Ht).
  change (camel_split (a :: t)) with
    (match t with
     | b :: _ => if is_lower a && is_upper b then a :: "_"%char :: camel_split t
                 else a :: camel_split t
     | [] => [a]
     end).
  destruct t as [|b t']; [simpl; rewrite Ha; reflexivity|].
  destruct (is_lower a && is_upper b); simpl; rewrite Ha, ?Hus; exact IH.
Qed.

Lemma punct_to_us_word_or_space :
  forall s, forallb (fun c => is_word c || is_space c) (punct_to_us s) = true.
Proof.
  induction s as [|c t IH]; [reflexivity|].
  simpl. rewrite IH, andb_true_r.
  destruct (is_word c) eqn:W; simpl; [rewrite W; reflexivity|].
  destruct (is_space c) eqn:S; simpl; [rewrite S; apply orb_true_r | reflexivity].
Qed.

Lemma forallb_runs_to_us :
  forall (p q : ascii -> bool) s b,
    q "_"%char = true ->
    forallb (fun c => q c || p c) s = true ->
    forallb q (runs_to_us p b s) = true.
Proof.
  intros p q s b Hus. revert b.
  induction s as [|c t IH]; intros b H; [reflexivity|].
  simpl in H. apply andb_true_iff in H as [Hc Ht]. simpl.
  destruct (p c) eqn:Pc.
  - destruct b; simpl; rewrite ?Hus; apply IH; exact Ht.
  - rewrite orb_false_r in Hc. simpl. rewrite Hc. apply IH; exact Ht.
Qed.

Lemma forallb_lower_word :
  forall s, forallb is_word s = true -> forallb snake_tail (lower s) = true.
Proof.
  induction s as [|c t IH]; [reflexivity|]. simpl.
  intros H. apply andb_true_iff in H as [Hc Ht].
  rewrite (word_lower_tail c Hc), (IH Ht). reflexivity.
Qed.

Lemma forallb_weaken :
  forall (p q : ascii -> bool) s,
    (forall c, p c = true -> q c = true) -> forallb p s = true -> forallb q s = true.
Proof.
  intros p q s H. induction s as [|c t IH]; [reflexivity|]. simpl.
  intros F. apply andb_true_iff in F as [Hc Ht]. rewrite (H c Hc), (IH Ht). reflexivity.
Qed.

(** The slug consists of [a-z0-9_]. *)
Lemma to_snake_case_chars : forall s, forallb snake_tail (_to_snake_case s) = true.
Proof.
  intros s. unfold _to_snake_case.
  destruct (is_empty s || is_empty (strip s)); [reflexivity|].
  match goal with |- context [strip_us ?x] => set (r := strip_us x) end.
  assert (Hr : forallb snake_tail r = true).
  { subst r. apply forallb_strip_by. apply forallb_lower_word.
    apply forallb_runs_to_us; [reflexivity|].
    apply forallb_weaken with (p := is_word); [intros c ->; reflexivity|].
    apply forallb_runs_to_us; [reflexivity|].
    apply punct_to_us_word_or_space. }
  destruct (is_empty r); [reflexivity | exact Hr].
Qed.

(** The slug is not empty and starts with a letter or a digit. *)
Lemma to_snake_case_slug : forall s, is_slug (_to_snake_case s) = true.
Proof.
  intros s. pose proof (to_snake_case_chars s) as Hc. revert Hc.
  unfold _to_snake_case.
  destruct (is_empty s || is_empty (strip s)); [reflexivity|].
  match goal with |- context [strip_us ?x] => set (r := strip_us x) end.
  destruct r as [|c t] eqn:Er; [reflexivity|].
  simpl. intros H. apply andb_true_iff in H as [Hc Ht]. rewrite Ht, andb_true_r.
  apply snake_tail_us_or_head; [exact Hc|].
  subst r. unfold strip_us in Er. eapply strip_by_head; exact Er.
Qed.

(** ** The validator *)

Lemma validate_true :
  forall name original,
    _validate_column_name name original = true ->
    2 <= length name <= 40
    /\ existsb (fun w => search_ci w name) invalid_patterns = false
    /\ snake_re_match name = true
    /\ str_eqb (lower name) (lower original) = false.
Proof.
  intros name original. unfold _validate_column_name.
  destruct (is_empty name || (length name <? 2) || (40 <? length name)) eqn:G;
    cbv iota; [discriminate|].
  destruct (existsb (fun w => search_ci w name) invalid_patterns) eqn:B;
    cbv iota; [discriminate|].
  destruct (snake_re_match name) eqn:S; cbv iota beta delta [negb]; [|discriminate].
  destruct (str_eqb (lower name) (lower original)) eqn:Q; cbv iota; [discriminate|].
  intros _. apply orb_false_iff in G as [G L40]. apply orb_false_iff in G as [_ L2].
  apply Nat.ltb_ge in L2. apply Nat.ltb_ge in L40. repeat split; auto.
Qed.

(** A validated candidate made of [a-z0-9_] is a snake_case name of 2 to 40
    characters. *)
Lemma validated_is_snake :
  forall name original,
    _validate_column_name name original = true ->
    forallb snake_tail name = true ->
    is_snake name = true /\ 2 <= length name <= 40.
Proof.
  intros name original V C.
  destruct (validate_true _ _ V) as [L [_ [S _]]]. split; [|exact L].
  destruct name as [|c t]; [discriminate|].
  simpl in *. apply andb_true_iff in S as [-> _].
  apply andb_true_iff in C as [_ ->]. reflexivity.
Qed.

Lemma is_snake_is_slug : forall n, is_snake n = true -> is_slug n = true.
Proof.
  destruct n as [|c t]; [discriminate|]. simpl.
  intros H. apply andb_true_iff in H as [-> ->]. reflexivity.
Qed.

(** ** The candidates of each stage *)

Lemma dict_get_cases :
  forall d k default,
    dict_get d k default = default \/ In (dict_get d k default) (map snd d).
Proof.
  induction d as [|[k' v] d IH]; intros k default; simpl; [left; reflexivity|].
  destruct (str_eqb k' k); [right; left; reflexivity|].
  destruct (IH k default) as [H|H]; [left; exact H | right; right; exact H].
Qed.

Lemma as400_values_chars :
  forallb (fun kv => forallb snake_tail (snd kv)) as400_mappings = true.
Proof. vm_compute. reflexivity. Qed.

Lemma analyze_chars : forall col, forallb snake_tail (_analyze_as400_patterns col) = true.
Proof.
  intros col. unfold _analyze_as400_patterns.
  destruct (dict_get_cases as400_mappings (upper col) (_to_snake_case col)) as [-> | H].
  - apply to_snake_case_chars.
  - apply in_map_iff in H as [kv [<- Hin]].
    pose proof as400_values_chars as A. rewrite forallb_forall in A. exact (A kv Hin).
Qed.

Lemma clean_chars : forall name, forallb snake_tail (_clean_column_name name) = true.
Proof.
  intros name. unfold _clean_column_name.
  destruct (is_empty name); [reflexivity|].
  match goal with |- context [strip_us ?x] => set (r := strip_us x) end.
  assert (Hr : forallb snake_tail r = true).
  { subst r. apply forallb_strip_by. apply forallb_runs_to_us; [reflexivity|].
    eapply forallb_weaken; [|apply to_snake_case_chars].
    intros c ->; reflexivity. }
  destruct (is_empty r); [reflexivity | exact Hr].
Qed.

(** Where the result of [modernize_column_name] comes from: a stage whose
    candidate passed the validator, the fallback slug, or the constant for a
    blank name. *)
Lemma modernize_cases :
  forall modernizer col,
    let n := modernize_column_name modernizer col in
    (_validate_column_name n (strip col) = true /\ forallb snake_tail n = true)
    \/ n = _to_snake_case (strip col)
    \/ n = py "unknown_column".
Proof.
  intros modernizer col. unfold modernize_column_name.
  destruct (is_empty col || is_empty (strip col)); [right; right; reflexivity|].
  cbv zeta.
  destruct (negb (str_eqb (_analyze_as400_patterns (strip col)) (_to_snake_case (strip col)))
            && _validate_column_name (_analyze_as400_patterns (strip col)) (strip col)) eqn:D.
  - apply andb_true_iff in D as [_ V]. left. split; [exact V | apply analyze_chars].
  - unfold generative_stage.
    destruct modernizer as [generate|].
    + destruct (generate (rename_prompt (strip col))) as [text|e].
      * destruct (negb (is_empty (_clean_column_name text))
                  && _validate_column_name (_clean_column_name text) (strip col)) eqn:G.
        -- apply andb_true_iff in G as [_ V]. left. split; [exact V | apply clean_chars].
        -- destruct (_validate_column_name (_heuristic_transformation (strip col)) (strip col)) eqn:Hh.
           ++ left. split; [exact Hh | apply to_snake_case_chars].
           ++ right; left; reflexivity.
      * destruct (_validate_column_name (_heuristic_transformation (strip col)) (strip col)) eqn:Hh.
        -- left. split; [exact Hh | apply to_snake_case_chars].
        -- right; left; reflexivity.
    + destruct (_validate_column_name (_heuristic_transformation (strip col)) (strip col)) eqn:Hh.
      * left. split; [exact Hh | apply to_snake_case_chars].
      * right; left; reflexivity.
Qed.

Lemma modernize_is_slug :
  forall modernizer col, is_slug (modernize_column_name modernizer col) = true.
Proof.
  intros modernizer col.
  destruct (modernize_cases modernizer col) as [[V C] | [-> | ->]].
  - apply is_snake_is_slug. eapply validated_is_snake; eassumption.
  - apply to_snake_case_slug.
  - reflexivity.
Qed.

(** ** Formatted labels *)

Lemma uint_digits : forall d, forallb is_digit (py (NilEmpty.string_of_uint d)) = true.
Proof. induction d; simpl; auto. Qed.

Lemma str_of_nat_digits : forall n, forallb is_digit (str_of_nat n) = true.
Proof. intros n. apply uint_digits. Qed.

Lemma digit_snake_tail : forall c, is_digit c = true -> snake_tail c = true.
Proof. intros c H. unfold snake_tail. rewrite H. apply orb_true_r || (rewrite orb_true_r; reflexivity). Qed.

Lemma fmt_snake :
  forall prefix i, is_snake (py prefix) = true -> is_snake (fmt prefix i) = true.
Proof.
  intros prefix i. unfold fmt. destruct (py prefix) as [|c t]; [discriminate|].
  simpl. intros H. apply andb_true_iff in H as [-> Ht]. simpl.
  rewrite forallb_app, Ht. simpl.
  eapply forallb_weaken; [apply digit_snake_tail | apply str_of_nat_digits].
Qed.

Lemma fmt_length : forall prefix i, length (py prefix) <= length (fmt prefix i).
Proof. intros. unfold fmt. rewrite length_app. lia. Qed.

Lemma final_validation_keep :
  forall i n, 2 <= length n -> final_validation i n = n.
Proof.
  intros i n H. unfold final_validation.
  destruct n as [|a [|b t]]; simpl in H; try lia. reflexivity.
Qed.

Lemma final_validation_length : forall i n, 2 <= length (final_validation i n).
Proof.
  intros i n. unfold final_validation.
  destruct (is_empty n || (length n <? 2)) eqn:E.
  - pose proof (fmt_length "column_" i) as L.
    change (length (py "column_")) with 7 in L. lia.
  - apply orb_false_iff in E as [_ E]. apply Nat.ltb_ge in E. exact E.
Qed.

Lemma final_validation_slug :
  forall i n, is_slug n = true -> is_slug (final_validation i n) = true.
Proof.
  intros i n H. unfold final_validation.
  destruct (is_empty n || (length n <? 2)); [|exact H].
  apply is_snake_is_slug, fmt_snake. reflexivity.
Qed.

(** ** The content-inference stage *)

(** The pattern library is rejected by [re.compile] at its second entry, so
    the stage raises before it looks at the sample. *)
Lemma pattern_raises :
  forall re_match sample i,
    _pattern_based_prediction re_match sample i = Raise (ReError "bad character range \s-( at position 7").
Proof. intros. reflexivity. Qed.

(** The only names the stage can return: the labels for a column without
    data and for a column with nothing but blank values. *)
Lemma predict_ok_cases :
  forall modernizer re_match repr_list data i n,
    predict_column_name_from_data modernizer re_match repr_list data i = Ok n ->
    n = fmt "column_" i \/ n = fmt "data_column_" i.
Proof.
  intros modernizer re_match repr_list data i n.
  unfold predict_column_name_from_data.
  destruct data as [|d data]; [intros H; injection H as <-; left; reflexivity|].
  match goal with |- context [flat_map ?f ?l] => destruct (flat_map f l) as [|v sample] end.
  - intros H; injection H as <-; right; reflexivity.
  - rewrite pattern_raises. simpl. discriminate.
Qed.

(** ** The cache keeps results of the wrapped function *)

Lemma cache_find_remove :
  forall k k' l v, cache_find k (cache_remove k' l) = Some v -> cache_find k l = Some v.
Proof.
  induction l as [|[a b] l IH]; simpl; intros v H; [discriminate|].
  destruct (str_eqb a k') eqn:E1.
  - destruct (str_eqb a k) eqn:E2; [|apply IH; exact H].
    apply str_eqb_eq in E1, E2. subst.
    exfalso. clear IH. induction l as [|[a b'] l IH]; simpl in H; [discriminate|].
    destruct (str_eqb a k) eqn:E; [apply IH; exact H|].
    simpl in H. rewrite E in H. apply IH; exact H.
  - simpl in H. destruct (str_eqb a k); [exact H | apply IH; exact H].
Qed.

Lemma cache_find_firstn :
  forall k n l v, cache_find k (firstn n l) = Some v -> cache_find k l = Some v.
Proof.
  induction n as [|n IH]; intros [|[a b] l] v; simpl; try discriminate.
  destruct (str_eqb a k); [auto | apply IH].
Qed.

Lemma lru_call_value :
  forall f k c, cache_of f c -> fst (lru_call f k c) = f k.
Proof.
  intros f k c H. unfold lru_call.
  destruct (cache_find k (entries c)) as [v|] eqn:E; simpl; [apply H; exact E | reflexivity].
Qed.

Lemma lru_call_cache_of :
  forall f k c, cache_of f c -> cache_of f (snd (lru_call f k c)).
Proof.
  intros f k c H k' v'. unfold lru_call.
  destruct (cache_find k (entries c)) as [v|] eqn:E; simpl.
  - destruct (str_eqb k k') eqn:Q.
    + apply str_eqb_eq in Q; subst k'. intros I; injection I as <-. apply H; exact E.
    + intros I. apply H. eapply cache_find_remove; exact I.
  - destruct (str_eqb k k') eqn:Q.
    + apply str_eqb_eq in Q; subst k'. intros I; injection I as <-. reflexivity.
    + intros I. apply H. eapply cache_find_firstn with (n := maxsize - 1).
      replace (maxsize - 1) with 1023 by reflexivity. exact I.
Qed.

Lemma empty_cache_of : forall f, cache_of f empty_cache.
Proof. intros f k v H. discriminate H. Qed.

Lemma resolve_all_cache_of :
  forall modernizer cols c,
    cache_of (modernize_column_name modernizer) c ->
    cache_of (modernize_column_name modernizer) (resolve_all modernizer cols c).
Proof.
  intros modernizer cols. unfold resolve_all.
  induction cols as [|col cols IH]; intros c H; simpl; [exact H|].
  apply IH. apply lru_call_cache_of. exact H.
Qed.

Lemma dropwhile_fix :
  forall p s, dropwhile p (dropwhile p s) = dropwhile p s.
Proof.
  intros p s. destruct (dropwhile p s) as [|c t] eqn:E; [reflexivity|].
  simpl. rewrite (dropwhile_head p s E). reflexivity.
Qed.

Lemma strip_by_idem : forall p s, strip_by p (strip_by p s) = strip_by p s.
Proof.
  intros p s. unfold strip_by, lstrip.
  set (l := dropwhile p s).
  assert (Hl : dropwhile p (rstrip p l) = rstrip p l).
  { destruct (rstrip p l) as [|c t] eqn:E; [reflexivity|].
    destruct (rstrip_prefix p l) as [suf Es]. rewrite E in Es. simpl in Es.
    simpl. subst l. rewrite (dropwhile_head p s Es). reflexivity. }
  rewrite Hl. unfold rstrip. rewrite rev_involutive, dropwhile_fix. reflexivity.
Qed.

Lemma strip_idem : forall s, strip (strip s) = strip s.
Proof. intros s. apply strip_by_idem. Qed.

(** ** The renaming step, column by column *)

Section Renaming.

Variable modernizer : option (pystr -> result pystr).
Variable re_match : pattern -> pystr -> bool.
Variable repr_list : list pystr -> pystr.

Lemma resolve_column_ok :
  forall df i o c n c',
    cache_of (modernize_column_name modernizer) c ->
    resolve_column modernizer re_match repr_list df i o c = (Ok n, c') ->
    cache_of (modernize_column_name modernizer) c' /\ resolved_as modernizer i o n.
Proof.
  intros df i o c n c' Hc. unfold resolve_column, resolved_as.
  destruct (is_placeholder (strip o)) eqn:P.
  - destruct (predict_column_name_from_data modernizer re_match repr_list
                (column_data df i) i) as [m|e] eqn:Q; simpl; [|discriminate].
    intros H; injection H as <- <-. split; [exact Hc|]. left. split; [reflexivity|].
    destruct (predict_ok_cases _ _ _ _ _ Q) as [-> | ->].
    + left. apply final_validation_keep.
      pose proof (fmt_length "column_" i) as L.
      change (length (py "column_")) with 7 in L. lia.
    + right. apply final_validation_keep.
      pose proof (fmt_length "data_column_" i) as L.
      change (length (py "data_column_")) with 12 in L. lia.
  - unfold modernize_column_name_cached.
    pose proof (lru_call_value (strip o) Hc) as V.
    pose proof (lru_call_cache_of (strip o) Hc) as C.
    destruct (lru_call (modernize_column_name modernizer) (strip o) c) as [v c1] eqn:L.
    simpl in *. intros H; injection H as <- <-.
    split; [exact C|]. right. split; [reflexivity|]. rewrite V. reflexivity.
Qed.

Lemma resolve_columns_ok :
  forall df cols i c names c',
    cache_of (modernize_column_name modernizer) c ->
    resolve_columns modernizer re_match repr_list df i cols c = (Ok names, c') ->
    cache_of (modernize_column_name modernizer) c'
    /\ length names = length cols
    /\ forall j o n, nth_error cols j = Some o -> nth_error names j = Some n ->
                     resolved_as modernizer (i + j) o n.
Proof.
  intros df cols. induction cols as [|o cols IH]; intros i c names c' Hc; simpl.
  - intros H; injection H as <- <-. split; [exact Hc|]. split; [reflexivity|].
    intros [|j] o n; discriminate.
  - destruct (resolve_column modernizer re_match repr_list df i o c) as [[n1|e] c1] eqn:R;
      [|discriminate].
    destruct (resolve_column_ok _ _ _ Hc R) as [Hc1 R1].
    destruct (resolve_columns modernizer re_match repr_list df (S i) cols c1)
      as [[ns|e] c2] eqn:Rs; [|discriminate].
    intros H; injection H as <- <-.
    destruct (IH _ _ _ _ Hc1 Rs) as [Hc2 [Len Nth]].
    split; [exact Hc2|]. split; [simpl; congruence|].
    intros [|j] o' n'; simpl.
    + intros E1 E2; injection E1 as <-; injection E2 as <-.
      rewrite Nat.add_0_r. exact R1.
    + intros E1 E2. replace (i + S j) with (S i + j) by lia. eapply Nth; eassumption.
Qed.

Lemma modernize_column_names_ok :
  forall df c df' c',
    cache_of (modernize_column_name modernizer) c ->
    _modernize_column_names modernizer re_match repr_list df c = (Ok df', c') ->
    cache_of (modernize_column_name modernizer) c'
    /\ rows df' = rows df
    /\ length (columns df') = length (columns df)
    /\ forall i o n, nth_error (columns df) i = Some o ->
                     nth_error (columns df') i = Some n ->
                     resolved_as modernizer i o n.
Proof.
  intros df c df' c' Hc. unfold _modernize_column_names.
  destruct (resolve_columns modernizer re_match repr_list df 0 (columns df) c)
    as [[names|e] c1] eqn:R; [|discriminate].
  intros H; injection H as <- <-. simpl.
  destruct (resolve_columns_ok _ _ _ Hc R) as [Hc1 [Len Nth]].
  split; [exact Hc1|]. split; [reflexivity|]. split; [exact Len|].
  intros i o n E1 E2. exact (Nth i o n E1 E2).
Qed.

(** The shape of a resolved name. *)
Lemma resolved_as_shape :
  forall i o n,
    resolved_as modernizer i o n ->
    2 <= length n /\ is_slug n = true
    /\ ((is_snake n = true /\ length n <= 40)
        \/ n = _to_snake_case (strip o)
        \/ n = fmt "column_" i
        \/ n = fmt "data_column_" i).
Proof.
  intros i o n [[_ [-> | ->]] | [_ ->]].
  - split; [|split].
    + pose proof (fmt_length "column_" i) as L.
      change (length (py "column_")) with 7 in L. lia.
    + apply is_snake_is_slug, fmt_snake; reflexivity.
    + right; right; left; reflexivity.
  - split; [|split].
    + pose proof (fmt_length "data_column_" i) as L.
      change (length (py "data_column_")) with 12 in L. lia.
    + apply is_snake_is_slug, fmt_snake; reflexivity.
    + right; right; right; reflexivity.
  - split; [apply final_validation_length|].
    split; [apply final_validation_slug, modernize_is_slug|].
    unfold final_validation.
    destruct (is_empty (modernize_column_name modernizer (strip o))
              || (length (modernize_column_name modernizer (strip o)) <? 2));
      [right; right; left; reflexivity|].
    destruct (modernize_cases modernizer (strip o)) as [[V C] | [E | E]].
    + left. destruct (validated_is_snake _ _ V C) as [S L]. split; [exact S | lia].
    + right; left. rewrite strip_idem in E. exact E.
    + left. rewrite E. split; [reflexivity | simpl; lia].
Qed.

End Renaming.

(** ** C1: the shape of resolved column names *)

(** A column named ["123"] keeps the name ["123"], which does not start with
    a letter, and a 46-character name keeps its 46-character slug: the
    fallback slug is returned without validation. *)
Lemma unvalidated_slug_counterexample :
  fst (_modernize_column_names None no_match no_repr digits_table empty_cache)
  = Ok {| columns := [py "123"; lower long_name]; rows := rows digits_table |}
  /\ is_snake (py "123") = false
  /\ 40 < length (lower long_name).
Proof. vm_compute. repeat split; lia || reflexivity. Qed.

(** C1, as the code has it: every resolved column name of a processed table
    (whose original names are 7-bit text) has at least two characters and is
    in [[a-z0-9][a-z0-9_]*]; it starts with a letter and has at most 40
    characters unless it is the unvalidated fallback slug of its original
    name or a positional label [column_i] / [data_column_i]. *)
Theorem resolved_names_are_slugs :
  forall modernizer re_match repr_list earlier df df' c',
    all_ascii7 (columns df) = true ->
    ascii7_modernizer modernizer ->
    _modernize_column_names modernizer re_match repr_list df
      (resolve_all modernizer earlier empty_cache) = (Ok df', c') ->
    Forall (fun n => 2 <= length n /\ is_slug n = true) (columns df')
    /\ forall i o n,
         nth_error (columns df) i = Some o ->
         nth_error (columns df') i = Some n ->
         (is_snake n = true /\ length n <= 40)
         \/ n = _to_snake_case (strip o)
         \/ n = fmt "column_" i
         \/ n = fmt "data_column_" i.
Proof.
  intros modernizer re_match repr_list earlier df df' c' _ _ H.
  apply modernize_column_names_ok in H;
    [|apply resolve_all_cache_of, empty_cache_of].
  destruct H as [_ [_ [Len Nth]]].
  split.
  - apply Forall_forall. intros n Hin.
    apply In_nth_error in Hin as [i Hi].
    destruct (nth_error (columns df) i) as [o|] eqn:Ho.
    + destruct (resolved_as_shape (Nth i o n Ho Hi)) as [L [S _]]. split; assumption.
    + apply nth_error_None in Ho.
      pose proof (proj1 (nth_error_Some (columns df') i)) as Lt.
      assert (i < length (columns df'))
        by (apply Lt; intros E; pose proof (eq_trans (eq_sym Hi) E) as X; discriminate X).
      lia.
  - intros i o n Ho Hn.
    destruct (resolved_as_shape (Nth i o n Ho Hn)) as [_ [_ D]]. exact D.
Qed.

Lemma resolved_names_are_slugs_witness :
  all_ascii7 (columns digits_table) = true
  /\ ascii7_modernizer None
  /\ Forall (fun n => 2 <= length n /\ is_slug n = true) [py "123"; lower long_name].
Proof.
  split; [reflexivity|]. split; [intros g p t E; discriminate E|].
  refine (proj1 (@resolved_names_are_slugs None no_match no_repr [] digits_table
                   {| columns := [py "123"; lower long_name]; rows := rows digits_table |}
                   (snd (_modernize_column_names None no_match no_repr digits_table empty_cache))
                   _ _ _)).
  - reflexivity.
  - intros g p t E; discriminate E.
  - vm_compute. reflexivity.
Defined.

(** ** C2: resolved names are not de-duplicated *)

(** [CUSTNO] and [CUSTNUM] both resolve to [customer_number], and the table
    keeps the name twice. *)
Lemma duplicate_names_counterexample :
  fst (_modernize_column_names None no_match no_repr customers_table empty_cache)
  = Ok {| columns := [py "customer_number"; py "customer_number"];
          rows := rows customers_table |}
  /\ ~ NoDup [py "customer_number"; py "customer_number"].
Proof.
  split; [vm_compute; reflexivity|].
  intros H. inversion H as [|x l Hnot _]. apply Hnot. left. reflexivity.
Qed.

Lemma resolve_column_name :
  forall modernizer re_match repr_list df i o c,
    cache_of (modernize_column_name modernizer) c ->
    fst (resolve_column modernizer re_match repr_list df i o c)
    = column_name modernizer re_match repr_list o i (column_data df i)
    /\ cache_of (modernize_column_name modernizer)
                (snd (resolve_column modernizer re_match repr_list df i o c)).
Proof.
  intros modernizer re_match repr_list df i o c Hc.
  unfold resolve_column, column_name.
  destruct (is_placeholder (strip o)).
  - cbn [fst snd]. split; [reflexivity | exact Hc].
  - unfold modernize_column_name_cached.
    pose proof (lru_call_value (strip o) Hc) as V.
    pose proof (lru_call_cache_of (strip o) Hc) as C.
    destruct (lru_call (modernize_column_name modernizer) (strip o) c) as [v c1].
    cbn [fst snd] in *. rewrite V. split; [reflexivity | exact C].
Qed.

Lemma resolve_columns_names :
  forall modernizer re_match repr_list df cols i c names c',
    cache_of (modernize_column_name modernizer) c ->
    resolve_columns modernizer re_match repr_list df i cols c = (Ok names, c') ->
    forall j o,
      nth_error cols j = Some o ->
      exists n,
        nth_error names j = Some n
        /\ column_name modernizer re_match repr_list o (i + j) (column_data df (i + j))
           = Ok n.
Proof.
  intros modernizer re_match repr_list df cols.
  induction cols as [|o cols IH]; intros i c names c' Hc; cbn [resolve_columns].
  - intros _ [|j] o'; discriminate.
  - destruct (@resolve_column_name modernizer re_match repr_list df i o c Hc) as [V C].
    destruct (resolve_column modernizer re_match repr_list df i o c) as [[n1|e] c1];
      [|discriminate].
    cbn [fst snd] in V, C.
    destruct (resolve_columns modernizer re_match repr_list df (S i) cols c1)
      as [[ns|e] c2] eqn:Rs; [|discriminate].
    intros H; injection H as <- <-.
    intros [|j] o'; cbn [nth_error].
    + intros E; injection E as <-. exists n1. rewrite Nat.add_0_r.
      split; [reflexivity | symmetry; exact V].
    + intros E. destruct (IH (S i) c1 ns c2 C Rs j o' E) as [n [N V']].
      exists n. replace (i + S j) with (S i + j) by lia. auto.
Qed.

Lemma modernize_column_names_names :
  forall modernizer re_match repr_list earlier df df' c',
    _modernize_column_names modernizer re_match repr_list df
      (resolve_all modernizer earlier empty_cache) = (Ok df', c') ->
    forall i o,
      nth_error (columns df) i = Some o ->
      exists n,
        nth_error (columns df') i = Some n
        /\ column_name modernizer re_match repr_list o i (column_data df i) = Ok n.
Proof.
  intros modernizer re_match repr_list earlier df df' c'. unfold _modernize_column_names.
  destruct (resolve_columns modernizer re_match repr_list df 0 (columns df)
              (resolve_all modernizer earlier empty_cache)) as [[names|e] c1] eqn:R;
    [|discriminate].
  intros H; injection H as <- <-. cbn [columns]. intros i o Ho.
  exact (@resolve_columns_names modernizer re_match repr_list df (columns df) 0 _ names c1
           (@resolve_all_cache_of modernizer earlier empty_cache
              (empty_cache_of (modernize_column_name modernizer))) R i o Ho).
Qed.

(** C2, as the code has it: the renaming step keeps the rows, the number and
    the order of the columns, and names each column from that column alone:
    from its own original name, its position and, when the name is a
    placeholder, its own values.  Whatever the other columns and the earlier
    resolutions are, a column with the same name, position and values gets
    the same name; for a name that is no placeholder the values play no part.
    Names are not compared with one another, so two columns may end up with
    the same name. *)
Theorem columns_renamed_independently :
  forall modernizer re_match repr_list earlier df df' c',
    _modernize_column_names modernizer re_match repr_list df
      (resolve_all modernizer earlier empty_cache) = (Ok df', c') ->
    rows df' = rows df
    /\ length (columns df') = length (columns df)
    /\ (forall i o,
          nth_error (columns df) i = Some o ->
          exists n,
            nth_error (columns df') i = Some n
            /\ column_name modernizer re_match repr_list o i (column_data df i) = Ok n)
    /\ (forall i o n,
          nth_error (columns df) i = Some o ->
          nth_error (columns df') i = Some n ->
          is_placeholder (strip o) = false ->
          n = final_validation i (modernize_column_name modernizer (strip o)))
    /\ (forall earlier2 df2 df2' c2' i o,
          _modernize_column_names modernizer re_match repr_list df2
            (resolve_all modernizer earlier2 empty_cache) = (Ok df2', c2') ->
          nth_error (columns df) i = Some o ->
          nth_error (columns df2) i = Some o ->
          column_data df i = column_data df2 i ->
          nth_error (columns df') i = nth_error (columns df2') i)
    /\ column_name None no_match no_repr (py "Unnamed: 0") 0 [] = Ok (py "column_0")
    /\ column_name None no_match no_repr (py "Unnamed: 0") 0 [Some (py " ")]
       = Ok (py "data_column_0").
Proof.
  intros modernizer re_match repr_list earlier df df' c' H.
  pose proof (@modernize_column_names_names modernizer re_match repr_list earlier df df' c' H) as N.
  apply modernize_column_names_ok in H;
    [|apply resolve_all_cache_of, empty_cache_of].
  destruct H as [_ [R [L _]]].
  split; [exact R|]. split; [exact L|]. split; [exact N|].
  split; [|split; [|split; reflexivity]].
  - intros i o n Ho Hn P. destruct (N i o Ho) as [n' [Hn' V]].
    rewrite Hn in Hn'. injection Hn' as <-.
    unfold column_name in V. rewrite P in V. cbn [bind] in V.
    injection V as V. symmetry. exact V.
  - intros earlier2 df2 df2' c2' i o H2 Ho Ho2 E.
    destruct (N i o Ho) as [n [Hn V]].
    destruct (@modernize_column_names_names modernizer re_match repr_list earlier2 df2 df2' c2' H2 i o Ho2) as [n2 [Hn2 V2]].
    rewrite <- E in V2. rewrite V in V2. injection V2 as <-.
    rewrite Hn, Hn2. reflexivity.
Qed.

Lemma columns_renamed_independently_witness :
  nth_error [py "customer_number"; py "customer_number"] 1
  = Some (final_validation 1 (modernize_column_name None (strip (py "CUSTNUM")))).
Proof.
  refine (f_equal (@Some pystr)
            (proj1 (proj2 (proj2 (proj2
               (@columns_renamed_independently None no_match no_repr [] customers_table
                  {| columns := [py "customer_number"; py "customer_number"];
                     rows := rows customers_table |}
                  (snd (_modernize_column_names None no_match no_repr customers_table
                          empty_cache))
                  _))))
               1 (py "CUSTNUM") (py "customer_number") eq_refl eq_refl eq_refl)).
  vm_compute. reflexivity.
Defined.

(** ** C3: the dictionary decides ["CUSTNO"] *)

(** C3: whatever the generative capability is (absent, failing, or answering
    anything), ["CUSTNO"] resolves to ["customer_number"], through the cache
    as well as without it, and as a column of a table. *)
Theorem custno_is_customer_number :
  forall modernizer,
    modernize_column_name modernizer (py "CUSTNO") = py "customer_number"
    /\ (forall earlier,
          fst (modernize_column_name_cached modernizer (py "CUSTNO")
                 (resolve_all modernizer earlier empty_cache))
          = py "customer_number")
    /\ (forall re_match repr_list df i earlier,
          fst (resolve_column modernizer re_match repr_list df i (py "CUSTNO")
                 (resolve_all modernizer earlier empty_cache))
          = Ok (py "customer_number")).
Proof.
  intros modernizer.
  assert (E : modernize_column_name modernizer (py "CUSTNO") = py "customer_number")
    by (vm_compute; reflexivity).
  split; [exact E|]. split.
  - intros earlier. unfold modernize_column_name_cached.
    rewrite lru_call_value; [exact E | apply resolve_all_cache_of, empty_cache_of].
  - intros re_match repr_list df i earlier.
    set (c := resolve_all modernizer earlier empty_cache).
    assert (Hc : cache_of (modernize_column_name modernizer) c)
      by apply resolve_all_cache_of, empty_cache_of.
    destruct (resolve_column modernizer re_match repr_list df i (py "CUSTNO") c)
      as [[n|e] c1] eqn:R.
    + destruct (@resolve_column_ok modernizer re_match repr_list df i (py "CUSTNO") c n c1 Hc R)
        as [_ [[P _] | [_ ->]]].
      * vm_compute in P. discriminate P.
      * cbv [fst]. change (strip (py "CUSTNO")) with (py "CUSTNO"). rewrite E. reflexivity.
    + exfalso. revert R. unfold resolve_column.
      change (is_placeholder (strip (py "CUSTNO"))) with false. cbv iota.
      destruct (modernize_column_name_cached modernizer (strip (py "CUSTNO")) c).
      simpl. discriminate.
Qed.

(** ** C10: the banned words of the validator are searched anywhere *)

Lemma contains_char :
  forall c s, In c s -> contains [c] s = true.
Proof.
  intros c s. induction s as [|x t IH]; intros H; [destruct H|].
  simpl. destruct H as [-> | H].
  - rewrite Ascii.eqb_refl. destruct t; reflexivity.
  - rewrite (IH H). apply orb_true_r.
Qed.

Lemma banned_word_rejected :
  forall name original w,
    In w invalid_patterns -> search_ci w name = true ->
    _validate_column_name name original = false.
Proof.
  intros name original w Hin Hs.
  destruct (_validate_column_name name original) eqn:V; [|reflexivity].
  destruct (validate_true _ _ V) as [_ [B _]].
  assert (T : existsb (fun w => search_ci w name) invalid_patterns = true)
    by (apply existsb_exists; exists w; split; assumption).
  rewrite T in B. discriminate B.
Qed.

Lemma letter_a_rejected :
  forall name original,
    In "a"%char name \/ In "A"%char name ->
    _validate_column_name name original = false.
Proof.
  intros name original H.
  apply banned_word_rejected with (w := py "a").
  - vm_compute. tauto.
  - unfold search_ci. apply (contains_char "a"%char). unfold lower.
    destruct H as [H | H].
    + change "a"%char with (to_lower "a"%char). apply in_map. exact H.
    + change "a"%char with (to_lower "A"%char). apply in_map. exact H.
Qed.

(** The content-inference stage hands out [data_column_0] for an unnamed
    column of blank values: a name with the letter [a] that the validator
    rejects, accepted before the fallback stage. *)
Lemma content_label_counterexample :
  predict_column_name_from_data None no_match no_repr [Some (py " ")] 0
  = Ok (py "data_column_0")
  /\ fst (_modernize_column_names None no_match no_repr blank_column_table empty_cache)
     = Ok {| columns := [py "data_column_0"]; rows := rows blank_column_table |}
  /\ In "a"%char (py "data_column_0")
  /\ _validate_column_name (py "data_column_0") (py "Unnamed: 0") = false
  /\ py "data_column_0" <> _to_snake_case (py "Unnamed: 0").
Proof.
  split; [vm_compute; reflexivity|].
  split; [vm_compute; reflexivity|].
  split; [vm_compute; tauto|].
  split; [vm_compute; reflexivity|].
  vm_compute. discriminate.
Qed.

(** C10, as the code has it: a banned word is searched anywhere in the
    candidate, so a candidate with the letter [a] (in either case), or with
    any other banned word inside it, fails validation; a name with the
    letter [a] that [modernize_column_name] returns was therefore accepted by
    none of its validated stages (dictionary, generative, heuristic) and is
    the fallback slug.  [ADDR1] and [HIREDATE] end that way. *)
Theorem letter_a_only_from_fallback :
  (forall name original w,
     In w invalid_patterns -> search_ci w name = true ->
     _validate_column_name name original = false)
  /\ (forall name original,
        In "a"%char name \/ In "A"%char name ->
        _validate_column_name name original = false)
  /\ (forall modernizer col,
        In "a"%char (modernize_column_name modernizer col) ->
        modernize_column_name modernizer col = _to_snake_case (strip col))
  /\ _analyze_as400_patterns (py "ADDR1") = py "address_line_1"
  /\ _analyze_as400_patterns (py "HIREDATE") = py "hire_date"
  /\ modernize_column_name None (py "ADDR1") = py "addr1"
  /\ modernize_column_name None (py "HIREDATE") = py "hiredate".
Proof.
  split; [exact banned_word_rejected|].
  split; [exact letter_a_rejected|].
  split; [|repeat split; vm_compute; reflexivity].
  intros modernizer col Ha.
  destruct (modernize_cases modernizer col) as [[V _] | [E | E]].
  - rewrite letter_a_rejected in V; [discriminate V | left; exact Ha].
  - exact E.
  - rewrite E in Ha. exfalso. vm_compute in Ha.
    repeat (destruct Ha as [Ha | Ha]; [discriminate Ha|]). exact Ha.
Qed.

(** ** C6: the content-inference stage *)

Lemma other_patterns_compile :
  forall name src icase,
    In (name, (src, icase)) pattern_sources ->
    name <> py "phone_number" ->
    re_compile src icase = Ok {| source := src; ignorecase := icase |}.
Proof.
  intros name src icase Hin Hne. vm_compute in Hin.
  repeat (destruct Hin as [Hin | Hin];
          [injection Hin as <- <- <-; try (exfalso; apply Hne; reflexivity);
           vm_compute; reflexivity|]).
  destruct Hin.
Qed.

(** A table whose unnamed column holds a value makes [process_file] answer
    with status 500. *)
Lemma unnamed_column_http_500 :
  forall chardet_detect decode_ignore read_excel read_fwf sniff read_csv
         modernizer re_match repr_list raw filename c text,
    safe_decode chardet_detect decode_ignore raw = Ok text ->
    parse_by_extension read_excel read_fwf sniff read_csv raw text
      (extension (lower filename)) = Ok zip_column_table ->
    process_file chardet_detect decode_ignore read_excel read_fwf sniff read_csv
      modernizer re_match repr_list raw filename c
    = (Raise (HTTPException 500 "File processing error: bad character range \s-( at position 7"), c).
Proof.
  intros chardet_detect decode_ignore read_excel read_fwf sniff read_csv
         modernizer re_match repr_list raw filename c text Ht Hp.
  unfold process_file, process_file_body. rewrite Ht, Hp. reflexivity.
Qed.

(** C6 on the code: the second pattern of the library, [phone_number], has
    the set [[\d\s-()]], whose range starts at a class escape; [re.compile]
    raises on it, so the stage raises for every sample, and a table with an
    unnamed column that holds a value is not processed. *)
Theorem content_inference_raises :
  re_compile (py "^\+?[\d\s-()]{7,20}$") false = Raise (ReError "bad character range \s-( at position 7")
  /\ (forall re_match sample col_index,
        _pattern_based_prediction re_match sample col_index
        = Raise (ReError "bad character range \s-( at position 7"))
  /\ (forall modernizer re_match repr_list col_index,
        predict_column_name_from_data modernizer re_match repr_list
          [Some (py "12345")] col_index
        = Raise (ReError "bad character range \s-( at position 7"))
  /\ (forall modernizer re_match repr_list c,
        fst (assemble modernizer re_match repr_list zip_column_table c)
        = Raise (ReError "bad character range \s-( at position 7"))
  /\ (forall chardet_detect decode_ignore read_excel read_fwf sniff read_csv
             modernizer re_match repr_list raw filename c text,
        safe_decode chardet_detect decode_ignore raw = Ok text ->
        parse_by_extension read_excel read_fwf sniff read_csv raw text
          (extension (lower filename)) = Ok zip_column_table ->
        process_file chardet_detect decode_ignore read_excel read_fwf sniff read_csv
          modernizer re_match repr_list raw filename c
        = (Raise (HTTPException 500 "File processing error: bad character range \s-( at position 7"), c)).
Proof.
  split; [vm_compute; reflexivity|].
  split; [intros; reflexivity|].
  split; [intros; reflexivity|].
  split; [intros; reflexivity|].
  exact unnamed_column_http_500.
Qed.

(** ** C7: the resolution cache is a bounded LRU cache *)


Lemma cache_find_none :
  forall k l, cache_find k l = None -> ~ In k (map fst l).
Proof.
  intros k l. induction l as [|[a b] l IH]; simpl; intros H; [tauto|].
  destruct (str_eqb a k) eqn:E; [discriminate|].
  apply str_eqb_neq in E. intros [I | I]; [contradiction | exact (IH H I)].
Qed.


Lemma cache_remove_keys :
  forall j l x, In x (map fst (cache_remove j l)) -> In x (map fst l) /\ x <> j.
Proof.
  intros j l x. induction l as [|[a b] l IH]; simpl; [tauto|].
  destruct (str_eqb a j) eqn:E.
  - intros H. destruct (IH H). tauto.
  - apply str_eqb_neq in E. simpl. intros [<- | H]; [tauto|]. destruct (IH H). tauto.
Qed.

Lemma cache_remove_nodup :
  forall j l, NoDup (map fst l) -> NoDup (map fst (cache_remove j l)).
Proof.
  intros j l. induction l as [|[a b] l IH]; simpl; intros H; [constructor|].
  inversion H as [|x xs Hnot Hnd]; subst.
  destruct (str_eqb a j); [exact (IH Hnd)|].
  simpl. constructor; [|exact (IH Hnd)].
  intros I. apply Hnot. exact (proj1 (cache_remove_keys _ _ _ I)).
Qed.

Lemma cache_remove_length :
  forall j l, length (cache_remove j l) <= length l.
Proof.
  intros j l. induction l as [|[a b] l IH]; simpl; [lia|].
  destruct (str_eqb a j); simpl; lia.
Qed.

Lemma cache_remove_found :
  forall j l v, cache_find j l = Some v -> S (length (cache_remove j l)) <= length l.
Proof.
  intros j l v. induction l as [|[a b] l IH]; simpl; [discriminate|].
  destruct (str_eqb a j).
  - intros _. pose proof (cache_remove_length j l). lia.
  - intros H. specialize (IH H). simpl. lia.
Qed.



Section Retention.

Variable f : pystr -> pystr.
Variable k v : pystr.
(** The names that may be resolved while [k] waits in the cache. *)
Variable others : list pystr.
Hypothesis others_few : length others < maxsize.




End Retention.








(** ** C8: the decoder never raises *)

(** C8: given that decoding as UTF-8 with [errors="ignore"] returns for every
    byte sequence, [safe_decode] returns a string for every byte sequence:
    the text decoded with the detected encoding when detection and decoding
    succeed (UTF-8 standing in for a missing label), the UTF-8 text when
    detection raises or decoding with the detected encoding raises. *)
Theorem safe_decode_never_raises :
  forall chardet_detect decode_ignore,
    (forall raw, exists s, decode_ignore (py "utf-8") raw = Ok s) ->
    forall raw,
    exists s,
      safe_decode chardet_detect decode_ignore raw = Ok s
      /\ (forall enc s',
            chardet_detect raw = Ok (Some enc) -> is_empty enc = false ->
            decode_ignore enc raw = Ok s' -> s = s')
      /\ (forall enc e,
            chardet_detect raw = Ok (Some enc) -> is_empty enc = false ->
            decode_ignore enc raw = Raise e -> decode_ignore (py "utf-8") raw = Ok s)
      /\ (chardet_detect raw = Ok None \/ chardet_detect raw = Ok (Some []) ->
          decode_ignore (py "utf-8") raw = Ok s)
      /\ (forall e, chardet_detect raw = Raise e -> decode_ignore (py "utf-8") raw = Ok s).
Proof.
  intros chardet_detect decode_ignore Hutf raw.
  destruct (Hutf raw) as [u Hu].
  unfold safe_decode.
  destruct (chardet_detect raw) as [[enc|]|e] eqn:D; cbn [bind try_except].
  - destruct (is_empty enc) eqn:Eenc.
    + exists u. rewrite Hu. cbn. split; [reflexivity|].
      split; [intros enc' s' H; injection H as <-; congruence|].
      split; [intros enc' e' H; injection H as <-; congruence|].
      split; [intros _; first [exact Hu | reflexivity] | discriminate].
    + destruct (decode_ignore enc raw) as [s|e] eqn:De.
      * exists s. split; [reflexivity|].
        split; [intros enc' s' H _ H'; injection H as <-; congruence|].
        split; [intros enc' e' H _ H'; injection H as <-; congruence|].
        split; [|discriminate].
        intros [H | H]; [discriminate H|]. injection H as ->. discriminate Eenc.
      * exists u. rewrite Hu. split; [reflexivity|].
        split; [intros enc' s' H _ H'; injection H as <-; congruence|].
        split; [intros; first [exact Hu | reflexivity]|].
        split; [intros; first [exact Hu | reflexivity] | discriminate].
  - exists u. rewrite Hu. cbn. split; [reflexivity|].
    split; [discriminate|]. split; [discriminate|].
    split; [intros _; first [exact Hu | reflexivity] | discriminate].
  - exists u. rewrite Hu. split; [reflexivity|].
    split; [discriminate|]. split; [discriminate|].
    split; [intros [H | H]; discriminate H | intros; first [exact Hu | reflexivity]].
Qed.

Lemma safe_decode_never_raises_witness :
  safe_decode stub_detect stub_decode [Byte.x41; Byte.xff; Byte.x42] = Ok (py "AB").
Proof.
  assert (H : forall raw, exists s, stub_decode (py "utf-8") raw = Ok s)
    by (intros raw; eexists; reflexivity).
  destruct (@safe_decode_never_raises stub_detect stub_decode H
              [Byte.x41; Byte.xff; Byte.x42]) as [s [E [Hdetected _]]].
  rewrite E. f_equal.
  apply (Hdetected (py "ascii") (py "AB")); reflexivity.
Defined.

(** ** C9: a table without rows or without columns is refused *)

Lemma placeholder_columns_length :
  forall cols i, length (placeholder_columns i cols) = length cols.
Proof. induction cols as [|c cols IH]; intros i; simpl; [reflexivity | rewrite IH; reflexivity]. Qed.

Lemma assemble_empty :
  forall modernizer re_match repr_list df c,
    df_empty (dropna_all df) = true ->
    exists detail,
      assemble modernizer re_match repr_list df c = (Raise (HTTPException 400 detail), c)
      /\ (detail = "No data found in file"%string
          \/ detail = "No valid data rows found"%string).
Proof.
  intros modernizer re_match repr_list df c H. unfold assemble.
  destruct (df_empty df) eqn:E; [eexists; split; [reflexivity | left; reflexivity]|].
  match goal with |- context [df_empty ?d] =>
    assert (E' : df_empty d = true) end.
  { revert H. unfold df_empty, dropna_all, ncols, nrows. cbn [columns rows].
    rewrite placeholder_columns_length. tauto. }
  rewrite E'. eexists; split; [reflexivity | right; reflexivity].
Qed.

(** C9: when the parsed table has no row or no column once its rows of
    missing values only are dropped, [process_file] raises an
    [HTTPException] with status 400 and returns no table. *)
Theorem empty_table_rejected :
  forall chardet_detect decode_ignore read_excel read_fwf sniff read_csv
         modernizer re_match repr_list raw filename c text df,
    safe_decode chardet_detect decode_ignore raw = Ok text ->
    parse_by_extension read_excel read_fwf sniff read_csv raw text
      (extension (lower filename)) = Ok df ->
    df_empty (dropna_all df) = true ->
    exists detail,
      process_file chardet_detect decode_ignore read_excel read_fwf sniff read_csv
        modernizer re_match repr_list raw filename c
      = (Raise (HTTPException 400 detail), c)
      /\ (detail = "No data found in file"%string
          \/ detail = "No valid data rows found"%string).
Proof.
  intros chardet_detect decode_ignore read_excel read_fwf sniff read_csv
         modernizer re_match repr_list raw filename c text df Ht Hp He.
  destruct (assemble_empty modernizer re_match repr_list df c He) as [detail [Ha Hd]].
  exists detail. split; [|exact Hd].
  unfold process_file, process_file_body. rewrite Ht, Hp, Ha. reflexivity.
Qed.

Lemma empty_table_rejected_witness :
  fst (process_file stub_detect stub_decode stub_fail stub_fail stub_fail stub_read_null
         None no_match no_repr [Byte.x41] (py "report.CSV") empty_cache)
  = Raise (HTTPException 400 "No valid data rows found").
Proof.
  destruct (@empty_table_rejected stub_detect stub_decode stub_fail stub_fail stub_fail
              stub_read_null None no_match no_repr [Byte.x41] (py "report.CSV")
              empty_cache (py "A") null_table eq_refl eq_refl eq_refl)
    as [detail [E D]].
  rewrite E. cbn [fst]. destruct D as [D | D]; subst detail.
  - exfalso. vm_compute in E. discriminate E.
  - reflexivity.
Defined.

(** ** C5: the delimiter candidates *)

Lemma header_words_no_space :
  forall s pos start_pos current_word,
    forallb (fun c => negb (is_space c)) s = true ->
    length (header_words s pos start_pos current_word) <= 1.
Proof.
  induction s as [|c t IH]; intros pos start_pos current_word H; simpl.
  - destruct (is_empty current_word); simpl; lia.
  - simpl in H. apply andb_true_iff in H as [Hc Ht].
    apply negb_true_iff in Hc. rewrite Hc. apply IH. exact Ht.
Qed.

Lemma split_on_chars :
  forall (q : ascii -> bool) sep s cur,
    forallb q cur = true ->
    forallb (fun c => q c || Ascii.eqb c sep) s = true ->
    Forall (fun l => forallb q l = true) (split_on sep s cur).
Proof.
  intros q sep s. induction s as [|c t IH]; intros cur Hcur H; simpl.
  - constructor; [exact Hcur | constructor].
  - simpl in H. apply andb_true_iff in H as [Hc Ht].
    destruct (Ascii.eqb c sep) eqn:E.
    + constructor; [exact Hcur | apply IH; [reflexivity | exact Ht]].
    + apply IH; [|exact Ht]. rewrite forallb_app, Hcur. simpl.
      rewrite orb_false_r in Hc. rewrite Hc. reflexivity.
Qed.

Lemma pipe_blob_no_space :
  forall c, (is_alpha c || is_digit c || Ascii.eqb c "|"%char) = true -> is_space c = false.
Proof. intros c; ascii_cases c. Qed.

(** In a text without white space other than line feeds no header line has
    two words, so the structural fixed-width parse finds no table. *)
Lemma structural_parse_pipe_blob :
  forall content, pipe_blob content = true -> structural_parse (content_lines content) = None.
Proof.
  intros content H. unfold structural_parse.
  destruct (detect_fixed_width_structure (content_lines content)) as [ws|] eqn:D;
    [|reflexivity].
  exfalso. revert D. unfold detect_fixed_width_structure.
  destruct (length (content_lines content) <? 3); [discriminate|].
  destruct (find header_candidate (firstn 5 (content_lines content))) as [h|] eqn:F;
    [|discriminate].
  apply find_some in F as [Hin _].
  assert (Hin' : In h (content_lines content)).
  { rewrite <- (firstn_skipn 5 (content_lines content)). apply in_or_app. left. exact Hin. }
  unfold content_lines in Hin'. apply filter_In in Hin' as [Hin' _].
  assert (A : Forall (fun l => forallb (fun c => negb (is_space c)) l = true)
                     (split_on LF (strip content) [])).
  { apply split_on_chars; [reflexivity|].
    apply forallb_strip_by. eapply forallb_weaken; [|exact H].
    intros c Hc. unfold pipe_blob_char in Hc.
    destruct (Ascii.eqb c LF); [apply orb_true_r|].
    rewrite orb_false_r in Hc. rewrite (pipe_blob_no_space c Hc). reflexivity. }
  rewrite Forall_forall in A. specialize (A h Hin').
  pose proof (header_words_no_space h 0 0 [] A) as L.
  destruct (1 <? length (header_words h 0 0 [])) eqn:Q; [|discriminate].
  apply Nat.ltb_lt in Q. lia.
Qed.

Lemma fixed_width_pipe_blob :
  forall read_fwf content,
    pipe_blob content = true ->
    (forall d, read_fwf content = Ok d -> usable d = false) ->
    exists e, parse_fixed_width_data read_fwf content = Raise e.
Proof.
  intros read_fwf content H Hfwf. unfold parse_fixed_width_data.
  destruct (length (content_lines content) <? 2); [eexists; reflexivity|].
  rewrite (structural_parse_pipe_blob content H).
  destruct (read_fwf content) as [d|e] eqn:R; [|eexists; reflexivity].
  rewrite (Hfwf d eq_refl). eexists; reflexivity.
Qed.

Lemma try_delimiter_some :
  forall read_csv content d df,
    try_delimiter read_csv content d = Some df
    <-> read_csv content d = Ok df /\ usable df = true.
Proof.
  intros read_csv content d df. unfold try_delimiter.
  destruct (read_csv content d) as [x|e]; [|split; [discriminate | intros [H _]; discriminate H]].
  destruct (usable x) eqn:U; split.
  - intros H; injection H as <-. split; [reflexivity | exact U].
  - intros [H _]; injection H as <-. reflexivity.
  - discriminate.
  - intros [H U']; injection H as <-. congruence.
Qed.

Lemma try_delimiters_first :
  forall read_csv content ds df,
    try_delimiters read_csv content ds = Some df
    <-> exists before d after,
          ds = before ++ d :: after
          /\ Forall (fun d' => try_delimiter read_csv content d' = None) before
          /\ try_delimiter read_csv content d = Some df.
Proof.
  intros read_csv content ds df. induction ds as [|d0 ds IH]; simpl.
  - split; [discriminate|]. intros [b [d [a [E _]]]]. destruct b; discriminate E.
  - destruct (try_delimiter read_csv content d0) as [x|] eqn:T.
    + split.
      * intros H; injection H as <-. exists [], d0, ds.
        split; [reflexivity|]. split; [constructor | exact T].
      * intros [b [d [a [E [F S]]]]]. destruct b as [|b0 b].
        -- injection E as <- <-. congruence.
        -- injection E as <- ->. inversion F; congruence.
    + rewrite IH. split.
      * intros [b [d [a [E [F S]]]]]. exists (d0 :: b), d, a.
        split; [simpl; f_equal; exact E|]. split; [constructor; assumption | exact S].
      * intros [b [d [a [E [F S]]]]]. destruct b as [|b0 b].
        -- injection E as <- <-. congruence.
        -- injection E as <- ->. inversion F; subst. exists b, d, a. auto.
Qed.

(** C5: when the sniffer fails, or the table read with the sniffed delimiter
    is not usable, the candidates comma, tab, pipe, semicolon and space are
    tried in that order and the first one whose table has more than one
    column and at least one row is returned (manual tokenization comes after
    them); so a text of letters, digits, pipes and line feeds, for which the
    sniffer fails and the readers find one column at most with comma, tab and
    fixed widths, is read with the pipe. *)
Theorem delimiter_fallback :
  forall read_fwf sniff read_csv content,
    delimiters_to_try = [py ","; [TAB]; py "|"; py ";"; py " "]
    /\ (forall lines,
          (forall d, sniff (firstn (8 * 1024) content) = Ok d -> is_empty d = false ->
                     try_delimiter read_csv content d = None) ->
          read_delimited sniff read_csv content lines
          = match try_delimiters read_csv content delimiters_to_try with
            | Some df => Ok df
            | None => manual_parse lines
            end)
    /\ (forall df,
          try_delimiters read_csv content delimiters_to_try = Some df
          <-> exists before d after,
                delimiters_to_try = before ++ d :: after
                /\ Forall (fun d' => try_delimiter read_csv content d' = None) before
                /\ read_csv content d = Ok df /\ usable df = true)
    /\ (forall df,
          pipe_blob content = true ->
          (forall d, read_fwf content = Ok d -> usable d = false) ->
          (exists e, sniff (firstn (8 * 1024) content) = Raise e) ->
          (forall d, read_csv content (py ",") = Ok d -> usable d = false) ->
          (forall d, read_csv content [TAB] = Ok d -> usable d = false) ->
          read_csv content (py "|") = Ok df -> usable df = true ->
          detect_delimiter_and_read_text read_fwf sniff read_csv content = Ok df).
Proof.
  intros read_fwf sniff read_csv content.
  split; [reflexivity|]. split; [|split].
  - intros lines Hs. unfold read_delimited.
    destruct (sniff (firstn (8 * 1024) content)) as [d|e] eqn:S; [|reflexivity].
    destruct (is_empty d) eqn:Ed; [reflexivity|].
    rewrite (Hs d eq_refl Ed). reflexivity.
  - intros df. rewrite try_delimiters_first. split.
    + intros [b [d [a [E [F T]]]]]. exists b, d, a. apply try_delimiter_some in T. tauto.
    + intros [b [d [a [E [F T]]]]]. exists b, d, a. rewrite try_delimiter_some. tauto.
  - intros df Hb Hfwf [e Hsn] Hc Ht Hp Hu.
    assert (N : forall d0, (forall d, read_csv content d0 = Ok d -> usable d = false) ->
                           try_delimiter read_csv content d0 = None).
    { intros d0 H. unfold try_delimiter. destruct (read_csv content d0) as [d|]; [|reflexivity].
      rewrite (H d eq_refl). reflexivity. }
    unfold detect_delimiter_and_read_text.
    destruct (fixed_width_pipe_blob read_fwf content Hb Hfwf) as [e' Hfw]. rewrite Hfw.
    match goal with |- context [if ?b then None else None] => destruct b end.
    all: unfold read_delimited; rewrite Hsn; unfold delimiters_to_try; cbn [try_delimiters].
    all: rewrite (N (py ",") Hc); rewrite (N [TAB] Ht).
    all: unfold try_delimiter; rewrite Hp, Hu; reflexivity.
Qed.

Lemma delimiter_fallback_witness :
  pipe_blob pipe_text = true
  /\ detect_delimiter_and_read_text stub_fail stub_fail stub_read_csv pipe_text
     = Ok (frame_of [py "id"; py "qty"] [[py "7"; py "12"]; [py "8"; py "30"]]).
Proof.
  split; [reflexivity|].
  refine (proj2 (proj2 (proj2 (@delimiter_fallback stub_fail stub_fail stub_read_csv pipe_text)))
            _ _ _ _ _ _ _ _).
  - reflexivity.
  - intros d H; discriminate H.
  - eexists; reflexivity.
  - intros d H. vm_compute in H. injection H as <-. reflexivity.
  - intros d H. vm_compute in H. injection H as <-. reflexivity.
  - vm_compute. reflexivity.
  - reflexivity.
Defined.

(** ** Fixed-width reports: header words, rows and cells *)

Lemma dropwhile_id :
  forall p s, forallb (fun c => negb (p c)) s = true -> dropwhile p s = s.
Proof.
  intros p [|c t]; simpl; [reflexivity|].
  intros H. apply andb_true_iff in H as [Hc _]. apply negb_true_iff in Hc.
  rewrite Hc. reflexivity.
Qed.

Lemma forallb_rev : forall (q : ascii -> bool) s, forallb q s = true -> forallb q (rev s) = true.
Proof.
  intros q s H. apply forallb_forall. intros x Hx. apply in_rev in Hx.
  rewrite forallb_forall in H. exact (H x Hx).
Qed.

Lemma strip_by_id :
  forall p s, forallb (fun c => negb (p c)) s = true -> strip_by p s = s.
Proof.
  intros p s H. unfold strip_by, lstrip, rstrip.
  rewrite (dropwhile_id p s H).
  rewrite (dropwhile_id p (rev s)) by (apply forallb_rev; exact H).
  apply rev_involutive.
Qed.

Lemma strip_word : forall w, forallb not_space w = true -> strip w = w.
Proof. intros w H. apply strip_by_id. exact H. Qed.

Lemma forallb_snoc :
  forall (q : ascii -> bool) s c, forallb q s = true -> q c = true -> forallb q (s ++ [c]) = true.
Proof. intros q s c Hs Hc. rewrite forallb_app, Hs. simpl. rewrite Hc. reflexivity. Qed.


Lemma slice_middle :
  forall (pre cur rest : pystr),
    slice (length pre) (length pre + length cur) (pre ++ cur ++ rest) = cur.
Proof.
  intros pre cur rest. unfold slice.
  rewrite skipn_app, skipn_all, Nat.sub_diag. simpl.
  replace (length pre + length cur - length pre) with (length cur) by lia.
  rewrite firstn_app, Nat.sub_diag, firstn_all. simpl. apply app_nil_r.
Qed.

(** Every header span records where its word stands in the header line. *)
Lemma header_words_spans :
  forall s pre cur,
    forallb not_space cur = true ->
    Forall (span_of (pre ++ cur ++ s))
           (header_words s (length pre + length cur) (length pre) cur).
Proof.
  induction s as [|c t IH]; intros pre cur Hcur; simpl.
  - destruct cur as [|a cur']; [constructor|]. cbn [is_empty].
    constructor; [|constructor]. unfold span_of.
    rewrite (strip_word _ Hcur). rewrite app_nil_r.
    split; [rewrite length_app; simpl; lia|]. split; [|exact Hcur].
    rewrite <- (app_nil_r (a :: cur')) at 3. symmetry. apply slice_middle.
  - destruct (is_space c) eqn:Sc.
    + assert (E : pre ++ cur ++ c :: t = (pre ++ cur ++ [c]) ++ [] ++ t)
        by (rewrite <- !app_assoc; reflexivity).
      assert (L : S (length pre + length cur) = length (pre ++ cur ++ [c]) + length (@nil ascii))
        by (rewrite !length_app; simpl; lia).
      assert (L' : S (length pre + length cur) = length (pre ++ cur ++ [c]))
        by (rewrite !length_app; simpl; lia).
      destruct cur as [|a cur'].
      * cbn [is_empty]. rewrite E. rewrite L at 1. rewrite L'. apply IH. reflexivity.
      * cbn [is_empty]. constructor.
        -- unfold span_of. rewrite (strip_word _ Hcur).
           split; [rewrite !length_app; simpl; lia|]. split; [|exact Hcur].
           symmetry. apply slice_middle.
        -- rewrite E. rewrite L at 1. rewrite L'. apply IH. reflexivity.
    + assert (E : pre ++ cur ++ c :: t = pre ++ (cur ++ [c]) ++ t)
        by (rewrite <- !app_assoc; reflexivity).
      assert (L : S (length pre + length cur) = length pre + length (cur ++ [c]))
        by (rewrite length_app; simpl; lia).
      rewrite E, L. apply IH.
      apply forallb_snoc; [exact Hcur|]. unfold not_space. rewrite Sc. reflexivity.
Qed.

Lemma extract_rows_spec :
  forall structure lines row,
    In row (extract_rows structure lines)
    <-> exists line,
          In line lines
          /\ blank line = false /\ separator_star (strip line) = false
          /\ row = map (extract_cell line) structure
          /\ existsb (fun cell => negb (is_empty cell)) row = true.
Proof.
  intros structure lines row. unfold extract_rows. rewrite in_flat_map. split.
  - intros [line [Hin H]]. exists line. split; [exact Hin|].
    destruct (blank line || separator_star (strip line)) eqn:B; [destruct H|].
    apply orb_false_iff in B as [B1 B2].
    destruct (existsb (fun cell => negb (is_empty cell)) (extract_row structure line)) eqn:X;
      [|destruct H].
    destruct H as [<- | []]. unfold extract_row in *. auto.
  - intros [line [Hin [B1 [B2 [-> X]]]]]. exists line. split; [exact Hin|].
    rewrite B1, B2. cbn [orb]. unfold extract_row. rewrite X. left. reflexivity.
Qed.


(** * Further properties of the code *)

(** ** The slug is a normal form *)

Lemma single_us_weaken : forall s, single_us true s = true -> single_us false s = true.
Proof.
  destruct s as [|c t]; [reflexivity|]. simpl.
  destruct (is_us c); [discriminate | auto].
Qed.

Lemma single_us_runs :
  forall s b, single_us b (runs_to_us is_us b s) = true.
Proof.
  induction s as [|c t IH]; intros b; [reflexivity|]. simpl.
  destruct (is_us c) eqn:U.
  - destruct b; [apply IH|]. simpl. apply IH.
  - simpl. rewrite U. apply IH.
Qed.

Lemma is_us_lower : forall c, is_us (to_lower c) = is_us c.
Proof. intros c; ascii_cases c. Qed.

Lemma single_us_lower : forall s b, single_us b (lower s) = single_us b s.
Proof.
  induction s as [|c t IH]; intros b; [reflexivity|]. simpl.
  rewrite is_us_lower. destruct (is_us c); rewrite IH; reflexivity.
Qed.

Lemma single_us_app_r :
  forall x y b, single_us b (x ++ y) = true -> single_us false y = true.
Proof.
  induction x as [|c t IH]; intros y b H; simpl in H.
  - destruct b; [apply single_us_weaken; exact H | exact H].
  - destruct (is_us c).
    + apply andb_true_iff in H as [_ H]. exact (IH y true H).
    + exact (IH y false H).
Qed.

Lemma single_us_app_l :
  forall x y b, single_us b (x ++ y) = true -> single_us b x = true.
Proof.
  induction x as [|c t IH]; intros y b H; [reflexivity|]. simpl in *.
  destruct (is_us c).
  - apply andb_true_iff in H as [Hb H]. rewrite Hb. exact (IH y true H).
  - exact (IH y false H).
Qed.

Lemma single_us_strip :
  forall s, single_us false s = true -> single_us false (strip_us s) = true.
Proof.
  intros s H. unfold strip_us, strip_by, lstrip.
  destruct (dropwhile_decompose is_us s) as [pre [E _]].
  rewrite E in H. apply single_us_app_r in H.
  destruct (rstrip_prefix is_us (dropwhile is_us s)) as [suf E'].
  rewrite E' in H. exact (single_us_app_l _ _ _ H).
Qed.

Lemma startswith_us2 :
  forall s,
    startswith (py "__") s
    = match s with
      | c :: d :: _ => is_us c && is_us d
      | _ => false
      end.
Proof.
  intros s. change (py "__") with ["_"%char; "_"%char].
  destruct s as [|c [|d t]]; cbn [startswith]; unfold is_us.
  - reflexivity.
  - apply andb_false_r.
  - rewrite (Ascii.eqb_sym "_"%char c), (Ascii.eqb_sym "_"%char d), andb_true_r.
    reflexivity.
Qed.

Lemma single_us_no_double :
  forall s b, single_us b s = true -> contains (py "__") s = false.
Proof.
  induction s as [|c t IH]; intros b H; [reflexivity|].
  change (contains (py "__") (c :: t))
    with (startswith (py "__") (c :: t) || contains (py "__") t).
  rewrite startswith_us2. cbn [single_us] in H.
  destruct (is_us c) eqn:U.
  - apply andb_true_iff in H as [_ H]. rewrite (IH true H), orb_false_r.
    destruct t as [|d t']; [reflexivity|].
    cbn [single_us] in H. destruct (is_us d); [discriminate H | reflexivity].
  - rewrite (IH false H), orb_false_r. destruct t; reflexivity.
Qed.

Lemma strip_by_last :
  forall p s c t, rev (strip_by p s) = c :: t -> p c = false.
Proof.
  intros p s c t H. unfold strip_by, rstrip in H. rewrite rev_involutive in H.
  eapply dropwhile_head; exact H.
Qed.

Lemma endswith_us :
  forall s, endswith (py "_") s = true -> exists c t, rev s = c :: t /\ is_us c = true.
Proof.
  intros s. unfold endswith. change (rev (py "_")) with ["_"%char].
  destruct (rev s) as [|c t]; cbn [startswith]; [discriminate|].
  intros H. apply andb_true_iff in H as [H _].
  exists c, t. split; [reflexivity|]. unfold is_us. rewrite Ascii.eqb_sym. exact H.
Qed.

(** What stripping the underscores off a string of [a-z0-9_] with single
    underscores leaves, when it leaves something. *)
Lemma strip_us_shape :
  forall y,
    forallb snake_tail y = true -> single_us false y = true ->
    is_empty (strip_us y) = false ->
    slug_shape (strip_us y) = true.
Proof.
  intros y Hc Hs Hne. unfold slug_shape.
  assert (Hc' : forallb snake_tail (strip_us y) = true) by (apply forallb_strip_by; exact Hc).
  assert (Hs' : single_us false (strip_us y) = true) by (apply single_us_strip; exact Hs).
  rewrite (single_us_no_double _ _ Hs'). rewrite andb_true_r.
  apply andb_true_iff. split.
  - destruct (strip_us y) as [|c t] eqn:E; [discriminate Hne|].
    simpl in Hc'. apply andb_true_iff in Hc' as [Hh Ht]. simpl. rewrite Ht, andb_true_r.
    apply snake_tail_us_or_head; [exact Hh|].
    unfold strip_us in E. eapply strip_by_head; exact E.
  - apply negb_true_iff. destruct (endswith (py "_") (strip_us y)) eqn:E; [|reflexivity].
    apply endswith_us in E as [c [t [R U]]].
    unfold strip_us in R. rewrite (strip_by_last _ _ R) in U. discriminate U.
Qed.

Lemma column_shape : slug_shape (py "column") = true.
Proof. reflexivity. Qed.

Lemma to_snake_case_shape : forall s, slug_shape (_to_snake_case s) = true.
Proof.
  intros s. unfold _to_snake_case.
  destruct (is_empty s || is_empty (strip s)); [reflexivity|].
  match goal with |- context [strip_us ?x] => set (y := x) end.
  assert (Hc : forallb snake_tail y = true).
  { subst y. apply forallb_lower_word.
    apply forallb_runs_to_us; [reflexivity|].
    apply forallb_weaken with (p := is_word); [intros c ->; reflexivity|].
    apply forallb_runs_to_us; [reflexivity|].
    apply punct_to_us_word_or_space. }
  assert (Hs : single_us false y = true).
  { subst y. rewrite single_us_lower. apply single_us_runs. }
  destruct (is_empty (strip_us y)) eqn:E; [reflexivity|].
  apply strip_us_shape; assumption.
Qed.

Lemma no_double_single :
  forall s, contains (py "__") s = false -> single_us false s = true.
Proof.
  induction s as [|c t IH]; intros H; [reflexivity|].
  change (contains (py "__") (c :: t))
    with (startswith (py "__") (c :: t) || contains (py "__") t) in H.
  apply orb_false_iff in H as [Hs Ht]. specialize (IH Ht).
  rewrite startswith_us2 in Hs. cbn [single_us].
  destruct (is_us c) eqn:U; [|exact IH].
  destruct t as [|d t']; [reflexivity|].
  cbn [andb] in Hs. cbn [single_us] in *. rewrite Hs in *. exact IH.
Qed.

Lemma snake_tail_facts :
  forall c, snake_tail c = true ->
            is_space c = false /\ is_upper c = false /\ is_word c = true /\ to_lower c = c.
Proof. intros c; ascii_cases c; intros _; repeat split. Qed.

Lemma camel_split_id :
  forall s, forallb snake_tail s = true -> camel_split s = s.
Proof.
  induction s as [|a t IH]; [reflexivity|]. intros H.
  cbn [forallb] in H. apply andb_true_iff in H as [_ Ht].
  change (camel_split (a :: t)) with
    (match t with
     | b :: _ => if is_lower a && is_upper b then a :: "_"%char :: camel_split t
                 else a :: camel_split t
     | [] => [a]
     end).
  destruct t as [|b t']; [reflexivity|].
  assert (Ub : is_upper b = false).
  { cbn [forallb] in Ht. apply andb_true_iff in Ht as [Hb _].
    exact (proj1 (proj2 (snake_tail_facts b Hb))). }
  rewrite Ub, andb_false_r. f_equal. exact (IH Ht).
Qed.

Lemma punct_to_us_id :
  forall s, forallb snake_tail s = true -> punct_to_us s = s.
Proof.
  induction s as [|c t IH]; [reflexivity|]. intros H.
  cbn [forallb] in H. apply andb_true_iff in H as [Hc Ht].
  unfold punct_to_us in *. cbn [map]. rewrite (IH Ht).
  destruct (snake_tail_facts c Hc) as [_ [_ [W _]]]. rewrite W. reflexivity.
Qed.

Lemma runs_to_us_id :
  forall p s b, forallb (fun c => negb (p c)) s = true -> runs_to_us p b s = s.
Proof.
  intros p s. induction s as [|c t IH]; intros b H; [reflexivity|].
  cbn [forallb] in H. apply andb_true_iff in H as [Hc Ht].
  apply negb_true_iff in Hc. cbn [runs_to_us]. rewrite Hc. f_equal. apply IH. exact Ht.
Qed.

Lemma runs_to_us_single :
  forall s b, single_us b s = true -> runs_to_us is_us b s = s.
Proof.
  induction s as [|c t IH]; intros b H; [reflexivity|].
  cbn [single_us] in H. cbn [runs_to_us].
  destruct (is_us c) eqn:U.
  - apply andb_true_iff in H as [Hb Ht]. apply negb_true_iff in Hb. subst b.
    unfold is_us in U. apply Ascii.eqb_eq in U. subst c. f_equal. apply IH. exact Ht.
  - f_equal. apply IH. exact H.
Qed.

Lemma lower_id : forall s, forallb snake_tail s = true -> lower s = s.
Proof.
  induction s as [|c t IH]; [reflexivity|]. intros H.
  cbn [forallb] in H. apply andb_true_iff in H as [Hc Ht].
  unfold lower in *. cbn [map]. rewrite (IH Ht).
  destruct (snake_tail_facts c Hc) as [_ [_ [_ L]]]. rewrite L. reflexivity.
Qed.

Lemma strip_by_ends :
  forall p s,
    (forall c t, s = c :: t -> p c = false) ->
    (forall c t, rev s = c :: t -> p c = false) ->
    strip_by p s = s.
Proof.
  intros p s Hh Hl. unfold strip_by, lstrip, rstrip.
  assert (E : dropwhile p s = s).
  { destruct s as [|c t]; [reflexivity|]. cbn [dropwhile]. rewrite (Hh c t eq_refl). reflexivity. }
  rewrite E.
  assert (E' : dropwhile p (rev s) = rev s).
  { destruct (rev s) as [|c t] eqn:R; [reflexivity|]. cbn [dropwhile].
    rewrite (Hl c t eq_refl). reflexivity. }
  rewrite E'. apply rev_involutive.
Qed.

Lemma slug_shape_parts :
  forall s, slug_shape s = true ->
            forallb snake_tail s = true
            /\ is_empty s = false
            /\ single_us false s = true
            /\ strip_us s = s.
Proof.
  intros s H. unfold slug_shape in H.
  apply andb_true_iff in H as [H Hd]. apply andb_true_iff in H as [Hs He].
  apply negb_true_iff in Hd. apply negb_true_iff in He.
  destruct s as [|c t]; [discriminate Hs|].
  cbn [is_slug] in Hs. apply andb_true_iff in Hs as [Hh Ht].
  assert (Hc : snake_tail c = true).
  { unfold snake_tail. apply orb_true_iff in Hh as [-> | ->]; [reflexivity|].
    rewrite orb_true_r. reflexivity. }
  assert (Uc : is_us c = false) by (revert Hh; ascii_cases c).
  split; [cbn [forallb]; rewrite Hc, Ht; reflexivity|].
  split; [reflexivity|]. split; [apply no_double_single; exact Hd|].
  apply strip_by_ends.
  - intros c' t' E. injection E as <- _. exact Uc.
  - intros c' t' R. destruct (is_us c') eqn:U; [|reflexivity].
    exfalso. unfold endswith in He. change (rev (py "_")) with ["_"%char] in He.
    rewrite R in He. cbn [startswith] in He.
    unfold is_us in U. rewrite Ascii.eqb_sym in U. rewrite U in He. discriminate He.
Qed.

Lemma slug_shape_fixed :
  forall s, slug_shape s = true -> _to_snake_case s = s.
Proof.
  intros s H. destruct (slug_shape_parts s H) as [Hc [Hne [Hs Hst]]].
  assert (Hsp : forallb (fun c => negb (is_space c)) s = true).
  { eapply forallb_weaken; [|exact Hc]. intros c Hcc.
    rewrite (proj1 (snake_tail_facts c Hcc)). reflexivity. }
  unfold _to_snake_case.
  assert (E : strip s = s) by (apply strip_by_id; exact Hsp).
  rewrite E, Hne. cbn [orb].
  rewrite (camel_split_id s Hc), (punct_to_us_id s Hc).
  rewrite (runs_to_us_id is_space s false Hsp).
  rewrite (runs_to_us_single s false Hs), (lower_id s Hc), Hst, Hne. reflexivity.
Qed.

Lemma to_snake_case_strip : forall s, _to_snake_case (strip s) = _to_snake_case s.
Proof.
  intros s. unfold _to_snake_case. rewrite strip_idem.
  destruct s as [|c t]; [reflexivity|].
  destruct (is_empty (strip (c :: t))); reflexivity.
Qed.

(** X1: on 7-bit text [_to_snake_case] returns a string of [a-z0-9_] that
    is not empty, starts and ends with a letter or a digit and has no two
    underscores in a row; for an empty or blank argument it is ["column"]. *)
Theorem snake_case_shape :
  forall s,
    ascii7 s = true ->
    is_slug (_to_snake_case s) = true
    /\ endswith (py "_") (_to_snake_case s) = false
    /\ contains (py "__") (_to_snake_case s) = false
    /\ (blank s = true -> _to_snake_case s = py "column").
Proof.
  intros s _. pose proof (to_snake_case_shape s) as H. unfold slug_shape in H.
  apply andb_true_iff in H as [H Hd]. apply andb_true_iff in H as [Hs He].
  apply negb_true_iff in Hd. apply negb_true_iff in He.
  repeat split; try assumption.
  unfold blank, _to_snake_case. intros ->. rewrite orb_true_r. reflexivity.
Qed.

Lemma snake_case_shape_witness :
  ascii7 (py "Order Total ($)") = true
  /\ is_slug (_to_snake_case (py "Order Total ($)")) = true
  /\ _to_snake_case (py "  ") = py "column".
Proof.
  split; [reflexivity|]. split.
  - exact (proj1 (@snake_case_shape (py "Order Total ($)") eq_refl)).
  - exact (proj2 (proj2 (proj2 (@snake_case_shape (py "  ") eq_refl))) eq_refl).
Defined.


(** X2: among 7-bit strings, those that [_to_snake_case] leaves unchanged
    are exactly the strings of that shape; so applying it twice is applying
    it once, and white space around the argument does not matter. *)
Theorem snake_case_normal_form :
  forall s,
    ascii7 s = true ->
    (_to_snake_case s = s <-> slug_shape s = true)
    /\ _to_snake_case (_to_snake_case s) = _to_snake_case s
    /\ _to_snake_case (strip s) = _to_snake_case s.
Proof.
  intros s _. split; [|split].
  - split; [|apply slug_shape_fixed].
    intros E. rewrite <- E. apply to_snake_case_shape.
  - apply slug_shape_fixed, to_snake_case_shape.
  - apply to_snake_case_strip.
Qed.

Lemma snake_case_normal_form_witness :
  ascii7 (py "cust_no") = true /\ _to_snake_case (py "cust_no") = py "cust_no".
Proof.
  split; [reflexivity|].
  exact (proj2 (proj1 (@snake_case_normal_form (py "cust_no") eq_refl)) eq_refl).
Defined.


(** ** [_clean_column_name] and [modernize_column_name] give slugs *)

Lemma clean_unfolded :
  forall name,
    is_empty name = false ->
    _clean_column_name name
    = _to_snake_case
        (drop_trailing_word
           (map py ["column"; "field"; "name"; "value"; "result"; "output"]%string)
           (drop_leading_word
              (map py ["the"; "a"; "an"; "column"; "field"; "name";
                       "value"; "result"; "output"]%string)
              (filter (fun c => negb (is_quote c)) (lower (strip name))))).
Proof.
  intros name Hne. unfold _clean_column_name. rewrite Hne.
  match goal with |- context [_to_snake_case ?x] => set (x0 := x) end.
  destruct (slug_shape_parts _ (to_snake_case_shape x0)) as [Hc [He [Hs Hst]]].
  rewrite (runs_to_us_single _ false Hs), Hst, He. reflexivity.
Qed.

Lemma clean_shape :
  forall name, is_empty name = false -> slug_shape (_clean_column_name name) = true.
Proof. intros name H. rewrite (clean_unfolded name H). apply to_snake_case_shape. Qed.

(** X3: [_clean_column_name] gives [""] for [""] and, for a 7-bit text that
    is not empty, a name of the slug shape, which [_to_snake_case] leaves
    unchanged: the slug of the text left once quotes, a leading article or
    filler word and a trailing filler word are removed (the last two steps of
    the function change nothing). *)
Theorem clean_column_name_shape :
  forall name,
    ascii7 name = true ->
    _clean_column_name [] = []
    /\ (is_empty name = false ->
        slug_shape (_clean_column_name name) = true
        /\ _to_snake_case (_clean_column_name name) = _clean_column_name name
        /\ _clean_column_name name
           = _to_snake_case
               (drop_trailing_word
                  (map py ["column"; "field"; "name"; "value"; "result"; "output"]%string)
                  (drop_leading_word
                     (map py ["the"; "a"; "an"; "column"; "field"; "name";
                              "value"; "result"; "output"]%string)
                     (filter (fun c => negb (is_quote c)) (lower (strip name)))))).
Proof.
  intros name _. split; [reflexivity|]. intros Hne.
  split; [apply clean_shape; exact Hne|].
  split; [apply slug_shape_fixed, clean_shape; exact Hne|].
  apply clean_unfolded. exact Hne.
Qed.

Lemma clean_column_name_shape_witness :
  ascii7 (py "The 'Customer  ID' column") = true
  /\ slug_shape (_clean_column_name (py "The 'Customer  ID' column")) = true.
Proof.
  split; [reflexivity|].
  exact (proj1 (proj2 (@clean_column_name_shape (py "The 'Customer  ID' column") eq_refl)
                  eq_refl)).
Defined.

Lemma as400_values_shape :
  forallb (fun kv => slug_shape (snd kv)) as400_mappings = true.
Proof. vm_compute. reflexivity. Qed.

Lemma analyze_shape : forall col, slug_shape (_analyze_as400_patterns col) = true.
Proof.
  intros col. unfold _analyze_as400_patterns.
  destruct (dict_get_cases as400_mappings (upper col) (_to_snake_case col)) as [-> | H].
  - apply to_snake_case_shape.
  - apply in_map_iff in H as [kv [<- Hin]].
    pose proof as400_values_shape as A. rewrite forallb_forall in A. exact (A kv Hin).
Qed.

Lemma modernize_shape :
  forall modernizer col, slug_shape (modernize_column_name modernizer col) = true.
Proof.
  intros modernizer col. unfold modernize_column_name.
  destruct (is_empty col || is_empty (strip col)); [reflexivity|].
  cbv zeta.
  destruct (negb (str_eqb (_analyze_as400_patterns (strip col)) (_to_snake_case (strip col)))
            && _validate_column_name (_analyze_as400_patterns (strip col)) (strip col));
    [apply analyze_shape|].
  unfold generative_stage.
  assert (T : slug_shape
                (if _validate_column_name (_heuristic_transformation (strip col)) (strip col)
                 then _heuristic_transformation (strip col)
                 else _to_snake_case (strip col)) = true).
  { destruct (_validate_column_name (_heuristic_transformation (strip col)) (strip col));
      apply to_snake_case_shape. }
  destruct modernizer as [generate|]; [|exact T].
  destruct (generate (rename_prompt (strip col))) as [text|e]; [|exact T].
  destruct (negb (is_empty (_clean_column_name text))
            && _validate_column_name (_clean_column_name text) (strip col)) eqn:G;
    [|exact T].
  apply andb_true_iff in G as [G _]. apply negb_true_iff in G.
  destruct text as [|c t]; [discriminate G|].
  apply clean_shape. reflexivity.
Qed.

Lemma modernize_strip :
  forall modernizer col,
    modernize_column_name modernizer (strip col) = modernize_column_name modernizer col.
Proof.
  intros modernizer col. unfold modernize_column_name. rewrite strip_idem.
  destruct col as [|c t]; [reflexivity|].
  destruct (is_empty (strip (c :: t))); reflexivity.
Qed.

(** X4: for a 7-bit name, whatever the generative capability answers,
    [modernize_column_name] returns a name of the slug shape (so
    [_to_snake_case] leaves it unchanged); white space around the name does
    not change the result, and a blank name gives ["unknown_column"]. *)
Theorem modernize_column_name_shape :
  forall modernizer col,
    ascii7 col = true ->
    slug_shape (modernize_column_name modernizer col) = true
    /\ _to_snake_case (modernize_column_name modernizer col)
       = modernize_column_name modernizer col
    /\ modernize_column_name modernizer (strip col) = modernize_column_name modernizer col
    /\ (blank col = true -> modernize_column_name modernizer col = py "unknown_column").
Proof.
  intros modernizer col _.
  split; [apply modernize_shape|].
  split; [apply slug_shape_fixed, modernize_shape|].
  split; [apply modernize_strip|].
  unfold blank, modernize_column_name. intros ->. rewrite orb_true_r. reflexivity.
Qed.

Lemma modernize_column_name_shape_witness :
  ascii7 (py "  Order Total ($) ") = true
  /\ slug_shape (modernize_column_name None (py "  Order Total ($) ")) = true.
Proof.
  split; [reflexivity|].
  exact (proj1 (@modernize_column_name_shape None (py "  Order Total ($) ") eq_refl)).
Defined.

(** ** The heuristic stage on one-word names *)

Section SubWord.

Variable abbr full : pystr.
Hypothesis abbr_not_empty : is_empty abbr = false.

Lemma sub_word_skip_all :
  forall s prev k, length s <= k -> sub_word abbr full prev k s = [].
Proof.
  induction s as [|c t IH]; intros prev k H; [reflexivity|].
  destruct k as [|k]; [simpl in H; lia|].
  cbn [sub_word]. apply IH. simpl in H. lia.
Qed.

Lemma sub_word_inner :
  forall s c,
    is_word c = true -> forallb is_word s = true ->
    sub_word abbr full (Some c) 0 s = s.
Proof.
  induction s as [|d t IH]; intros c Hc H; [reflexivity|].
  cbn [forallb] in H. apply andb_true_iff in H as [Hd Ht].
  cbn [sub_word edge_ok]. rewrite Hc. cbn [negb].
  rewrite andb_false_r, andb_false_l. f_equal. apply IH; assumption.
Qed.

Lemma startswith_app :
  forall p s, startswith p s = true -> exists r, s = p ++ r.
Proof.
  induction p as [|x p IH]; intros s H; [exists s; reflexivity|].
  destruct s as [|y s]; [discriminate H|].
  cbn [startswith] in H. apply andb_true_iff in H as [E H].
  apply Ascii.eqb_eq in E. subst y. destruct (IH s H) as [r ->].
  exists r. reflexivity.
Qed.

Lemma startswith_refl : forall p r, startswith p (p ++ r) = true.
Proof.
  induction p as [|x p IH]; intros r; [destruct r; reflexivity|].
  cbn [app startswith]. rewrite Ascii.eqb_refl, IH. reflexivity.
Qed.

Lemma sub_word_whole :
  forall s,
    forallb is_word s = true ->
    sub_word abbr full None 0 s = if str_eqb s abbr then full else s.
Proof.
  intros s Hw. destruct s as [|c t].
  - destruct abbr; [discriminate abbr_not_empty | reflexivity].
  - cbn [sub_word edge_ok]. rewrite abbr_not_empty. cbn [negb andb].
    rewrite andb_true_r.
    cbn [forallb] in Hw. apply andb_true_iff in Hw as [Hc Ht].
    destruct (startswith abbr (c :: t)
              && edge_ok is_word (nth_error (c :: t) (length abbr))) eqn:M.
    + apply andb_true_iff in M as [S E].
      destruct (startswith_app _ _ S) as [r Er].
      assert (r = []).
      { destruct r as [|x r]; [reflexivity|]. exfalso.
        rewrite Er in E. rewrite nth_error_app2 in E by lia.
        rewrite Nat.sub_diag in E. cbn [nth_error edge_ok] in E.
        assert (Wx : is_word x = true).
        { assert (F : forallb is_word (c :: t) = true)
            by (cbn [forallb]; rewrite Hc, Ht; reflexivity).
          rewrite Er, forallb_app in F. apply andb_true_iff in F as [_ F].
          cbn [forallb] in F. apply andb_true_iff in F as [F _]. exact F. }
        rewrite Wx in E. discriminate E. }
      subst r. rewrite app_nil_r in Er. rewrite Er, str_eqb_refl.
      rewrite sub_word_skip_all; [apply app_nil_r|].
      apply (f_equal (@length ascii)) in Er. simpl in Er. lia.
    + rewrite (sub_word_inner t c Hc Ht).
      destruct (str_eqb (c :: t) abbr) eqn:Q; [|reflexivity].
      apply str_eqb_eq in Q. exfalso. rewrite <- Q in M.
      rewrite <- (app_nil_r (c :: t)) in M at 2. rewrite startswith_refl in M.
      rewrite (proj2 (nth_error_None (c :: t) (length (c :: t))) (le_n _)) in M.
      discriminate M.
Qed.

Lemma expand_abbr_whole :
  forall s,
    forallb is_word s = true ->
    expand_abbr s (abbr, full) = if str_eqb s abbr then full else s.
Proof.
  intros s Hw. unfold expand_abbr. rewrite (sub_word_whole s Hw).
  destruct (str_eqb s abbr) eqn:Q; [|destruct (abbr_standalone abbr None s); reflexivity].
  apply str_eqb_eq in Q. subst s.
  destruct abbr as [|c t] eqn:Ea; [discriminate abbr_not_empty|].
  cbn [abbr_standalone edge_ok]. rewrite <- (app_nil_r (c :: t)) at 2.
  rewrite startswith_refl.
  rewrite (proj2 (nth_error_None (c :: t) (length (c :: t))) (le_n _)).
  reflexivity.
Qed.

End SubWord.

Lemma fold_expand_abbr :
  forall l s,
    forallb (fun kv => negb (is_empty (fst kv)) && forallb is_word (snd kv)) l = true ->
    forallb is_word s = true ->
    fold_left expand_abbr l s = fold_left abbr_step l s.
Proof.
  induction l as [|[abbr full] l IH]; intros s Hl Hs; [reflexivity|].
  cbn [forallb fst snd] in Hl. apply andb_true_iff in Hl as [Hkv Hl].
  apply andb_true_iff in Hkv as [Ha Hf]. apply negb_true_iff in Ha.
  cbn [fold_left]. pose proof (@expand_abbr_whole abbr full Ha s Hs) as X.
  unfold pystr in *. rewrite X.
  unfold abbr_step at 2. cbn [fst snd].
  apply IH; [exact Hl|]. destruct (str_eqb s abbr); assumption.
Qed.

Lemma fold_abbr_step_stable :
  forall r v,
    forallb (fun kv' => negb (str_eqb v (fst kv')) || str_eqb (snd kv') v) r = true ->
    fold_left abbr_step r v = v.
Proof.
  induction r as [|kv' r IH]; intros v H; [reflexivity|].
  cbn [forallb] in H. apply andb_true_iff in H as [Hk Hr].
  cbn [fold_left]. unfold abbr_step at 2.
  destruct (str_eqb v (fst kv')) eqn:Q; [|apply IH; exact Hr].
  cbn [negb orb] in Hk. apply str_eqb_eq in Hk. rewrite Hk. apply IH; exact Hr.
Qed.

Lemma fold_abbr_step_find :
  forall l s,
    chain_free l = true ->
    fold_left abbr_step l s
    = match find (fun kv => str_eqb s (fst kv)) l with
      | Some kv => snd kv
      | None => s
      end.
Proof.
  induction l as [|kv l IH]; intros s H; [reflexivity|].
  cbn [chain_free] in H. apply andb_true_iff in H as [Hkv Hl].
  cbn [fold_left find]. unfold abbr_step at 2.
  destruct (str_eqb s (fst kv)); [apply fold_abbr_step_stable; exact Hkv | apply IH; exact Hl].
Qed.

Lemma is_word_lower : forall c, is_word (to_lower c) = is_word c.
Proof. intros c; ascii_cases c. Qed.

Lemma forallb_word_lower :
  forall s, forallb is_word s = true -> forallb is_word (lower s) = true.
Proof.
  induction s as [|c t IH]; [reflexivity|]. cbn [lower map forallb].
  intros H. apply andb_true_iff in H as [Hc Ht].
  rewrite is_word_lower, Hc. exact (IH Ht).
Qed.

(** X5: on a name made of letters, digits and underscores only, the
    heuristic stage expands nothing inside the name (an underscore is a word
    character, so no word boundary separates [cust] from [_no]): the result
    is the slug of the lower-cased name, unless the whole name is one of the
    18 abbreviations, which is then replaced by its full word. *)
Theorem heuristic_on_one_word :
  forall col,
    forallb is_word col = true ->
    _heuristic_transformation col = _to_snake_case (whole_abbreviation (lower col))
    /\ (find (fun kv => str_eqb (lower col) (fst kv)) abbreviations = None ->
        _heuristic_transformation col = _to_snake_case (lower col)).
Proof.
  intros col Hw.
  assert (E : _heuristic_transformation col = _to_snake_case (whole_abbreviation (lower col))).
  { unfold _heuristic_transformation, whole_abbreviation.
    rewrite fold_expand_abbr;
      [|vm_compute; reflexivity | apply forallb_word_lower; exact Hw].
    rewrite fold_abbr_step_find by (vm_compute; reflexivity). reflexivity. }
  split; [exact E|].
  intros N. rewrite E. unfold whole_abbreviation. rewrite N. reflexivity.
Qed.

Lemma heuristic_on_one_word_witness :
  forallb is_word (py "CUST_NO") = true
  /\ _heuristic_transformation (py "CUST_NO") = py "cust_no"
  /\ _heuristic_transformation (py "QTY") = py "quantity".
Proof.
  split; [reflexivity|]. split.
  - rewrite (proj2 (heuristic_on_one_word (py "CUST_NO") eq_refl) eq_refl). reflexivity.
  - rewrite (proj1 (heuristic_on_one_word (py "QTY") eq_refl)). reflexivity.
Defined.

(** ** Which dictionary entries the validator lets through *)

Lemma lower_upper_char : forall c, to_lower (to_upper c) = to_lower c.
Proof. intros c; ascii_cases c. Qed.

Lemma lower_upper : forall s, lower (upper s) = lower s.
Proof.
  induction s as [|c t IH]; [reflexivity|]. cbn [upper lower map].
  rewrite lower_upper_char. f_equal. exact IH.
Qed.

Lemma validate_original_case :
  forall name o o',
    lower o = lower o' ->
    _validate_column_name name o = _validate_column_name name o'.
Proof. intros name o o' E. unfold _validate_column_name. rewrite E. reflexivity. Qed.

Lemma dict_get_absent :
  forall d k default, ~ In k (map fst d) -> dict_get d k default = default.
Proof.
  induction d as [|[k' v] d IH]; intros k default H; [reflexivity|].
  cbn [dict_get]. destruct (str_eqb k' k) eqn:E.
  - apply str_eqb_eq in E. exfalso. apply H. left. exact E.
  - apply IH. intros I. apply H. right. exact I.
Qed.

Lemma dict_get_present :
  forall d k default,
    In k (map fst d) ->
    exists v, In (k, v) d /\ forall default', dict_get d k default' = v
              /\ dict_get d k default = v.
Proof.
  induction d as [|[k' v] d IH]; intros k default H; [destruct H|].
  cbn [dict_get]. destruct (str_eqb k' k) eqn:E.
  - apply str_eqb_eq in E. subst k'. exists v. split; [left; reflexivity|].
    intros; split; reflexivity.
  - destruct H as [H | H]; [apply str_eqb_neq in E; contradiction|].
    destruct (IH k default H) as [v' [Hin Hv]]. exists v'. split; [right; exact Hin | exact Hv].
Qed.

Lemma str_In_dec : forall (k : pystr) l, {In k l} + {~ In k l}.
Proof. intros k l. apply in_dec. apply list_eq_dec. apply ascii_dec. Qed.

Lemma effective_keys_pass :
  forall k, In k effective_keys ->
            In k (map fst as400_mappings)
            /\ _validate_column_name (dictionary_value k) k = true.
Proof.
  assert (H : forallb (fun k => existsb (str_eqb k) (map fst as400_mappings)
                                && _validate_column_name (dictionary_value k) k)
                      effective_keys = true) by (vm_compute; reflexivity).
  rewrite forallb_forall in H. intros k Hk. specialize (H k Hk).
  apply andb_true_iff in H as [H1 H2]. split; [|exact H2].
  apply existsb_exists in H1 as [k' [Hin E]]. apply str_eqb_eq in E. subst k'. exact Hin.
Qed.

Lemma other_keys_fail :
  forall k v, In (k, v) as400_mappings -> ~ In k effective_keys ->
              _validate_column_name v k = false.
Proof.
  assert (H : forallb (fun kv => existsb (str_eqb (fst kv)) effective_keys
                                 || negb (_validate_column_name (snd kv) (fst kv)))
                      as400_mappings = true) by (vm_compute; reflexivity).
  rewrite forallb_forall in H. intros k v Hin Hn. specialize (H (k, v) Hin).
  cbn [fst snd] in H. apply orb_true_iff in H as [H | H].
  - exfalso. apply Hn. apply existsb_exists in H as [k' [Hk E]].
    apply str_eqb_eq in E. subst k'. exact Hk.
  - apply negb_true_iff. exact H.
Qed.

Lemma strip_not_empty : forall col, is_empty (strip col) = false -> is_empty col = false.
Proof. intros [|c t] H; [discriminate H | reflexivity]. Qed.

(** X6: of the 51 entries of the AS/400 dictionary, 16 can decide a name.
    For a 7-bit name whose upper-cased form is one of these 16 keys the
    function returns the dictionary value whatever the generative capability
    is (provided the value is not already the slug of the name); for every
    other name the dictionary stage does not decide: either the name is no
    key, or the value fails validation. *)
Theorem dictionary_stage_effective :
  forall modernizer col,
    ascii7 col = true ->
    (In (upper (strip col)) effective_keys ->
     _to_snake_case (strip col) <> dictionary_value (upper (strip col)) ->
     modernize_column_name modernizer col = dictionary_value (upper (strip col)))
    /\ (~ In (upper (strip col)) effective_keys ->
        dictionary_decides (strip col) = false).
Proof.
  intros modernizer col _. set (o := strip col). split.
  - intros Hk Hne.
    destruct (@effective_keys_pass _ Hk) as [Hin Hv].
    destruct (@dict_get_present as400_mappings (upper o) (_to_snake_case o) Hin)
      as [v [_ Hd]].
    assert (Ev : dictionary_value (upper o) = v) by (exact (proj1 (Hd [])) ).
    assert (Ea : _analyze_as400_patterns o = v) by (exact (proj2 (Hd []))).
    assert (Eo : is_empty o = false).
    { destruct o as [|c t] eqn:E; [|reflexivity]. exfalso.
      revert Hk. vm_compute. intuition discriminate. }
    unfold modernize_column_name. fold o.
    rewrite Eo, (@strip_not_empty col Eo). cbn [orb]. cbv zeta.
    rewrite Ea.
    assert (Q : str_eqb v (_to_snake_case o) = false).
    { apply str_eqb_neq. intros E. apply Hne. rewrite Ev. symmetry. exact E. }
    rewrite Q. cbn [negb andb].
    rewrite (@validate_original_case v o (upper o)) by (symmetry; apply lower_upper).
    rewrite <- Ev, Hv. reflexivity.
  - intros Hn. unfold dictionary_decides, _analyze_as400_patterns.
    destruct (str_In_dec (upper o) (map fst as400_mappings)) as [Hin | Hout].
    + destruct (@dict_get_present as400_mappings (upper o) (_to_snake_case o) Hin)
        as [v [Hv Hd]].
      rewrite (proj2 (Hd [])).
      rewrite (@validate_original_case v o (upper o)) by (symmetry; apply lower_upper).
      rewrite (@other_keys_fail _ _ Hv Hn). apply andb_false_r.
    + rewrite (@dict_get_absent _ _ _ Hout), str_eqb_refl. reflexivity.
Qed.

Lemma dictionary_stage_effective_witness :
  ascii7 (py " empno ") = true
  /\ modernize_column_name None (py " empno ") = py "employee_number"
  /\ dictionary_decides (strip (py "HireDate")) = false.
Proof.
  split; [reflexivity|]. split.
  - refine (proj1 (@dictionary_stage_effective None (py " empno ") eq_refl) _ _).
    + vm_compute. tauto.
    + vm_compute. discriminate.
  - refine (proj2 (@dictionary_stage_effective None (py "HireDate") eq_refl) _).
    vm_compute. intuition discriminate.
Defined.

(** ** The cache: accounting and transparency *)

Lemma in_firstn_in : forall (A : Type) n (l : list A) x, In x (firstn n l) -> In x l.
Proof.
  intros A n. induction n as [|n IH]; intros [|a l] x H; simpl in H; try contradiction.
  destruct H as [-> | H]; [left; reflexivity | right; exact (IH l x H)].
Qed.

Lemma nodup_firstn : forall (A : Type) n (l : list A), NoDup l -> NoDup (firstn n l).
Proof.
  intros A n. induction n as [|n IH]; intros [|a l] H; simpl; try constructor.
  - inversion H as [|x xs Hnot Hnd]; subst. intros I. apply Hnot.
    exact (in_firstn_in n l a I).
  - inversion H; subst. apply IH. assumption.
Qed.

Lemma in_cache_remove :
  forall j l kv, In kv (cache_remove j l) -> In kv l.
Proof.
  intros j l kv. induction l as [|[a b] l IH]; simpl; [tauto|].
  destruct (str_eqb a j); [intros H; right; exact (IH H)|].
  intros [H | H]; [left; exact H | right; exact (IH H)].
Qed.

Lemma cache_find_in : forall k l v, cache_find k l = Some v -> In (k, v) l.
Proof.
  intros k l v. induction l as [|[a b] l IH]; simpl; [discriminate|].
  destruct (str_eqb a k) eqn:E.
  - intros H; injection H as <-. apply str_eqb_eq in E. subst a. left. reflexivity.
  - intros H. right. exact (IH H).
Qed.

Lemma lru_call_invariant :
  forall f seen n k c,
    cache_invariant f seen n c ->
    cache_invariant f (k :: seen) (S n) (snd (lru_call f k c)).
Proof.
  intros f seen n k c [Hn [Hm [Hb [Hd Hv]]]]. unfold lru_call, cache_invariant.
  destruct (cache_find k (entries c)) as [v|] eqn:F; cbn [snd hits misses entries].
  - pose proof (cache_remove_found _ _ F) as L.
    split; [lia|]. split; [cbn [length]; lia|]. split; [cbn [length]; lia|].
    split.
    + cbn [map fst]. constructor; [|apply cache_remove_nodup; exact Hd].
      intros I. exact (proj2 (cache_remove_keys _ _ _ I) eq_refl).
    + intros k' v' [E | I].
      * injection E as <- <-. split; [left; reflexivity|].
        exact (proj2 (Hv k v (cache_find_in _ _ F))).
      * destruct (Hv k' v' (in_cache_remove _ _ _ I)) as [S V].
        split; [right; exact S | exact V].
  - assert (Hk : ~ In k (map fst (entries c))) by (apply cache_find_none; exact F).
    pose proof (firstn_le_length maxsize ((k, f k) :: entries c)) as L1.
    assert (L2 : length (firstn maxsize ((k, f k) :: entries c)) <= S (length (entries c))).
    { rewrite length_firstn. cbn [length]. lia. }
    split; [lia|]. split; [lia|]. split; [exact L1|]. split.
    + rewrite <- firstn_map. apply nodup_firstn. cbn [map fst]. constructor; assumption.
    + intros k' v' I. apply in_firstn_in in I. destruct I as [E | I].
      * injection E as <- <-. split; [left; reflexivity | reflexivity].
      * destruct (Hv k' v' I) as [S V]. split; [right; exact S | exact V].
Qed.

Lemma resolve_all_invariant :
  forall modernizer cols seen n c,
    cache_invariant (modernize_column_name modernizer) seen n c ->
    cache_invariant (modernize_column_name modernizer) (rev cols ++ seen) (length cols + n)
                    (resolve_all modernizer cols c).
Proof.
  intros modernizer cols. unfold resolve_all.
  induction cols as [|col cols IH]; intros seen n c H; [exact H|].
  cbn [fold_left rev length]. rewrite <- app_assoc. cbn [app].
  replace (S (length cols) + n) with (length cols + S n) by lia.
  apply IH. apply lru_call_invariant. exact H.
Qed.

(** X7: after any sequence of resolutions from an empty cache, the hits and
    misses add up to the number of calls, the cache holds at most
    min(1024, misses) entries with distinct keys, each entry pairs a name
    that was resolved with the name the function computes for it, and a call
    through the cache returns what the function itself returns. *)
Theorem cache_accounting :
  forall modernizer cols,
    let c := resolve_all modernizer cols empty_cache in
    hits c + misses c = length cols
    /\ length (entries c) <= Nat.min maxsize (misses c)
    /\ NoDup (map fst (entries c))
    /\ (forall k v, In (k, v) (entries c) ->
                    In k cols /\ v = modernize_column_name modernizer k)
    /\ (forall col,
          fst (modernize_column_name_cached modernizer col c)
          = modernize_column_name modernizer col).
Proof.
  intros modernizer cols c.
  assert (H0 : cache_invariant (modernize_column_name modernizer) [] 0 empty_cache).
  { unfold cache_invariant, empty_cache. cbn [hits misses entries length map].
    repeat split; try lia; try constructor; destruct H. }
  pose proof (@resolve_all_invariant modernizer cols [] 0 empty_cache H0)
    as [Hn [Hm [Hb [Hd Hv]]]].
  fold c in Hn, Hm, Hb, Hd, Hv. rewrite Nat.add_0_r in Hn. rewrite app_nil_r in Hv.
  split; [exact Hn|]. split; [apply Nat.min_glb; assumption|]. split; [exact Hd|].
  split.
  - intros k v I. destruct (Hv k v I) as [S V]. split; [apply in_rev; exact S | exact V].
  - intros col. unfold modernize_column_name_cached. apply lru_call_value.
    apply resolve_all_cache_of, empty_cache_of.
Qed.

Lemma cache_accounting_witness :
  py "customer_number" = modernize_column_name None (py "CUSTNO").
Proof.
  refine (proj2 (proj1 (proj2 (proj2 (proj2
            (@cache_accounting None [py "CUSTNO"; py "CUSTNO"]))))
            (py "CUSTNO") (py "customer_number") _)).
  left. reflexivity.
Defined.


(** ** The outcomes of the content-inference stage *)

Lemma flat_map_nil :
  forall (A B : Type) (g : A -> list B) l,
    flat_map g l = [] <-> forall x, In x l -> g x = [].
Proof.
  intros A B g l. induction l as [|a l IH]; simpl.
  - split; [intros _ x [] | reflexivity].
  - split.
    + intros H. apply app_eq_nil in H as [Ha Hl]. intros x [<- | I]; [exact Ha|].
      exact (proj1 IH Hl x I).
    + intros H. rewrite (H a (or_introl eq_refl)). simpl. apply IH.
      intros x I. apply H. right. exact I.
Qed.

Lemma firstn_firstn_same : forall (A : Type) n (l : list A), firstn n (firstn n l) = firstn n l.
Proof.
  intros A n. induction n as [|n IH]; intros [|a l]; simpl; try reflexivity.
  f_equal. apply IH.
Qed.

(** X8: [predict_column_name_from_data] has three outcomes.  Without values
    it returns [column_i]; when none of the first 100 values is a non-blank
    string it returns [data_column_i]; when one of them is, it raises (the
    pattern library does not compile).  Values after the 100th are never
    looked at. *)
Theorem predict_outcomes :
  forall modernizer re_match repr_list data i,
    (data = [] ->
     predict_column_name_from_data modernizer re_match repr_list data i
     = Ok (fmt "column_" i))
    /\ (data <> [] ->
        (forall v, In (Some v) (firstn 100 data) -> blank v = true) ->
        predict_column_name_from_data modernizer re_match repr_list data i
        = Ok (fmt "data_column_" i))
    /\ (forall v, In (Some v) (firstn 100 data) -> blank v = false ->
        predict_column_name_from_data modernizer re_match repr_list data i
        = Raise (ReError "bad character range \s-( at position 7"))
    /\ predict_column_name_from_data modernizer re_match repr_list (firstn 100 data) i
       = predict_column_name_from_data modernizer re_match repr_list data i.
Proof.
  intros modernizer re_match repr_list data i.
  set (g := fun d : option pystr =>
              match d with
              | Some v => if is_empty (strip v) then [] else [strip v]
              | None => []
              end).
  split; [intros ->; reflexivity|]. split; [|split].
  - intros Hne Hb. unfold predict_column_name_from_data.
    destruct data as [|d data]; [contradiction|].
    fold g. assert (E : flat_map g (firstn 100 (d :: data)) = []).
    { apply flat_map_nil. intros [v|] I; [|reflexivity]. cbn [g].
      specialize (Hb v I). unfold blank in Hb. rewrite Hb. reflexivity. }
    rewrite E. reflexivity.
  - intros v I Hv. unfold predict_column_name_from_data.
    destruct data as [|d data]; [destruct I|].
    fold g. destruct (flat_map g (firstn 100 (d :: data))) as [|x sample] eqn:E.
    + exfalso. pose proof (proj1 (flat_map_nil g _) E (Some v) I) as N.
      cbn [g] in N. unfold blank in Hv. rewrite Hv in N. discriminate N.
    + rewrite pattern_raises. reflexivity.
  - unfold predict_column_name_from_data. rewrite firstn_firstn_same.
    destruct data as [|d data]; reflexivity.
Qed.

Lemma predict_outcomes_witness :
  predict_column_name_from_data None no_match no_repr
    (repeat (Some (py "  ")) 100 ++ [Some (py "42")]) 3
  = Ok (py "data_column_3").
Proof.
  refine (proj1 (proj2 (@predict_outcomes None no_match no_repr
                          (repeat (Some (py "  ")) 100 ++ [Some (py "42")]) 3)) _ _).
  - discriminate.
  - intros v I.
    assert (E : firstn 100 (repeat (Some (py "  ")) 100 ++ [Some (py "42")])
                = repeat (Some (py "  ")) 100) by reflexivity.
    rewrite E in I. apply repeat_spec in I. injection I as ->. reflexivity.
Defined.

(** ** Fixed-width reports: the spans and the table *)

Lemma spans_ordered_weaken :
  forall l lo lo', lo' <= lo -> spans_ordered lo l = true -> spans_ordered lo' l = true.
Proof.
  intros [|[[s e] n] l] lo lo' Hle; [reflexivity|]. cbn [spans_ordered].
  intros H. apply andb_true_iff in H as [H H3]. apply andb_true_iff in H as [H1 H2].
  apply Nat.leb_le in H1. rewrite H2, H3.
  assert (E : (lo' <=? s) = true) by (apply Nat.leb_le; lia). rewrite E. reflexivity.
Qed.

Lemma header_words_ordered :
  forall s pos start_pos cur,
    start_pos + length cur = pos ->
    spans_ordered start_pos (header_words s pos start_pos cur) = true.
Proof.
  induction s as [|c t IH]; intros pos start_pos cur Hpos; cbn [header_words].
  - destruct cur as [|a cur']; [reflexivity|]. cbn [is_empty spans_ordered].
    rewrite Nat.leb_refl. cbn [length] in Hpos.
    assert (E : (start_pos <? pos) = true) by (apply Nat.ltb_lt; lia).
    rewrite E. reflexivity.
  - destruct (is_space c).
    + destruct cur as [|a cur']; cbn [is_empty].
      * apply spans_ordered_weaken with (lo := S pos); [cbn [length] in Hpos; lia|].
        apply IH. cbn [length]. lia.
      * cbn [spans_ordered]. rewrite Nat.leb_refl. cbn [length] in Hpos.
        assert (E : (start_pos <? pos) = true) by (apply Nat.ltb_lt; lia).
        rewrite E. cbn [andb]. apply IH. cbn [length]. lia.
    + apply IH. rewrite length_app. cbn [length]. lia.
Qed.

(** X9: the column spans read off a header line are in left-to-right order,
    none is empty and two consecutive spans are at least one column apart, so
    that no character of a data line is put in two cells; a detected
    structure has at least two of them and comes from at least three lines. *)
Theorem header_spans_ordered :
  (forall h, spans_ordered 0 (header_words h 0 0 []) = true)
  /\ (forall lines structure,
        detect_fixed_width_structure lines = Some structure ->
        spans_ordered 0 structure = true
        /\ 2 <= length structure
        /\ 3 <= length lines).
Proof.
  split.
  - intros h. apply header_words_ordered. reflexivity.
  - intros lines structure. unfold detect_fixed_width_structure.
    destruct (length lines <? 3) eqn:L; [discriminate|].
    destruct (find header_candidate (firstn 5 lines)) as [h|]; [|discriminate].
    destruct (1 <? length (header_words h 0 0 [])) eqn:Q; [|discriminate].
    intros H; injection H as <-.
    apply Nat.ltb_lt in Q. apply Nat.ltb_ge in L.
    split; [apply header_words_ordered; reflexivity|]. split; lia.
Qed.

Lemma header_spans_ordered_witness :
  spans_ordered 0 [(0, 4, py "NAME"); (7, 10, py "AGE"); (12, 16, py "CITY")] = true.
Proof.
  exact (proj1 (proj2 header_spans_ordered (content_lines demo_report)
                  [(0, 4, py "NAME"); (7, 10, py "AGE"); (12, 16, py "CITY")] eq_refl)).
Defined.

Lemma extract_cell_clean : forall line sp, strip (extract_cell line sp) = extract_cell line sp.
Proof.
  intros line [[s e] n]. unfold extract_cell.
  destruct (s <? length line); [apply strip_idem | reflexivity].
Qed.

Lemma extract_rows_rows :
  forall structure lines,
    Forall (fun row => length row = length structure
                       /\ Forall (fun v => strip v = v) row
                       /\ existsb (fun cell => negb (is_empty cell)) row = true)
           (extract_rows structure lines).
Proof.
  intros structure lines. apply Forall_forall. intros row Hin.
  apply extract_rows_spec in Hin as [line [_ [_ [_ [-> X]]]]].
  split; [apply length_map|]. split; [|exact X].
  apply Forall_forall. intros v Hv. apply in_map_iff in Hv as [sp [<- _]].
  apply extract_cell_clean.
Qed.

Lemma extract_rows_length :
  forall structure lines, length (extract_rows structure lines) <= length lines.
Proof.
  intros structure lines. unfold extract_rows.
  induction lines as [|l ls IH]; [apply Nat.le_refl|]. cbn [flat_map].
  rewrite length_app. cbn [length].
  destruct (blank l || separator_star (strip l)); [cbn [length]; lia|].
  destruct (existsb _ (extract_row structure l)); cbn [length]; lia.
Qed.

Lemma filter_all :
  forall (A : Type) (q : A -> bool) l, Forall (fun x => q x = true) l -> filter q l = l.
Proof.
  intros A q l H. induction H as [|x l Hx _ IH]; [reflexivity|].
  cbn [filter]. rewrite Hx, IH. reflexivity.
Qed.

Lemma detect_structure_facts :
  forall lines structure,
    detect_fixed_width_structure lines = Some structure ->
    exists h, structure = header_words h 0 0 []
              /\ 2 <= length structure /\ 3 <= length lines.
Proof.
  intros lines structure. unfold detect_fixed_width_structure.
  destruct (length lines <? 3) eqn:L; [discriminate|].
  destruct (find header_candidate (firstn 5 lines)) as [h|]; [|discriminate].
  destruct (1 <? length (header_words h 0 0 [])) eqn:Q; [|discriminate].
  intros H; injection H as <-. apply Nat.ltb_lt in Q. apply Nat.ltb_ge in L.
  exists h. split; [reflexivity|]. lia.
Qed.

Lemma header_names_words :
  forall h, Forall (fun n => n <> [] /\ forallb not_space n = true)
                   (map span_name (header_words h 0 0 [])).
Proof.
  intros h. apply Forall_map.
  pose proof (header_words_spans h [] [] eq_refl) as S. cbn [app length Nat.add] in S.
  revert S. apply Forall_impl. intros [[s e] n] [B [N W]]. unfold span_name. cbn [snd].
  split; [|exact W]. intros Hn.
  assert (Z : length (slice s e h) = 0) by (rewrite <- N, Hn; reflexivity).
  unfold slice in Z. rewrite length_firstn, length_skipn in Z. lia.
Qed.

Lemma structural_parse_usable :
  forall lines df, structural_parse lines = Some df -> usable df = true.
Proof.
  intros lines df. unfold structural_parse.
  destruct (detect_fixed_width_structure lines) as [st|] eqn:D; [|discriminate].
  destruct (detect_structure_facts _ D) as [h [_ [D2 _]]].
  destruct st as [|sp structure]; [discriminate|].
  destruct (extract_rows (sp :: structure)
              (skipn (Nat.max (find_data_start 0 lines) 1) lines)) as [|r rs];
    [discriminate|].
  intros H; injection H as <-.
  destruct structure as [|sp' structure]; [cbn [length] in D2; lia|].
  reflexivity.
Qed.

(** X10: a table read by the structural fixed-width branch is well formed:
    it has at least two columns and one row, every row has one cell per
    column, no cell is missing and every cell is free of surrounding white
    space, no row is dropped by [dropna(how='all')], the first line never
    gives a row, and no column name is empty or holds white space. *)
Theorem structural_table_shape :
  forall lines df,
    structural_parse lines = Some df ->
    usable df = true
    /\ rectangular df
    /\ Forall (Forall clean_cell) (rows df)
    /\ dropna_all df = df
    /\ nrows df < length lines
    /\ Forall (fun n => n <> [] /\ forallb not_space n = true) (columns df).
Proof.
  intros lines df. unfold structural_parse.
  destruct (detect_fixed_width_structure lines) as [st|] eqn:D; [|discriminate].
  destruct (detect_structure_facts _ D) as [h [Hst [D2 D3]]].
  destruct st as [|sp structure]; [discriminate|].
  remember (sp :: structure) as st eqn:Est.
  remember (skipn (Nat.max (find_data_start 0 lines) 1) lines) as body eqn:Eb.
  pose proof (extract_rows_rows st body) as R.
  pose proof (extract_rows_length st body) as Len.
  destruct (extract_rows st body) as [|r rs] eqn:E; [discriminate|].
  intros H; injection H as <-.
  assert (NC : ncols (frame_of (map span_name st) (r :: rs)) = length st)
    by (unfold ncols, frame_of; cbn [columns]; apply length_map).
  split; [|split; [|split; [|split; [|split]]]].
  - unfold usable. rewrite NC. unfold nrows, frame_of. cbn [rows map length].
    assert (Q : (1 <? length st) = true) by (apply Nat.ltb_lt; lia).
    rewrite Q. reflexivity.
  - unfold rectangular. rewrite NC. unfold frame_of. cbn [rows].
    apply Forall_map. revert R. apply Forall_impl. intros row [L _].
    rewrite length_map. exact L.
  - unfold frame_of. cbn [rows]. apply Forall_map. revert R. apply Forall_impl.
    intros row [_ [C _]]. apply Forall_map. revert C. apply Forall_impl.
    intros v Hv. exists v. auto.
  - unfold dropna_all, frame_of. cbn [rows columns]. f_equal.
    apply filter_all. apply Forall_map. revert R. apply Forall_impl.
    intros row [L _]. destruct row as [|v row]; [cbn [length] in L; lia|]. reflexivity.
  - unfold nrows, frame_of. cbn [rows]. rewrite length_map.
    assert (B : length body < length lines).
    { rewrite Eb. rewrite length_skipn. lia. }
    cbn [length] in *. lia.
  - unfold frame_of. cbn [columns]. rewrite Hst. apply header_names_words.
Qed.

Lemma structural_table_shape_witness :
  usable (frame_of [py "NAME"; py "AGE"; py "CITY"]
            [[py "Bob"; py "25"; py "Pune"]; [py "Amy"; py "31"; py "Rome"]]) = true.
Proof.
  exact (proj1 (@structural_table_shape (content_lines demo_report)
                  (frame_of [py "NAME"; py "AGE"; py "CITY"]
                     [[py "Bob"; py "25"; py "Pune"]; [py "Amy"; py "31"; py "Rome"]])
                  eq_refl)).
Defined.

(** X11: [parse_fixed_width_data] has three outcomes whatever the pandas
    reader does: a table with at least two columns and one row; the error
    "Insufficient data for fixed-width parsing", exactly when fewer than two
    lines are not blank; the error "Could not parse as fixed-width format".
    When the structural branch finds a table the pandas reader has no say. *)
Theorem fixed_width_outcomes :
  forall read_fwf content_str,
    match parse_fixed_width_data read_fwf content_str with
    | Ok df => usable df = true
    | Raise e =>
        (e = ValueError "Insufficient data for fixed-width parsing"
         /\ length (content_lines content_str) < 2)
        \/ (e = ValueError "Could not parse as fixed-width format"
            /\ 2 <= length (content_lines content_str)
            /\ structural_parse (content_lines content_str) = None)
    end
    /\ (length (content_lines content_str) < 2 <->
        parse_fixed_width_data read_fwf content_str
        = Raise (ValueError "Insufficient data for fixed-width parsing"))
    /\ (forall df other_fwf,
          structural_parse (content_lines content_str) = Some df ->
          parse_fixed_width_data other_fwf content_str = Ok df).
Proof.
  intros read_fwf content_str. unfold parse_fixed_width_data.
  destruct (length (content_lines content_str) <? 2) eqn:L.
  - apply Nat.ltb_lt in L. split; [left; auto|]. split; [tauto|].
    intros df other S. exfalso.
    unfold structural_parse, detect_fixed_width_structure in S.
    assert (L3 : (length (content_lines content_str) <? 3) = true)
      by (apply Nat.ltb_lt; lia).
    rewrite L3 in S. discriminate S.
  - apply Nat.ltb_ge in L.
    destruct (structural_parse (content_lines content_str)) as [df|] eqn:S.
    + split; [exact (structural_parse_usable _ S)|].
      split; [split; [lia | discriminate]|].
      intros df' other E. injection E as <-. reflexivity.
    + split; [|split; [|discriminate]].
      * destruct (read_fwf content_str) as [df|e]; [|right; auto].
        destruct (usable df) eqn:U; [exact U | right; auto].
      * split; [lia|]. destruct (read_fwf content_str) as [df|e]; [|discriminate].
        destruct (usable df); discriminate.
Qed.

Lemma fixed_width_outcomes_witness :
  parse_fixed_width_data stub_fail demo_report
  = Ok (frame_of [py "NAME"; py "AGE"; py "CITY"]
          [[py "Bob"; py "25"; py "Pune"]; [py "Amy"; py "31"; py "Rome"]]).
Proof.
  exact (proj2 (proj2 (@fixed_width_outcomes stub_fail demo_report))
           (frame_of [py "NAME"; py "AGE"; py "CITY"]
              [[py "Bob"; py "25"; py "Pune"]; [py "Amy"; py "31"; py "Rome"]])
           stub_fail eq_refl).
Defined.


(** ** Delimited text: manual parsing and the outcomes of the text parser *)

Lemma nth_map_some :
  forall (row : list pystr) j,
    j < length row -> nth j (map (@Some pystr) row) None = Some (nth j row []).
Proof.
  intros row j Hj.
  rewrite (nth_indep (map (@Some pystr) row) None (Some [])) by (rewrite length_map; exact Hj).
  apply (map_nth (@Some pystr)).
Qed.

Lemma padded_row :
  forall (tokens : list pystr) n,
    length (firstn n (tokens ++ repeat [] (n - length tokens))) = n
    /\ forall j, j < n ->
         nth j (firstn n (tokens ++ repeat [] (n - length tokens))) [] = nth j tokens [].
Proof.
  intros tokens n. split.
  - rewrite length_firstn, length_app, repeat_length. lia.
  - intros j Hj. rewrite nth_firstn.
    assert (Q : (j <? n) = true) by (apply Nat.ltb_lt; exact Hj). rewrite Q.
    destruct (Nat.lt_ge_cases j (length tokens)) as [L|L].
    + apply app_nth1. exact L.
    + rewrite app_nth2 by exact L. rewrite nth_repeat.
      symmetry. apply nth_overflow. exact L.
Qed.

Lemma manual_parse_dims :
  forall lines df, manual_parse lines = Ok df -> 1 <= ncols df /\ 1 <= nrows df.
Proof.
  intros lines df. unfold manual_parse.
  destruct lines as [|h rest]; [discriminate|].
  destruct (existsb (fun token => negb (numeric_token token)) (split_ws h [])) eqn:X;
    [|discriminate].
  destruct rest as [|l rest']; [discriminate|].
  intros H; injection H as <-.
  unfold ncols, nrows, frame_of. cbn [columns rows]. rewrite !length_map.
  split; [|cbn [length]; lia].
  destruct (split_ws h []); [discriminate X | cbn [length]; lia].
Qed.

(** X12: the manual parser of last resort returns a table only for a first
    line with a token that is not numeric and at least one further line; the
    columns are the white-space separated tokens of the first line, there is
    one row per further line, every row has one cell per column, and cell
    [j] of a row is token [j] of its line, or the empty text when the line
    has fewer tokens; tokens beyond the header count are dropped. *)
Theorem manual_parse_rows :
  forall lines df,
    manual_parse lines = Ok df ->
    exists header_line data_lines,
      lines = header_line :: data_lines
      /\ data_lines <> []
      /\ existsb (fun token => negb (numeric_token token)) (split_ws header_line []) = true
      /\ columns df = split_ws header_line []
      /\ 1 <= ncols df
      /\ nrows df = length data_lines
      /\ rectangular df
      /\ forall i j,
           i < length data_lines -> j < ncols df ->
           nth j (nth i (rows df) []) None
           = Some (nth j (split_ws (nth i data_lines []) []) []).
Proof.
  intros lines df. unfold manual_parse.
  destruct lines as [|h rest]; [discriminate|].
  destruct (existsb (fun token => negb (numeric_token token)) (split_ws h [])) eqn:X;
    [|discriminate].
  destruct rest as [|l rest']; [discriminate|].
  remember (l :: rest') as rest eqn:Er.
  intros H; injection H as <-.
  exists h, rest. split; [reflexivity|]. split; [rewrite Er; discriminate|].
  split; [exact X|]. split; [reflexivity|].
  unfold ncols, nrows, rectangular, frame_of. cbn [columns rows].
  split; [|split; [|split]].
  - destruct (split_ws h []); [discriminate X | cbn [length]; lia].
  - rewrite !length_map. reflexivity.
  - apply Forall_map. apply Forall_map. apply Forall_forall. intros line _.
    rewrite length_map. apply padded_row.
  - intros i j Hi Hj.
    set (n := length (split_ws h [])) in *.
    set (g := fun line : pystr =>
                firstn n (split_ws line [] ++ repeat [] (n - length (split_ws line [])))).
    rewrite map_map.
    rewrite (nth_indep (map (fun x => map (@Some pystr) (g x)) rest) []
                       (map (@Some pystr) (g [])))
      by (rewrite length_map; exact Hi).
    rewrite (map_nth (fun x => map (@Some pystr) (g x)) rest [] i).
    rewrite nth_map_some by (unfold g; rewrite (proj1 (padded_row _ n)); exact Hj).
    f_equal. unfold g. apply padded_row. exact Hj.
Qed.

Lemma manual_parse_rows_witness :
  nrows (frame_of [py "id"; py "qty"] [[py "7"; []]; [py "8"; py "30"]]) = 2.
Proof.
  destruct (@manual_parse_rows [py "id qty"; py "7"; py "8 30 extra"]
              (frame_of [py "id"; py "qty"] [[py "7"; []]; [py "8"; py "30"]]) eq_refl)
    as [header_line [data_lines [E [_ [_ [_ [_ [N _]]]]]]]].
  injection E as _ <-. exact N.
Defined.

Lemma try_delimiter_usable :
  forall read_csv content_str delim df,
    try_delimiter read_csv content_str delim = Some df -> usable df = true.
Proof.
  intros read_csv content_str delim df. unfold try_delimiter.
  destruct (read_csv content_str delim) as [d|e]; [|discriminate].
  destruct (usable d) eqn:U; [|discriminate]. intros H; injection H as <-. exact U.
Qed.

Lemma try_delimiters_usable :
  forall read_csv content_str delims df,
    try_delimiters read_csv content_str delims = Some df -> usable df = true.
Proof.
  intros read_csv content_str delims df. induction delims as [|d ds IH]; [discriminate|].
  cbn [try_delimiters]. destruct (try_delimiter read_csv content_str d) as [x|] eqn:T.
  - intros H; injection H as <-. exact (try_delimiter_usable _ _ _ T).
  - exact IH.
Qed.

Lemma parse_fixed_width_usable :
  forall read_fwf content_str df,
    parse_fixed_width_data read_fwf content_str = Ok df -> usable df = true.
Proof.
  intros read_fwf content_str df. unfold parse_fixed_width_data.
  destruct (length (content_lines content_str) <? 2); [discriminate|].
  destruct (structural_parse (content_lines content_str)) as [d|] eqn:S.
  - intros H; injection H as <-. exact (structural_parse_usable _ S).
  - destruct (read_fwf content_str) as [d|e]; [|discriminate].
    destruct (usable d) eqn:U; [|discriminate]. intros H; injection H as <-. exact U.
Qed.

Lemma manual_parse_raises :
  forall lines e,
    manual_parse lines = Raise e ->
    (e = ValueError "No data found in file" /\ lines = [])
    \/ (e = ValueError "Unable to parse text file into tabular structure" /\ lines <> []).
Proof.
  intros lines e. unfold manual_parse. destruct lines as [|h rest].
  - intros H; injection H as <-. left. auto.
  - destruct (existsb _ (split_ws h [])); [destruct rest|];
      intros H; try discriminate H; injection H as <-; right; split;
      try reflexivity; discriminate.
Qed.

Lemma text_parse_cases :
  forall read_fwf sniff read_csv content_str,
    let lines := filter (fun line => negb (blank line)) (splitlines content_str) in
    match detect_delimiter_and_read_text read_fwf sniff read_csv content_str with
    | Ok df =>
        usable df = true
        \/ (manual_parse lines = Ok df /\ 1 <= ncols df /\ 1 <= nrows df)
    | Raise e =>
        (e = ValueError "No data found in file" /\ lines = [])
        \/ (e = ValueError "Unable to parse text file into tabular structure"
            /\ lines <> [])
    end.
Proof.
  intros read_fwf sniff read_csv content_str lines.
  unfold detect_delimiter_and_read_text. fold lines.
  assert (R : match read_delimited sniff read_csv content_str lines with
              | Ok df =>
                  usable df = true
                  \/ (manual_parse lines = Ok df /\ 1 <= ncols df /\ 1 <= nrows df)
              | Raise e =>
                  (e = ValueError "No data found in file" /\ lines = [])
                  \/ (e = ValueError "Unable to parse text file into tabular structure"
                      /\ lines <> [])
              end).
  { unfold read_delimited.
    destruct (match match sniff (firstn (8 * 1024) content_str) with
                    | Ok d => if is_empty d then None else Some d
                    | Raise _ => None
                    end with
              | Some d => try_delimiter read_csv content_str d
              | None => None
              end) as [df|] eqn:S.
    - left. destruct (sniff (firstn (8 * 1024) content_str)) as [d|]; [|discriminate].
      destruct (is_empty d); [discriminate|]. exact (try_delimiter_usable _ _ _ S).
    - destruct (try_delimiters read_csv content_str delimiters_to_try) as [df|] eqn:T.
      + left. exact (try_delimiters_usable _ _ _ T).
      + destruct (manual_parse lines) as [df|e] eqn:M.
        * right. split; [reflexivity|]. exact (manual_parse_dims _ M).
        * exact (manual_parse_raises _ M). }
  destruct ((3 <=? length lines) && fixed_width_signals lines); [|exact R].
  destruct (parse_fixed_width_data read_fwf content_str) as [df|e] eqn:P; [|exact R].
  left. exact (parse_fixed_width_usable _ _ P).
Qed.

Lemma usable_not_empty : forall df, usable df = true -> df_empty df = false.
Proof.
  intros df. unfold usable, df_empty. intros H. apply andb_true_iff in H as [H1 H2].
  apply Nat.ltb_lt in H1. apply Nat.ltb_lt in H2.
  apply orb_false_iff. split; apply Nat.eqb_neq; lia.
Qed.

(** X13: whatever the sniffer and the pandas readers do,
    [detect_delimiter_and_read_text] either returns a table that is not empty
    (with two or more columns, unless it comes from manual parsing) or raises
    one of two value errors: "No data found in file" exactly when the text
    has no line that is not blank, "Unable to parse text file into tabular
    structure" otherwise. *)
Theorem text_parse_outcomes :
  forall read_fwf sniff read_csv content_str,
    match detect_delimiter_and_read_text read_fwf sniff read_csv content_str with
    | Ok df =>
        df_empty df = false
        /\ (usable df = true
            \/ manual_parse (filter (fun line => negb (blank line))
                               (splitlines content_str)) = Ok df)
    | Raise e =>
        (e = ValueError "No data found in file"
         /\ forallb blank (splitlines content_str) = true)
        \/ (e = ValueError "Unable to parse text file into tabular structure"
            /\ forallb blank (splitlines content_str) = false)
    end.
Proof.
  intros read_fwf sniff read_csv content_str.
  pose proof (text_parse_cases read_fwf sniff read_csv content_str) as C. cbv zeta in C.
  assert (F : forall l : list pystr,
             filter (fun line => negb (blank line)) l = [] <-> forallb blank l = true).
  { induction l as [|x l IH]; [tauto|]. cbn [filter forallb].
    destruct (blank x); cbn [negb andb]; [exact IH|]. split; discriminate. }
  destruct (detect_delimiter_and_read_text read_fwf sniff read_csv content_str) as [df|e].
  - destruct C as [U | [M [Hc Hn]]].
    + split; [apply usable_not_empty; exact U | left; exact U].
    + split; [|right; exact M]. unfold df_empty.
      apply orb_false_iff. split; apply Nat.eqb_neq; lia.
  - destruct C as [[-> L] | [-> L]].
    + left. split; [reflexivity|]. apply F. exact L.
    + right. split; [reflexivity|].
      destruct (forallb blank (splitlines content_str)) eqn:B; [|reflexivity].
      exfalso. apply L. apply F. exact B.
Qed.

(** ** The errors and the results of [process_file] *)

Lemma predict_raise_cases :
  forall modernizer re_match repr_list data i e,
    predict_column_name_from_data modernizer re_match repr_list data i = Raise e ->
    e = ReError "bad character range \s-( at position 7".
Proof.
  intros modernizer re_match repr_list data i e.
  unfold predict_column_name_from_data.
  destruct data as [|d data]; [discriminate|].
  match goal with |- context [flat_map ?f ?l] => destruct (flat_map f l) as [|v sample] end.
  - discriminate.
  - rewrite pattern_raises. simpl. intros H; injection H as <-. reflexivity.
Qed.

Lemma resolve_column_cases :
  forall modernizer re_match repr_list df i o c,
    match fst (resolve_column modernizer re_match repr_list df i o c) with
    | Ok n => 2 <= length n
    | Raise e => e = ReError "bad character range \s-( at position 7"
    end.
Proof.
  intros modernizer re_match repr_list df i o c. unfold resolve_column.
  destruct (is_placeholder (strip o)).
  - destruct (predict_column_name_from_data modernizer re_match repr_list
                (column_data df i) i) as [m|e] eqn:Q; cbn [fst bind].
    + apply final_validation_length.
    + exact (predict_raise_cases _ _ _ _ _ Q).
  - destruct (modernize_column_name_cached modernizer (strip o) c) as [v c1].
    cbn [fst bind]. apply final_validation_length.
Qed.

Lemma resolve_columns_cases :
  forall modernizer re_match repr_list df cols i c,
    match fst (resolve_columns modernizer re_match repr_list df i cols c) with
    | Ok names => length names = length cols /\ Forall (fun n => 2 <= length n) names
    | Raise e => e = ReError "bad character range \s-( at position 7"
    end.
Proof.
  intros modernizer re_match repr_list df cols.
  induction cols as [|o cols IH]; intros i c; cbn [resolve_columns].
  - cbn [fst]. split; [reflexivity | constructor].
  - pose proof (resolve_column_cases modernizer re_match repr_list df i o c) as R.
    destruct (resolve_column modernizer re_match repr_list df i o c) as [[n|e] c1];
      cbn [fst] in R |- *; [|exact R].
    specialize (IH (S i) c1).
    destruct (resolve_columns modernizer re_match repr_list df (S i) cols c1)
      as [[ns|e] c2]; cbn [fst] in IH |- *; [|exact IH].
    destruct IH as [L F]. split; [cbn [length]; congruence | constructor; assumption].
Qed.

Lemma text_parse_raise :
  forall read_fwf sniff read_csv text e,
    detect_delimiter_and_read_text read_fwf sniff read_csv text = Raise e -> text_error e.
Proof.
  intros read_fwf sniff read_csv text e H.
  pose proof (text_parse_cases read_fwf sniff read_csv text) as C. cbv zeta in C.
  rewrite H in C. unfold text_error. tauto.
Qed.

Lemma text_parse_ok :
  forall read_fwf sniff read_csv text df,
    detect_delimiter_and_read_text read_fwf sniff read_csv text = Ok df ->
    df_empty df = false.
Proof.
  intros read_fwf sniff read_csv text df H.
  pose proof (text_parse_cases read_fwf sniff read_csv text) as C. cbv zeta in C.
  rewrite H in C. destruct C as [U | [_ [Hc Hn]]]; [apply usable_not_empty; exact U|].
  unfold df_empty. apply orb_false_iff. split; apply Nat.eqb_neq; lia.
Qed.

Lemma assemble_cases :
  forall modernizer re_match repr_list parsed c,
    match fst (assemble modernizer re_match repr_list parsed c) with
    | Ok (df, info) =>
        df_empty parsed = false
        /\ original_columns info = columns parsed
        /\ modernized_columns info = columns df
        /\ rows_processed info = nrows df
        /\ columns_processed info = ncols df
        /\ rows df = rows (dropna_all parsed)
        /\ ncols df = ncols parsed
        /\ 1 <= ncols df /\ 1 <= nrows df
        /\ Forall (fun n => 2 <= length n) (columns df)
    | Raise e =>
        (e = HTTPException 400 "No data found in file" /\ df_empty parsed = true)
        \/ e = HTTPException 400 "No valid data rows found"
        \/ e = ReError "bad character range \s-( at position 7"
    end.
Proof.
  intros modernizer re_match repr_list parsed c. unfold assemble.
  destruct (df_empty parsed) eqn:E; [cbn [fst]; left; auto|].
  match goal with |- context [df_empty ?d] => destruct (df_empty d) eqn:E' end;
    [cbn [fst]; right; left; reflexivity|].
  unfold _modernize_column_names.
  match goal with |- context [resolve_columns ?m ?r ?p ?d 0 ?cols c] =>
    pose proof (resolve_columns_cases m r p d cols 0 c) as R;
    destruct (resolve_columns m r p d 0 cols c) as [[names|e] c1] end;
    cbn [fst] in R |- *; [|right; right; exact R].
  destruct R as [L F]. cbn [dropna_all columns rows] in L.
  rewrite placeholder_columns_length in L.
  unfold df_empty, ncols, nrows in E'. cbn [dropna_all columns rows] in E'.
  rewrite placeholder_columns_length in E'.
  apply orb_false_iff in E' as [E1 E2]. apply Nat.eqb_neq in E1, E2.
  unfold ncols, nrows. cbn [original_columns modernized_columns rows_processed
                            columns_processed columns rows dropna_all].
  repeat (split; [reflexivity|]).
  split; [exact L|]. split; [lia|]. split; [lia | exact F].
Qed.

Lemma parse_by_extension_cases :
  forall read_excel read_fwf sniff read_csv raw text ext,
    match parse_by_extension read_excel read_fwf sniff read_csv raw text ext with
    | Ok df =>
        df_empty df = true ->
        str_eqb ext (py "xls") || str_eqb ext (py "xlsx") || str_eqb ext (py "csv") = true
    | Raise e =>
        (exists d, e = HTTPException 400 d /\ upload_error read_excel raw ext e)
        \/ (text_error e /\ str_eqb ext (py "csv") = true)
    end.
Proof.
  intros read_excel read_fwf sniff read_csv raw text ext. unfold parse_by_extension.
  destruct (str_eqb ext (py "xls") || str_eqb ext (py "xlsx")) eqn:X.
  - destruct (read_excel raw) as [df|e] eqn:R; cbn [try_except]; [reflexivity|].
    left. eexists. split; [reflexivity|]. apply excel_unreadable; assumption.
  - destruct (str_eqb ext (py "csv")) eqn:C.
    + destruct (read_csv text (py ",")) as [df|e0]; cbn [try_except]; [reflexivity|].
      destruct (detect_delimiter_and_read_text read_fwf sniff read_csv text) as [df|e] eqn:D.
      * reflexivity.
      * right. split; [exact (text_parse_raise _ _ _ _ D) | reflexivity].
    + destruct (detect_delimiter_and_read_text read_fwf sniff read_csv text) as [df|e] eqn:D;
        cbn [try_except].
      * intros E. rewrite (text_parse_ok _ _ _ _ D) in E. discriminate E.
      * left. eexists. split; [reflexivity|].
        apply text_unparsed; [exact X | exact C | exact (text_parse_raise _ _ _ _ D)].
Qed.

Lemma process_file_errors :
  forall chardet_detect decode_ignore read_excel read_fwf sniff read_csv
         modernizer re_match repr_list raw filename c text e,
    safe_decode chardet_detect decode_ignore raw = Ok text ->
    fst (process_file chardet_detect decode_ignore read_excel read_fwf sniff read_csv
           modernizer re_match repr_list raw filename c) = Raise e ->
    upload_error read_excel raw (extension (lower filename)) e.
Proof.
  intros chardet_detect decode_ignore read_excel read_fwf sniff read_csv
         modernizer re_match repr_list raw filename c text e Ht.
  unfold process_file, process_file_body. rewrite Ht.
  pose proof (parse_by_extension_cases read_excel read_fwf sniff read_csv raw text
                (extension (lower filename))) as P.
  destruct (parse_by_extension read_excel read_fwf sniff read_csv raw text
              (extension (lower filename))) as [parsed|e0].
  - pose proof (assemble_cases modernizer re_match repr_list parsed c) as A.
    destruct (assemble modernizer re_match repr_list parsed c) as [[[df info]|e1] c1];
      cbn [fst] in A.
    + cbn [fst]. discriminate.
    + destruct A as [[-> E] | [-> | ->]]; cbn [fst]; intros H; injection H as <-.
      * apply no_data. exact (P E).
      * apply no_valid_rows.
      * apply naming_failed.
  - destruct P as [[d [-> U]] | [[-> | ->] C]]; cbn [fst]; intros H; injection H as <-.
    + exact U.
    + apply (@csv_unparsed read_excel raw _ (ValueError "No data found in file") C).
      left. reflexivity.
    + apply (@csv_unparsed read_excel raw _
               (ValueError "Unable to parse text file into tabular structure") C).
      right. reflexivity.
Qed.

Lemma upload_error_status :
  forall read_excel raw ext e,
    upload_error read_excel raw ext e ->
    exists detail, e = HTTPException 400 detail \/ e = HTTPException 500 detail.
Proof.
  intros read_excel raw ext e H. destruct H; eexists; unfold http;
    first [left; reflexivity | right; reflexivity].
Qed.

(** X14: once the bytes of an upload are decoded, every failure of
    [process_file] is an [HTTPException] with status 400 or 500, and it is
    one of six: an unreadable Excel file (400), a text file that the text
    parser rejects (400), a CSV file that both the CSV reader and the text
    parser reject (500), a table without rows or columns (400, only for the
    Excel and CSV extensions), a table whose rows hold no value (400), and
    the failure of the column-naming step (500). *)
Theorem process_file_failures :
  forall chardet_detect decode_ignore read_excel read_fwf sniff read_csv
         modernizer re_match repr_list raw filename c text e,
    safe_decode chardet_detect decode_ignore raw = Ok text ->
    fst (process_file chardet_detect decode_ignore read_excel read_fwf sniff read_csv
           modernizer re_match repr_list raw filename c) = Raise e ->
    upload_error read_excel raw (extension (lower filename)) e
    /\ exists detail, e = HTTPException 400 detail \/ e = HTTPException 500 detail.
Proof.
  intros chardet_detect decode_ignore read_excel read_fwf sniff read_csv
         modernizer re_match repr_list raw filename c text e Ht H.
  pose proof (process_file_errors _ _ _ _ _ _ _ _ _ _ _ _ Ht H) as U.
  split; [exact U | exact (upload_error_status U)].
Qed.

Lemma process_file_failures_witness :
  upload_error stub_fail [Byte.x41] (py "xlsx")
    (HTTPException 400 "Could not read Excel file: unavailable").
Proof.
  exact (proj1 (@process_file_failures stub_detect stub_decode stub_fail stub_fail
                  stub_fail stub_read_csv None no_match no_repr [Byte.x41]
                  (py "Ledger.XLSX") empty_cache (py "A")
                  (HTTPException 400 "Could not read Excel file: unavailable")
                  eq_refl eq_refl)).
Defined.

Lemma process_file_lengths :
  forall chardet_detect decode_ignore read_excel read_fwf sniff read_csv
         modernizer re_match repr_list raw filename c df info,
    fst (process_file chardet_detect decode_ignore read_excel read_fwf sniff read_csv
           modernizer re_match repr_list raw filename c) = Ok (df, info) ->
    length (original_columns info) = length (modernized_columns info).
Proof.
  intros chardet_detect decode_ignore read_excel read_fwf sniff read_csv
         modernizer re_match repr_list raw filename c df info.
  unfold process_file, process_file_body.
  destruct (safe_decode chardet_detect decode_ignore raw) as [text|e0];
    [|destruct e0; discriminate].
  destruct (parse_by_extension read_excel read_fwf sniff read_csv raw text
              (extension (lower filename))) as [parsed|e0];
    [|destruct e0; discriminate].
  pose proof (assemble_cases modernizer re_match repr_list parsed c) as A.
  destruct (assemble modernizer re_match repr_list parsed c) as [[[df' info']|e1] c1];
    cbn [fst] in A |- *; [|destruct e1; discriminate].
  intros H; injection H as <- <-.
  destruct A as [_ [O [M [_ [_ [_ [N _]]]]]]].
  rewrite O, M. symmetry. exact N.
Qed.

(** X15: when [process_file] returns, the table has at least one column and
    one row, its rows are the rows of the parsed table that hold a value,
    there is one original and one modernized column name per column, the
    counts of [file_info] are the table's dimensions, and every column name
    is at least two characters long. *)
Theorem process_file_result :
  forall chardet_detect decode_ignore read_excel read_fwf sniff read_csv
         modernizer re_match repr_list raw filename c df info,
    fst (process_file chardet_detect decode_ignore read_excel read_fwf sniff read_csv
           modernizer re_match repr_list raw filename c) = Ok (df, info) ->
    (exists text parsed,
       safe_decode chardet_detect decode_ignore raw = Ok text
       /\ parse_by_extension read_excel read_fwf sniff read_csv raw text
            (extension (lower filename)) = Ok parsed
       /\ original_columns info = columns parsed
       /\ rows df = filter has_value (rows parsed))
    /\ modernized_columns info = columns df
    /\ length (original_columns info) = length (modernized_columns info)
    /\ columns_processed info = ncols df
    /\ rows_processed info = nrows df
    /\ 1 <= ncols df /\ 1 <= nrows df
    /\ Forall (fun row => has_value row = true) (rows df)
    /\ Forall (fun n => 2 <= length n) (columns df).
Proof.
  intros chardet_detect decode_ignore read_excel read_fwf sniff read_csv
         modernizer re_match repr_list raw filename c df info.
  unfold process_file, process_file_body.
  destruct (safe_decode chardet_detect decode_ignore raw) as [text|e0] eqn:Hs;
    [|destruct e0; discriminate].
  destruct (parse_by_extension read_excel read_fwf sniff read_csv raw text
              (extension (lower filename))) as [parsed|e0] eqn:Hp;
    [|destruct e0; discriminate].
  pose proof (assemble_cases modernizer re_match repr_list parsed c) as A.
  destruct (assemble modernizer re_match repr_list parsed c) as [[[df' info']|e1] c1];
    cbn [fst] in A |- *; [|destruct e1; discriminate].
  intros H; injection H as <- <-.
  destruct A as [_ [O [M [R [C [Rw [N [C1 [R1 F]]]]]]]]].
  split; [exists text, parsed; split; [reflexivity|]; split; [exact Hp|];
          split; [exact O | exact Rw]|].
  split; [exact M|]. split; [rewrite O, M; symmetry; exact N|].
  split; [exact C|]. split; [exact R|]. split; [exact C1|]. split; [exact R1|].
  split; [|exact F].
  rewrite Rw. cbn [dropna_all rows]. apply Forall_forall. intros row Hin.
  apply filter_In in Hin as [_ Hv]. exact Hv.
Qed.

Lemma process_file_result_witness :
  Forall (fun n => 2 <= length n) [py "id"; py "qty"].
Proof.
  refine (proj2 (proj2 (proj2 (proj2 (proj2 (proj2 (proj2 (proj2
    (@process_file_result stub_detect stub_decode stub_fail stub_fail stub_fail
       stub_read_csv None no_match no_repr (bytes_of orders_csv) (py "orders.csv")
       empty_cache
       {| columns := [py "id"; py "qty"];
          rows := [[Some (py "7"); Some (py "12")]] |}
       {| original_columns := [py "ID"; py "QTY"];
          modernized_columns := [py "id"; py "qty"];
          rows_processed := 1;
          columns_processed := 2 |} _))))))))).
  vm_compute. reflexivity.
Defined.

(** ** Columns without a name *)

Lemma placeholder_columns_nth :
  forall cols i j name,
    nth_error cols j = Some name ->
    nth_error (placeholder_columns i cols) j
    = Some (if blank name then fmt "col_" (i + j) else name).
Proof.
  induction cols as [|c cols IH]; intros i [|j] name; cbn [nth_error placeholder_columns];
    try discriminate.
  - intros H; injection H as <-. rewrite Nat.add_0_r. reflexivity.
  - intros H. rewrite (IH (S i) j name H). replace (S i + j) with (i + S j) by lia.
    reflexivity.
Qed.

Lemma col_label_placeholder : forall i, is_placeholder (strip (fmt "col_" i)) = true.
Proof.
  intros i. pose proof (@fmt_snake "col_" i eq_refl) as S.
  assert (T : forallb snake_tail (fmt "col_" i) = true).
  { destruct (fmt "col_" i) as [|a t]; [discriminate S|]. cbn [is_snake] in S.
    apply andb_true_iff in S as [Ha Ht]. cbn [forallb]. rewrite Ht.
    unfold snake_tail. rewrite Ha. reflexivity. }
  assert (W : strip (fmt "col_" i) = fmt "col_" i).
  { apply strip_word. eapply forallb_weaken; [|exact T].
    intros c Hc. unfold not_space. destruct (snake_tail_facts c Hc) as [-> _]. reflexivity. }
  rewrite W. unfold is_placeholder. rewrite (lower_id _ T).
  assert (P : startswith (py "col_") (fmt "col_" i) = true)
    by (unfold fmt; apply startswith_refl).
  cbn [existsb]. rewrite P. rewrite !orb_true_r. reflexivity.
Qed.

(** X16: a column without a name is named from its values alone.
    [process_file] gives a blank column name the temporary name [col_j], which
    [_modernize_column_names] takes for a placeholder; and for a placeholder
    (a name that is empty or starts with unnamed, col_ or empty, in any case)
    the name is not used: the outcome is [column_k], [data_column_k] or an
    exception, and the cache of resolved names is left as it was. *)
Theorem unnamed_columns_inferred :
  (forall cols i j name,
     nth_error cols j = Some name ->
     nth_error (placeholder_columns i cols) j
     = Some (if blank name then fmt "col_" (i + j) else name))
  /\ (forall i, is_placeholder (strip (fmt "col_" i)) = true)
  /\ (forall modernizer re_match repr_list df k o c,
        is_placeholder (strip o) = true ->
        snd (resolve_column modernizer re_match repr_list df k o c) = c
        /\ (fst (resolve_column modernizer re_match repr_list df k o c)
            = Ok (fmt "column_" k)
            \/ fst (resolve_column modernizer re_match repr_list df k o c)
               = Ok (fmt "data_column_" k)
            \/ fst (resolve_column modernizer re_match repr_list df k o c)
               = Raise (ReError "bad character range \s-( at position 7"))).
Proof.
  split; [exact placeholder_columns_nth|]. split; [exact col_label_placeholder|].
  intros modernizer re_match repr_list df k o c P. unfold resolve_column. rewrite P.
  destruct (predict_column_name_from_data modernizer re_match repr_list
              (column_data df k) k) as [n|e] eqn:Q; cbn [fst snd bind].
  - split; [reflexivity|].
    destruct (predict_ok_cases _ _ _ _ _ Q) as [-> | ->].
    + left. rewrite final_validation_keep; [reflexivity|].
      pose proof (fmt_length "column_" k) as L.
      change (length (py "column_")) with 7 in L. lia.
    + right. left. rewrite final_validation_keep; [reflexivity|].
      pose proof (fmt_length "data_column_" k) as L.
      change (length (py "data_column_")) with 12 in L. lia.
  - split; [reflexivity|]. right. right.
    rewrite (predict_raise_cases _ _ _ _ _ Q). reflexivity.
Qed.

Lemma unnamed_columns_inferred_witness :
  nth_error (placeholder_columns 0 [py "ID"; py " "]) 1 = Some (py "col_1")
  /\ snd (resolve_column None no_match no_repr blank_column_table 0 (py "Empty_Flag")
            empty_cache) = empty_cache.
Proof.
  split.
  - exact (proj1 unnamed_columns_inferred [py "ID"; py " "] 0 1 (py " ") eq_refl).
  - exact (proj1 (proj2 (proj2 unnamed_columns_inferred) None no_match no_repr
                    blank_column_table 0 (py "Empty_Flag") empty_cache eq_refl)).
Defined.

(** ** The extension of a file name *)

Lemma split_on_not_nil : forall sep s cur, split_on sep s cur <> [].
Proof.
  intros sep s. induction s as [|c t IH]; intros cur; cbn [split_on]; [discriminate|].
  destruct (Ascii.eqb c sep); [discriminate | apply IH].
Qed.

Lemma last_cons_ne : forall (A : Type) (x : A) l d, l <> [] -> last (x :: l) d = last l d.
Proof. intros A x [|y l] d H; [contradiction | reflexivity]. Qed.

Lemma split_on_last :
  forall sep s cur,
    existsb (Ascii.eqb sep) cur = false ->
    let l := last (split_on sep s cur) [] in
    existsb (Ascii.eqb sep) l = false
    /\ ((existsb (Ascii.eqb sep) s = false /\ l = cur ++ s)
        \/ (existsb (Ascii.eqb sep) s = true /\ exists stem, cur ++ s = stem ++ sep :: l)).
Proof.
  intros sep s. induction s as [|c t IH]; intros cur Hcur; cbn [split_on].
  - cbn [last existsb]. split; [exact Hcur|]. left. rewrite app_nil_r. auto.
  - destruct (Ascii.eqb c sep) eqn:E.
    + apply Ascii.eqb_eq in E. subst c.
      rewrite last_cons_ne by apply split_on_not_nil.
      destruct (IH [] eq_refl) as [N [[Nt L] | [Yt [stem L]]]]; cbv zeta in *.
      * split; [exact N|]. right. cbn [existsb]. rewrite Ascii.eqb_refl.
        split; [reflexivity|]. exists cur. rewrite L. reflexivity.
      * split; [exact N|]. right. cbn [existsb]. rewrite Ascii.eqb_refl.
        split; [reflexivity|]. exists (cur ++ sep :: stem).
        cbn [app] in L. rewrite <- app_assoc. cbn [app]. do 2 f_equal. exact L.
    + assert (Hc : existsb (Ascii.eqb sep) (cur ++ [c]) = false).
      { rewrite existsb_app, Hcur. cbn [existsb]. rewrite Ascii.eqb_sym, E. reflexivity. }
      destruct (IH (cur ++ [c]) Hc) as [N [[Nt L] | [Yt [stem L]]]]; cbv zeta in *.
      * split; [exact N|]. left. cbn [existsb]. rewrite Ascii.eqb_sym, E, Nt.
        split; [reflexivity|]. rewrite L, <- app_assoc. reflexivity.
      * split; [exact N|]. right. cbn [existsb]. rewrite Yt, orb_true_r.
        split; [reflexivity|]. exists stem. rewrite <- L, <- app_assoc. reflexivity.
Qed.

Lemma extension_parts :
  forall filename,
    has_dot (extension filename) = false
    /\ (has_dot filename = false -> extension filename = [])
    /\ (has_dot filename = true ->
        exists stem, filename = stem ++ "."%char :: extension filename).
Proof.
  intros filename. unfold extension, has_dot.
  destruct (existsb (Ascii.eqb "."%char) filename) eqn:D.
  - destruct (@split_on_last "."%char filename [] eq_refl) as [N [[Nt _] | [_ [stem L]]]];
      cbv zeta in *.
    + rewrite Nt in D. discriminate D.
    + split; [exact N|]. split; [discriminate|]. intros _. exists stem. exact L.
  - split; [reflexivity|]. split; [reflexivity | discriminate].
Qed.

Lemma app_dot_unique :
  forall (s1 s2 e1 e2 : pystr),
    has_dot e1 = false -> has_dot e2 = false ->
    s1 ++ "."%char :: e1 = s2 ++ "."%char :: e2 -> e1 = e2.
Proof.
  induction s1 as [|a s1 IH]; intros [|b s2] e1 e2 H1 H2 E; cbn [app] in E.
  - injection E as E. exact E.
  - injection E as Eb E. exfalso. rewrite E in H1. unfold has_dot in H1.
    rewrite existsb_app in H1. cbn [existsb] in H1. rewrite Ascii.eqb_refl in H1.
    rewrite orb_true_r in H1. discriminate H1.
  - injection E as Ea E. exfalso. rewrite <- E in H2. unfold has_dot in H2.
    rewrite existsb_app in H2. cbn [existsb] in H2. rewrite Ascii.eqb_refl in H2.
    rewrite orb_true_r in H2. discriminate H2.
  - injection E as _ E. exact (IH s2 e1 e2 H1 H2 E).
Qed.

(** X17: the extension that [process_file] reads off a file name is the
    text after the last dot: a name [stem.ext] whose [ext] has no dot has
    extension [ext], a name without a dot has the empty extension, and the
    extension never holds a dot; so a name is its stem, a dot and its
    extension. *)
Theorem extension_is_last_part :
  (forall stem ext, has_dot ext = false -> extension (stem ++ "."%char :: ext) = ext)
  /\ (forall filename,
        has_dot (extension filename) = false
        /\ (has_dot filename = false -> extension filename = [])
        /\ (has_dot filename = true ->
            exists stem, filename = stem ++ "."%char :: extension filename)).
Proof.
  split; [|exact extension_parts].
  intros stem ext He.
  destruct (extension_parts (stem ++ "."%char :: ext)) as [N [_ Y]].
  assert (D : has_dot (stem ++ "."%char :: ext) = true).
  { unfold has_dot. rewrite existsb_app. cbn [existsb]. rewrite Ascii.eqb_refl.
    rewrite orb_true_r. reflexivity. }
  destruct (Y D) as [stem' E]. symmetry.
  exact (@app_dot_unique stem stem' ext _ He N E).
Qed.

Lemma extension_is_last_part_witness :
  extension (py "ledger.2024" ++ "."%char :: py "csv") = py "csv".
Proof. exact (proj1 extension_is_last_part (py "ledger.2024") (py "csv") eq_refl). Defined.

(** ** Where the rows of a fixed-width report start *)

Lemma find_data_start_passed :
  forall skipped i tail,
    0 < i ->
    forallb passed_over skipped = true ->
    find_data_start i (skipped ++ tail) = find_data_start (i + length skipped) tail.
Proof.
  induction skipped as [|x skipped IH]; intros i tail Hi H.
  - cbn [app length]. rewrite Nat.add_0_r. reflexivity.
  - cbn [forallb] in H. apply andb_true_iff in H as [Hx Hs].
    unfold passed_over in Hx. apply andb_true_iff in Hx as [Sx Ux].
    apply negb_true_iff in Sx. cbn [app find_data_start]. rewrite Sx, Ux.
    rewrite andb_false_r. rewrite (IH (S i) tail) by (lia || exact Hs).
    cbn [length]. f_equal. lia.
Qed.

Lemma find_data_start_after :
  forall h skipped l rest,
    separator_plus (strip h) = false ->
    forallb passed_over skipped = true ->
    passed_over l = false ->
    find_data_start 0 (h :: skipped ++ l :: rest)
    = if separator_plus (strip l) then S (S (length skipped)) else S (length skipped).
Proof.
  intros h skipped l rest Hh Hs Hl. cbn [find_data_start]. rewrite Hh. cbn [Nat.ltb Nat.leb andb].
  rewrite find_data_start_passed by (lia || exact Hs).
  cbn [find_data_start Nat.add].
  destruct (separator_plus (strip l)) eqn:S; [reflexivity|].
  unfold passed_over in Hl. rewrite S in Hl. cbn [negb andb] in Hl. rewrite Hl.
  reflexivity.
Qed.

Lemma find_data_start_none :
  forall h rest,
    separator_plus (strip h) = false ->
    forallb passed_over rest = true ->
    find_data_start 0 (h :: rest) = 0.
Proof.
  intros h rest Hh Hr. cbn [find_data_start]. rewrite Hh. cbn [Nat.ltb Nat.leb andb].
  rewrite <- (app_nil_r rest). rewrite find_data_start_passed by (lia || exact Hr).
  reflexivity.
Qed.

Lemma skipn_to : forall (A : Type) (pre tail : list A), skipn (length pre) (pre ++ tail) = tail.
Proof. intros A pre tail. induction pre as [|a pre IH]; [reflexivity | exact IH]. Qed.

Lemma skipn_past :
  forall (A : Type) (pre : list A) x tail, skipn (S (length pre)) (pre ++ x :: tail) = tail.
Proof. intros A pre x tail. induction pre as [|a pre IH]; [reflexivity | exact IH]. Qed.

Lemma structural_parse_rows :
  forall lines df,
    structural_parse lines = Some df ->
    exists structure,
      detect_fixed_width_structure lines = Some structure
      /\ rows df = map (map (@Some pystr))
                     (extract_rows structure
                        (skipn (Nat.max (find_data_start 0 lines) 1) lines)).
Proof.
  intros lines df. unfold structural_parse.
  destruct (detect_fixed_width_structure lines) as [[|sp structure]|] eqn:D;
    try discriminate.
  destruct (extract_rows (sp :: structure)
              (skipn (Nat.max (find_data_start 0 lines) 1) lines)) as [|r rs] eqn:R;
    [discriminate|].
  intros H; injection H as <-. exists (sp :: structure).
  split; [reflexivity|]. cbn [frame_of rows]. rewrite R. reflexivity.
Qed.

(** X18: lines in upper case are taken for header lines.  After the first
    line of a report, the lines made of upper-case letters, digits and white
    space that start with a letter are passed over until a separator line or
    a line of another kind is met, and the table has no row for them; when
    no such line is met, every line but the first can give a row. *)
Theorem upper_case_lines_skipped :
  forall h skipped l rest df,
    separator_plus (strip h) = false ->
    forallb passed_over skipped = true ->
    (passed_over l = false ->
     structural_parse (h :: skipped ++ l :: rest) = Some df ->
     exists structure,
       detect_fixed_width_structure (h :: skipped ++ l :: rest) = Some structure
       /\ rows df = map (map (@Some pystr))
                      (extract_rows structure
                         (if separator_plus (strip l) then rest else l :: rest)))
    /\ (structural_parse (h :: skipped) = Some df ->
        exists structure,
          detect_fixed_width_structure (h :: skipped) = Some structure
          /\ rows df = map (map (@Some pystr)) (extract_rows structure skipped)).
Proof.
  intros h skipped l rest df Hh Hs. split.
  - intros Hl P. destruct (structural_parse_rows _ P) as [st [D R]].
    exists st. split; [exact D|]. rewrite R.
    rewrite (find_data_start_after h skipped l rest Hh Hs Hl).
    destruct (separator_plus (strip l)).
    + replace (Nat.max (S (S (length skipped))) 1) with (S (S (length skipped))) by lia.
      change (skipn (S (S (length skipped))) (h :: skipped ++ l :: rest))
        with (skipn (S (length skipped)) (skipped ++ l :: rest)).
      rewrite skipn_past. reflexivity.
    + replace (Nat.max (S (length skipped)) 1) with (S (length skipped)) by lia.
      change (skipn (S (length skipped)) (h :: skipped ++ l :: rest))
        with (skipn (length skipped) (skipped ++ l :: rest)).
      rewrite skipn_to. reflexivity.
  - intros P. destruct (structural_parse_rows _ P) as [st [D R]].
    exists st. split; [exact D|]. rewrite R.
    rewrite (find_data_start_none h skipped Hh Hs). reflexivity.
Qed.

Lemma upper_case_lines_skipped_witness :
  rows (frame_of [py "NAME"; py "AGE"; py "CITY"] [[py "Amy"; py "31"; py "Rome"]])
  = map (map (@Some pystr))
        (extract_rows [(0, 4, py "NAME"); (7, 10, py "AGE"); (12, 16, py "CITY")]
           [py "Amy    31   Rome"]).
Proof.
  destruct (proj1 (@upper_case_lines_skipped (py "NAME   AGE  CITY")
                     [py "BOB    25   PUNE"] (py "Amy    31   Rome") []
                     (frame_of [py "NAME"; py "AGE"; py "CITY"]
                        [[py "Amy"; py "31"; py "Rome"]])
                     eq_refl eq_refl) eq_refl eq_refl) as [structure [D R]].
  vm_compute in D. injection D as <-. exact R.
Defined.

(** ** The recommended services *)

Lemma nodup_map_filter :
  forall (A B : Type) (g : A -> B) (q : A -> bool) l,
    NoDup (map g l) -> NoDup (map g (filter q l)).
Proof.
  intros A B g q l. induction l as [|a l IH]; cbn [map filter]; [auto|].
  intros H. inversion H as [|x xs Hn Hd]; subst.
  destruct (q a); [|exact (IH Hd)]. cbn [map]. constructor; [|exact (IH Hd)].
  intros I. apply Hn. apply in_map_iff in I as [y [E Hy]].
  apply filter_In in Hy as [Hy _]. apply in_map_iff. exists y. auto.
Qed.

Lemma any_pattern_incl :
  forall cols1 cols2 patterns,
    incl cols1 cols2 ->
    any_pattern cols1 patterns = true -> any_pattern cols2 patterns = true.
Proof.
  intros cols1 cols2 patterns I H. unfold any_pattern in *.
  apply existsb_exists in H as [col [Hc Hp]]. apply existsb_exists.
  exists col. split; [apply I; exact Hc | exact Hp].
Qed.

Lemma any_pattern_same :
  forall cols1 cols2 patterns,
    incl cols1 cols2 -> incl cols2 cols1 ->
    any_pattern cols1 patterns = any_pattern cols2 patterns.
Proof.
  intros cols1 cols2 patterns I1 I2.
  destruct (any_pattern cols1 patterns) eqn:A.
  - symmetry. exact (any_pattern_incl patterns I1 A).
  - destruct (any_pattern cols2 patterns) eqn:B; [|reflexivity].
    rewrite (any_pattern_incl patterns I2 B) in A. discriminate A.
Qed.

Lemma service_names_nodup : NoDup (map fst service_patterns).
Proof.
  vm_compute.
  repeat (constructor;
          [intros I; cbn [In] in I;
           repeat (destruct I as [I | I]; [discriminate I|]); exact I|]).
  constructor.
Qed.

Lemma services_of_cases :
  forall df,
    df_empty df = false ->
    let found := map fst (filter (fun sp => any_pattern (map lower (columns df)) (snd sp))
                            service_patterns) in
    (found = [] /\ services_of df = [default_service])
    \/ (found <> [] /\ services_of df = found).
Proof.
  intros df E. unfold services_of, generate_microservices_architecture. rewrite E.
  cbv zeta. cbn [recommended_services].
  destruct (map fst (filter _ service_patterns)) as [|s l]; [left; auto|].
  right. split; [discriminate | reflexivity].
Qed.

(** X19: for a table that is not empty, [generate_microservices_architecture]
    recommends between one and seven services, none twice, and
    [total_services] is their number; the default service is recommended
    exactly when no pattern occurs in a column name.  The recommendation
    depends only on the set of lower-cased column names (not on the rows, nor
    on the order, the repetition or the case of the names), and a table with
    more columns keeps every service recommended for fewer, the default
    apart. *)
Theorem recommended_services_shape :
  forall df,
    df_empty df = false ->
    (exists a,
       generate_microservices_architecture df = Some a
       /\ recommended_services a = services_of df
       /\ total_services a = length (services_of df))
    /\ 1 <= length (services_of df) <= 7
    /\ NoDup (services_of df)
    /\ (services_of df = [default_service] <->
        forall sp, In sp service_patterns ->
                   any_pattern (map lower (columns df)) (snd sp) = false)
    /\ (forall df',
          df_empty df' = false ->
          incl (map lower (columns df)) (map lower (columns df')) ->
          (forall s, In s (services_of df) -> s <> default_service ->
                     In s (services_of df'))
          /\ (incl (map lower (columns df')) (map lower (columns df)) ->
              services_of df' = services_of df)).
Proof.
  intros df E.
  pose proof (services_of_cases df E) as C. cbv zeta in C.
  set (q := fun sp : pystr * list pystr => any_pattern (map lower (columns df)) (snd sp)) in *.
  assert (Len : length (map fst (filter q service_patterns)) <= 7).
  { rewrite length_map. pose proof (filter_length_le q service_patterns) as L.
    change (length service_patterns) with 7 in L. exact L. }
  assert (ND : NoDup (map fst (filter q service_patterns)))
    by (apply nodup_map_filter; exact service_names_nodup).
  split; [|split; [|split; [|split]]].
  - unfold services_of, generate_microservices_architecture. rewrite E. cbv zeta.
    eexists. split; [reflexivity|]. cbn [recommended_services total_services]. auto.
  - destruct C as [[_ ->] | [N ->]]; [cbn [length]; lia|].
    split; [|exact Len]. destruct (map fst (filter q service_patterns)); [contradiction|].
    cbn [length]. lia.
  - destruct C as [[_ ->] | [_ ->]]; [|exact ND].
    constructor; [intros [] | constructor].
  - destruct C as [[F S] | [N S]]; rewrite S.
    + split; [|reflexivity]. intros _ sp Hin.
      destruct (q sp) eqn:Q; [|exact Q]. exfalso.
      assert (I : In (fst sp) (map fst (filter q service_patterns))).
      { apply in_map. apply filter_In. auto. }
      rewrite F in I. destruct I.
    + split.
      * intros D. exfalso.
        assert (I : In default_service (map fst (filter q service_patterns)))
          by (rewrite D; left; reflexivity).
        apply in_map_iff in I as [sp [Hs Hin]]. apply filter_In in Hin as [Hin _].
        revert Hs. clear - Hin.
        repeat (destruct Hin as [<- | Hin]; [discriminate|]). destruct Hin.
      * intros A. exfalso. apply N.
        destruct (filter q service_patterns) as [|sp l] eqn:Fl; [reflexivity|].
        assert (I : In sp (filter q service_patterns)) by (rewrite Fl; left; reflexivity).
        apply filter_In in I as [Hin Q]. unfold q in Q. rewrite (A sp Hin) in Q.
        discriminate Q.
  - intros df' E' I.
    pose proof (services_of_cases df' E') as C'. cbv zeta in C'.
    set (q' := fun sp : pystr * list pystr =>
                 any_pattern (map lower (columns df')) (snd sp)) in *.
    split.
    + intros s Hs Hd.
      assert (Hf : In s (map fst (filter q service_patterns))).
      { destruct C as [[_ S] | [_ S]]; rewrite S in Hs; [|exact Hs].
        destruct Hs as [<- | []]. contradiction. }
      apply in_map_iff in Hf as [sp [<- Hin]]. apply filter_In in Hin as [Hin Q].
      assert (Hf' : In (fst sp) (map fst (filter q' service_patterns))).
      { apply in_map. apply filter_In. split; [exact Hin|].
        unfold q'. exact (any_pattern_incl (snd sp) I Q). }
      destruct C' as [[F' _] | [_ ->]]; [|exact Hf'].
      rewrite F' in Hf'. destruct Hf'.
    + intros I'.
      assert (Q : filter q' service_patterns = filter q service_patterns).
      { apply filter_ext. intros sp. unfold q, q'. apply any_pattern_same; assumption. }
      rewrite Q in C'.
      destruct C as [[F ->] | [N ->]]; destruct C' as [[F' ->] | [N' ->]];
        try reflexivity; contradiction.
Qed.

Lemma recommended_services_shape_witness :
  1 <= length (services_of customers_table) <= 7.
Proof.
  exact (proj1 (proj2 (@recommended_services_shape customers_table eq_refl))).
Defined.

(** ** The column mapping of the response *)

Lemma dict_set_keys :
  forall d k v,
    (In k (map fst d) -> map fst (dict_set d k v) = map fst d)
    /\ (~ In k (map fst d) -> dict_set d k v = d ++ [(k, v)]).
Proof.
  induction d as [|[k' v'] d IH]; intros k v; cbn [dict_set map fst app In].
  - split; [intros [] | reflexivity].
  - destruct (str_eqb k' k) eqn:E.
    + apply str_eqb_eq in E. subst k'. split; [reflexivity|]. intros N. exfalso. auto.
    + apply str_eqb_neq in E. destruct (IH k v) as [I1 I2]. split.
      * intros [C | C]; [contradiction|]. cbn [map fst]. rewrite (I1 C). reflexivity.
      * intros N. rewrite I2 by tauto. reflexivity.
Qed.

Lemma dict_get_set :
  forall d k v k' default,
    dict_get (dict_set d k v) k' default
    = if str_eqb k k' then v else dict_get d k' default.
Proof.
  induction d as [|[a b] d IH]; intros k v k' default; cbn [dict_set dict_get].
  - reflexivity.
  - destruct (str_eqb a k) eqn:E; cbn [dict_get].
    + apply str_eqb_eq in E. subst a. destruct (str_eqb k k'); reflexivity.
    + destruct (str_eqb a k') eqn:E'; [|apply IH].
      apply str_eqb_eq in E'. subst a.
      destruct (str_eqb k k') eqn:E2; [|reflexivity].
      apply str_eqb_eq in E2. subst k'. rewrite str_eqb_refl in E. discriminate E.
Qed.

Lemma dict_fold_keys :
  forall items acc,
    NoDup (map fst acc) ->
    NoDup (map fst (fold_left (fun d kv => dict_set d (fst kv) (snd kv)) items acc))
    /\ forall k, In k (map fst (fold_left (fun d kv => dict_set d (fst kv) (snd kv)) items acc))
                 <-> In k (map fst acc) \/ In k (map fst items).
Proof.
  induction items as [|[k0 v0] items IH]; intros acc Hacc; cbn [fold_left map fst snd].
  - split; [exact Hacc|]. intros k. cbn [In]. tauto.
  - destruct (dict_set_keys acc k0 v0) as [S1 S2].
    destruct (in_dec (list_eq_dec ascii_dec) k0 (map fst acc)) as [I | N].
    + assert (Hn : NoDup (map fst (dict_set acc k0 v0))) by (rewrite (S1 I); exact Hacc).
      destruct (IH _ Hn) as [ND K]. split; [exact ND|]. intros k. rewrite K, (S1 I).
      cbn [In]. split; [tauto|]. intros [H | [<- | H]]; tauto.
    + assert (Hn : NoDup (map fst (dict_set acc k0 v0))).
      { rewrite (S2 N), map_app. cbn [map fst]. apply NoDup_app; [exact Hacc | |].
        - constructor; [intros [] | constructor].
        - intros x Hx [<- | []]. contradiction. }
      destruct (IH _ Hn) as [ND K]. split; [exact ND|]. intros k. rewrite K, (S2 N).
      rewrite map_app, in_app_iff. cbn [map fst In]. tauto.
Qed.

Lemma dict_fold_get_absent :
  forall items acc k default,
    ~ In k (map fst items) ->
    dict_get (fold_left (fun d kv => dict_set d (fst kv) (snd kv)) items acc) k default
    = dict_get acc k default.
Proof.
  induction items as [|[k0 v0] items IH]; intros acc k default N; cbn [fold_left fst snd].
  - reflexivity.
  - cbn [map fst In] in N. rewrite IH by tauto. rewrite dict_get_set.
    destruct (str_eqb k0 k) eqn:E; [|reflexivity].
    apply str_eqb_eq in E. tauto.
Qed.

Lemma dict_fold_distinct :
  forall items acc,
    NoDup (map fst acc ++ map fst items) ->
    fold_left (fun d kv => dict_set d (fst kv) (snd kv)) items acc = acc ++ items.
Proof.
  induction items as [|[k0 v0] items IH]; intros acc H; cbn [fold_left fst snd].
  - rewrite app_nil_r. reflexivity.
  - cbn [map fst] in H.
    assert (N : ~ In k0 (map fst acc)).
    { intros I. apply NoDup_remove_2 in H. apply H. apply in_app_iff. left. exact I. }
    rewrite (proj2 (dict_set_keys acc k0 v0) N). rewrite IH.
    + rewrite <- app_assoc. reflexivity.
    + rewrite map_app. cbn [map fst]. rewrite <- app_assoc. exact H.
Qed.

Lemma combine_keys :
  forall (a b : list pystr), length a = length b -> map fst (combine a b) = a.
Proof.
  induction a as [|x a IH]; intros [|y b] H; cbn [combine map fst]; try reflexivity;
    try discriminate H.
  f_equal. apply IH. cbn [length] in H. lia.
Qed.

Lemma column_mapping_facts :
  forall originals moderns,
    length originals = length moderns ->
    column_mapping originals moderns = dict_of (combine originals moderns)
    /\ NoDup (map fst (column_mapping originals moderns))
    /\ (forall k, In k (map fst (column_mapping originals moderns)) <-> In k originals)
    /\ length (column_mapping originals moderns) <= length originals
    /\ (forall pre k v post default,
          combine originals moderns = pre ++ (k, v) :: post ->
          ~ In k (map fst post) ->
          dict_get (column_mapping originals moderns) k default = v)
    /\ (NoDup originals -> column_mapping originals moderns = combine originals moderns).
Proof.
  intros originals moderns L.
  assert (E : column_mapping originals moderns = dict_of (combine originals moderns)).
  { unfold column_mapping. rewrite L, Nat.eqb_refl. reflexivity. }
  rewrite E. unfold dict_of.
  destruct (@dict_fold_keys (combine originals moderns) [] (NoDup_nil _)) as [ND K].
  rewrite (combine_keys _ _ L) in K.
  split; [reflexivity|]. split; [exact ND|]. split; [|split; [|split]].
  - intros k. rewrite K. cbn [map In]. tauto.
  - rewrite <- (length_map fst).
    apply NoDup_incl_length; [exact ND|]. intros k Hk. apply K in Hk. cbn [map In] in Hk. tauto.
  - intros pre k v post default C N. rewrite C, fold_left_app. cbn [fold_left fst snd].
    rewrite dict_fold_get_absent by exact N. rewrite dict_get_set, str_eqb_refl. reflexivity.
  - intros Hd. rewrite dict_fold_distinct; [reflexivity|].
    cbn [map app]. rewrite (combine_keys _ _ L). exact Hd.
Qed.

(** X20: the mapping in the response of the [modernize_file] endpoint.  For
    the lists of a [process_file] result the fall-back mapping with keys
    [col_i] is never built.  The mapping has one entry per distinct original
    name, so at most one per column; the entry of a name holds the modernized
    name of the last column with that original name; when the original names
    are distinct the mapping is the list of pairs in column order. *)
Theorem column_mapping_entries :
  (forall chardet_detect decode_ignore read_excel read_fwf sniff read_csv
          modernizer re_match repr_list raw filename c df info,
     fst (process_file chardet_detect decode_ignore read_excel read_fwf sniff read_csv
            modernizer re_match repr_list raw filename c) = Ok (df, info) ->
     column_mapping (original_columns info) (modernized_columns info)
     = dict_of (combine (original_columns info) (modernized_columns info)))
  /\ (forall originals moderns,
        length originals = length moderns ->
        NoDup (map fst (column_mapping originals moderns))
        /\ (forall k, In k (map fst (column_mapping originals moderns)) <-> In k originals)
        /\ length (column_mapping originals moderns) <= length originals
        /\ (forall pre k v post default,
              combine originals moderns = pre ++ (k, v) :: post ->
              ~ In k (map fst post) ->
              dict_get (column_mapping originals moderns) k default = v)
        /\ (NoDup originals ->
            column_mapping originals moderns = combine originals moderns)).
Proof.
  split.
  - intros chardet_detect decode_ignore read_excel read_fwf sniff read_csv
           modernizer re_match repr_list raw filename c df info H.
    pose proof (process_file_lengths _ _ _ _ _ _ _ _ _ _ _ _ H) as L.
    exact (proj1 (column_mapping_facts _ _ L)).
  - intros originals moderns L. exact (proj2 (column_mapping_facts _ _ L)).
Qed.

Lemma column_mapping_entries_witness :
  dict_get (column_mapping [py "ID"; py "QTY"; py "ID"] [py "id"; py "qty"; py "id_2"])
           (py "ID") [] = py "id_2".
Proof.
  refine (proj1 (proj2 (proj2 (proj2 (proj2 column_mapping_entries
             [py "ID"; py "QTY"; py "ID"] [py "id"; py "qty"; py "id_2"] eq_refl))))
            [(py "ID", py "id"); (py "QTY", py "qty")] (py "ID") (py "id_2") [] []
            eq_refl _).
  intros [].
Defined.

(** ** The generative capability *)

Lemma validate_not_empty :
  forall name original, _validate_column_name name original = true -> is_empty name = false.
Proof.
  intros [|c t] original H; [|reflexivity]. discriminate H.
Qed.

Lemma generative_stage_cases :
  forall generate original_col,
    generative_stage (Some generate) original_col
    = match generate (rename_prompt original_col) with
      | Ok generated_text =>
          if _validate_column_name (_clean_column_name generated_text) original_col
          then Some (_clean_column_name generated_text)
          else None
      | Raise _ => None
      end.
Proof.
  intros generate original_col. unfold generative_stage.
  destruct (generate (rename_prompt original_col)) as [text|e]; [|reflexivity].
  destruct (_validate_column_name (_clean_column_name text) original_col) eqn:V.
  - rewrite (validate_not_empty _ _ V). reflexivity.
  - rewrite andb_false_r. reflexivity.
Qed.

(** X21: the generative capability decides a name only after the
    dictionary and only with an output that passes the validator once
    cleaned.  When it raises, or when its cleaned output is rejected, or when
    the dictionary decides, or for a blank name, [modernize_column_name]
    gives what it gives without the capability; when its cleaned output is
    accepted (and the dictionary does not decide), that output is the
    result. *)
Theorem generative_stage_fallback :
  forall generate col,
    (forall e, generate (rename_prompt (strip col)) = Raise e ->
               modernize_column_name (Some generate) col = modernize_column_name None col)
    /\ (forall text,
          generate (rename_prompt (strip col)) = Ok text ->
          _validate_column_name (_clean_column_name text) (strip col) = false ->
          modernize_column_name (Some generate) col = modernize_column_name None col)
    /\ (blank col = true \/ dictionary_decides (strip col) = true ->
        modernize_column_name (Some generate) col = modernize_column_name None col)
    /\ (forall text,
          generate (rename_prompt (strip col)) = Ok text ->
          _validate_column_name (_clean_column_name text) (strip col) = true ->
          blank col = false -> dictionary_decides (strip col) = false ->
          modernize_column_name (Some generate) col = _clean_column_name text).
Proof.
  intros generate col. unfold modernize_column_name.
  rewrite generative_stage_cases. cbn [generative_stage].
  fold (dictionary_decides (strip col)). unfold blank.
  split; [|split; [|split]].
  - intros e E. rewrite E. reflexivity.
  - intros text E V. rewrite E, V. reflexivity.
  - intros [B | D].
    + rewrite B, orb_true_r. reflexivity.
    + rewrite D. reflexivity.
  - intros text E V B D. rewrite E, V, B, D.
    rewrite (strip_not_empty col B). reflexivity.
Qed.

Lemma generative_stage_fallback_witness :
  modernize_column_name (Some (fun _ => Ok (py "Customer Data"))) (py "CUSTNAME")
  = modernize_column_name None (py "CUSTNAME").
Proof.
  exact (proj1 (proj2 (@generative_stage_fallback (fun _ => Ok (py "Customer Data"))
                         (py "CUSTNAME")))
           (py "Customer Data") eq_refl eq_refl).
Defined.

(** X22: the content-inference stage never reaches the generative
    capability, the regular-expression engine or the printing of the sample:
    its outcome is the same whatever they are. *)
Theorem inference_ignores_capabilities :
  forall modernizer re_match repr_list modernizer' re_match' repr_list' data i,
    predict_column_name_from_data modernizer re_match repr_list data i
    = predict_column_name_from_data modernizer' re_match' repr_list' data i.
Proof.
  intros modernizer re_match repr_list modernizer' re_match' repr_list' data i.
  unfold predict_column_name_from_data.
  destruct data as [|d data]; [reflexivity|].
  match goal with |- context [flat_map ?f ?l] => destruct (flat_map f l) as [|v sample] end;
    [reflexivity|].
  rewrite !pattern_raises. reflexivity.
Qed.

(** ** When the column-naming step fails *)

Lemma predict_raise_value :
  forall modernizer re_match repr_list data i e,
    predict_column_name_from_data modernizer re_match repr_list data i = Raise e ->
    exists v, In (Some v) (firstn 100 data) /\ blank v = false.
Proof.
  intros modernizer re_match repr_list data i e.
  unfold predict_column_name_from_data.
  destruct data as [|d data]; [discriminate|].
  match goal with |- context [flat_map ?f ?l] =>
    destruct (flat_map f l) as [|v sample] eqn:F end; [discriminate|].
  intros _.
  assert (I : In v (flat_map
                      (fun d0 : option pystr =>
                         match d0 with
                         | Some v0 => if is_empty (strip v0) then [] else [strip v0]
                         | None => []
                         end) (firstn 100 (d :: data))))
    by (rewrite F; left; reflexivity).
  apply in_flat_map in I as [[w|] [Hin Hw]]; [|destruct Hw].
  exists w. split; [exact Hin|]. unfold blank.
  destruct (is_empty (strip w)); [destruct Hw | reflexivity].
Qed.

Lemma resolve_columns_raise :
  forall modernizer re_match repr_list df cols i c e,
    fst (resolve_columns modernizer re_match repr_list df i cols c) = Raise e ->
    exists j o v,
      nth_error cols j = Some o
      /\ is_placeholder (strip o) = true
      /\ In (Some v) (firstn 100 (column_data df (i + j)))
      /\ blank v = false.
Proof.
  intros modernizer re_match repr_list df cols.
  induction cols as [|o cols IH]; intros i c e; cbn [resolve_columns]; [discriminate|].
  destruct (resolve_column modernizer re_match repr_list df i o c) as [[n|e1] c1] eqn:R.
  - specialize (IH (S i) c1 e).
    destruct (resolve_columns modernizer re_match repr_list df (S i) cols c1)
      as [[ns|e2] c2]; cbn [fst] in IH |- *; [discriminate|].
    intros H. destruct (IH H) as [j [o' [v [N [P [I B]]]]]].
    exists (S j), o', v. replace (i + S j) with (S i + j) by lia. auto.
  - intros _. exists 0, o. rewrite Nat.add_0_r.
    unfold resolve_column in R.
    destruct (is_placeholder (strip o)) eqn:P.
    + destruct (predict_column_name_from_data modernizer re_match repr_list
                  (column_data df i) i) as [m|e2] eqn:Q; [discriminate R|].
      destruct (predict_raise_value _ _ _ _ _ Q) as [v [I B]].
      exists v. auto.
    + destruct (modernize_column_name_cached modernizer (strip o) c). discriminate R.
Qed.

(** X23: [_modernize_column_names] fails only through content inference.
    When it raises, some column has a placeholder name and a value that is
    not blank among the first hundred of its values; hence a table none of
    whose column names is a placeholder is always renamed, whatever the
    generative capability does, and keeps its rows and its number of
    columns. *)
Theorem naming_fails_only_on_placeholders :
  forall modernizer re_match repr_list df c,
    (forall e,
       fst (_modernize_column_names modernizer re_match repr_list df c) = Raise e ->
       e = ReError "bad character range \s-( at position 7"
       /\ exists j o v,
            nth_error (columns df) j = Some o
            /\ is_placeholder (strip o) = true
            /\ In (Some v) (firstn 100 (column_data df j))
            /\ blank v = false)
    /\ ((forall o, In o (columns df) -> is_placeholder (strip o) = false) ->
        exists df',
          fst (_modernize_column_names modernizer re_match repr_list df c) = Ok df'
          /\ rows df' = rows df
          /\ ncols df' = ncols df).
Proof.
  intros modernizer re_match repr_list df c.
  assert (A : forall e,
             fst (_modernize_column_names modernizer re_match repr_list df c) = Raise e ->
             e = ReError "bad character range \s-( at position 7"
             /\ exists j o v,
                  nth_error (columns df) j = Some o
                  /\ is_placeholder (strip o) = true
                  /\ In (Some v) (firstn 100 (column_data df j))
                  /\ blank v = false).
  { intros e. unfold _modernize_column_names.
    pose proof (resolve_columns_cases modernizer re_match repr_list df (columns df) 0 c) as C.
    pose proof (@resolve_columns_raise modernizer re_match repr_list df (columns df) 0 c e) as R.
    destruct (resolve_columns modernizer re_match repr_list df 0 (columns df) c)
      as [[names|e1] c1]; cbn [fst] in *; [discriminate|].
    intros H; injection H as <-. split; [exact C|]. exact (R eq_refl). }
  split; [exact A|].
  intros NP.
  destruct (fst (_modernize_column_names modernizer re_match repr_list df c)) as [df'|e] eqn:M.
  - exists df'. split; [reflexivity|].
    revert M. unfold _modernize_column_names.
    pose proof (resolve_columns_cases modernizer re_match repr_list df (columns df) 0 c) as C.
    destruct (resolve_columns modernizer re_match repr_list df 0 (columns df) c)
      as [[names|e1] c1]; cbn [fst] in *; [|discriminate].
    intros H; injection H as <-. unfold ncols. cbn [rows columns]. tauto.
  - exfalso. destruct (A e eq_refl) as [_ [j [o [v [N [P _]]]]]].
    rewrite (NP o (nth_error_In _ _ N)) in P. discriminate P.
Qed.

Lemma naming_fails_only_on_placeholders_witness :
  match fst (_modernize_column_names (Some stub_fail) no_match no_repr customers_table
               empty_cache) with
  | Ok df' => rows df' = rows customers_table
  | Raise _ => False
  end.
Proof.
  destruct (proj2 (@naming_fails_only_on_placeholders (Some stub_fail) no_match no_repr
                     customers_table empty_cache)) as [df' [E [R _]]].
  - intros o [<- | [<- | []]]; reflexivity.
  - rewrite E. exact R.
Defined.

(** * C4: the rows of a fixed-width report *)

(** ** Where the rows start *)






(** ** Values at the columns of the header *)
















